(** * goamz/ec2 request building and the FileInfo store tests

    A shallow embedding of the two fragments of the repository:
    - [vendor/github.com/goamz/goamz/ec2/ec2.go]: parameter maps are
      [gmap string string], Go's [map[string]string]; an assignment
      [params[k] = v] is [<[k:=v]> params];
    - [store/sql_file_info_store_test.go]: the tests run against an abstract
      store, a state type with one function per store method.

    Go strings are byte strings: [string]. Go's [int] and [int64] are [Z]
    (no arithmetic other than a loop counter is done on them). *)

From Stdlib Require Import Strings.Ascii Strings.Byte.
From stdpp Require Import gmap strings list fin_maps pretty sorting.

Open Scope string_scope.
Open Scope nat_scope.

(** ** Strings: concatenation and [strconv.Itoa] *)

Module GoString.

(** [strconv.Itoa] and [strconv.FormatInt(_, 10)]: the decimal rendering,
    with a leading minus sign for negative numbers. *)
Definition Itoa (n : Z) : string := pretty n.
Global Arguments Itoa : simpl never.

(** The byte [b] does not occur in [s]. *)
Fixpoint lacks (b : ascii) (s : string) : Prop :=
  match s with
  | EmptyString => True
  | String c s => c ≠ b ∧ lacks b s
  end.

Abbreviation nodot := (lacks ".").

End GoString.

Import GoString.

(** ** Loops over slices *)

(** [for i, x := range xs { body }] where the body updates a state. *)
Fixpoint for_range_from {A St : Type} (i : nat) (xs : list A)
    (body : nat → A → St → St) (s : St) : St :=
  match xs with
  | [] => s
  | x :: xs => for_range_from (S i) xs body (body i x s)
  end.

Definition for_range {A St : Type} (xs : list A)
    (body : nat → A → St → St) (s : St) : St :=
  for_range_from 0 xs body s.

(** ** Go library: encoding/hex and sort *)

Module hex.

Definition hextable : string := "0123456789abcdef".

(** [hextable[n]] for [n < 16]. *)
Definition digit (n : N) : ascii :=
  default "0"%char (String.get (N.to_nat n) hextable).

(** hex.Encode: two digits per byte, [hextable[v>>4]] then
    [hextable[v&0x0f]]. *)
Fixpoint Encode (src : list byte) : string :=
  match src with
  | [] => ""
  | v :: src =>
      String (digit (N.shiftr (Byte.to_N v) 4))
        (String (digit (N.land (Byte.to_N v) 15)) (Encode src))
  end.

Definition EncodeToString (src : list byte) : string := Encode src.

End hex.

(** sort.StringSlice(a).Sort(): increasing order of Go's [<] on strings,
    the byte-wise lexicographic order. *)
Definition sort_strings (a : list string) : list string :=
  merge_sort String.le a.

(** ** package aws: the two types package ec2 embeds *)

Module aws.
(** Of aws.Auth and aws.Region only what package ec2 reads. *)
Record Auth := { AccessKey : string; SecretKey : string }.
Record Region := { Name : string; EC2Endpoint : string }.
End aws.

(** ** package ec2 *)

Module ec2.

(** *** Types *)

(** Error (ec2.go:100). *)
Module Error.
Record t := {
  StatusCode : Z;
  Code : string;
  Message : string;
  RequestId : string;
}.
Definition zero : t :=
  {| StatusCode := 0; Code := ""; Message := ""; RequestId := "" |}.
End Error.

(** xmlErrors (ec2.go:122). *)
Module xmlErrors.
Record t := { RequestId : string; Errors : list Error.t }.
Definition zero : t := {| RequestId := ""; Errors := [] |}.
End xmlErrors.

(** Go's [error] values met in this package: a [*Error] of the package
    itself, or an error of a library (net/url, net/http, encoding/xml,
    crypto/rand), identified by its message. *)
Inductive error :=
| EC2Error (e : Error.t)
| LibError (msg : string).

(** url.URL: the fields query reads and writes. *)
Module URL.
Record t := {
  Scheme : string;
  Host : string;
  Path : string;
  RawQuery : string;
}.
End URL.

(** http.Response: the fields query and buildError read. *)
Module Response.
Record t := { Status : string; StatusCode : Z; Body : string }.
End Response.

(** http.Client: [Get url] answers with a response or an error. *)
Module Client.
Record t := { Get : string → Response.t + error }.
End Client.

(** EC2 (ec2.go:33). *)
Record EC2 := {
  Auth : aws.Auth;
  Region : aws.Region;
  httpClient : Client.t;
  private : byte;
}.

(** Filter (ec2.go:61). *)
Module Filter.
Record t := { m : gmap string (list string) }.
End Filter.

(** SecurityGroup (ec2.go:1942). *)
Module SecurityGroup.
Record t := {
  Id : string;
  Name : string;
  Description : string;
  VpcId : string;
}.
End SecurityGroup.

(** IamInstanceProfile (ec2.go:401). *)
Module IamInstanceProfile.
Record t := { ARN : string; Id : string; Name : string }.
End IamInstanceProfile.

(** BlockDeviceMapping (ec2.go:1311). *)
Module BlockDeviceMapping.
Record t := {
  DeviceName : string;
  VirtualName : string;
  SnapshotId : string;
  VolumeType : string;
  VolumeSize : Z;
  DeleteOnTermination : bool;
  NoDevice : bool;
  IOPS : Z;
}.
End BlockDeviceMapping.

(** RunInstancesOptions (ec2.go:235). [UserData] is a slice tested
    against nil: [None] is the nil slice. *)
Module RunInstancesOptions.
Record t := {
  ImageId : string;
  MinCount : Z;
  MaxCount : Z;
  KeyName : string;
  InstanceType : string;
  SecurityGroups : list SecurityGroup.t;
  KernelId : string;
  RamdiskId : string;
  UserData : option (list byte);
  AvailabilityZone : string;
  PlacementGroupName : string;
  Tenancy : string;
  Monitoring : bool;
  SubnetId : string;
  DisableAPITermination : bool;
  ShutdownBehavior : string;
  PrivateIPAddress : string;
  IamInstanceProfile : IamInstanceProfile.t;
  BlockDevices : list BlockDeviceMapping.t;
  EbsOptimized : bool;
  AssociatePublicIpAddress : bool;
}.
End RunInstancesOptions.

(** RequestSpotInstances (ec2.go:544). *)
Module RequestSpotInstances.
Record t := {
  SpotPrice : string;
  InstanceCount : Z;
  Type_ : string;
  ImageId : string;
  KeyName : string;
  InstanceType : string;
  SecurityGroups : list SecurityGroup.t;
  IamInstanceProfile : string;
  KernelId : string;
  RamdiskId : string;
  UserData : option (list byte);
  AvailZone : string;
  PlacementGroupName : string;
  Monitoring : bool;
  SubnetId : string;
  AssociatePublicIpAddress : bool;
  PrivateIPAddress : string;
  BlockDevices : list BlockDeviceMapping.t;
}.
End RequestSpotInstances.

(** DescribeInstanceStatusOptions (ec2.go:850). *)
Module DescribeInstanceStatusOptions.
Record t := {
  InstanceIds : list string;
  IncludeAllInstances : bool;
  MaxResults : Z;
  NextToken : string;
}.
End DescribeInstanceStatusOptions.

(** ImportKeyPairOptions (ec2.go:971). *)
Module ImportKeyPairOptions.
Record t := { KeyName : string; PublicKeyMaterial : string }.
End ImportKeyPairOptions.

(** Tag (ec2.go:999). *)
Module Tag.
Record t := { Key : string; Value : string }.
End Tag.

(** ModifyInstance (ec2.go:1088). *)
Module ModifyInstance.
Record t := {
  InstanceType : string;
  BlockDevices : list BlockDeviceMapping.t;
  DisableAPITermination : bool;
  EbsOptimized : bool;
  SecurityGroups : list SecurityGroup.t;
  ShutdownBehavior : string;
  KernelId : string;
  RamdiskId : string;
  SourceDestCheck : bool;
  SriovNetSupport : bool;
  UserData : option (list byte);
}.
End ModifyInstance.

(** CreateImage (ec2.go:1242). *)
Module CreateImage.
Record t := {
  InstanceId : string;
  Name : string;
  Description : string;
  NoReboot : bool;
  BlockDevices : list BlockDeviceMapping.t;
}.
End CreateImage.

(** RegisterImage (ec2.go:1282). *)
Module RegisterImage.
Record t := {
  ImageLocation : string;
  Name : string;
  Description : string;
  Architecture : string;
  KernelId : string;
  RamdiskId : string;
  RootDeviceName : string;
  VirtType : string;
  BlockDevices : list BlockDeviceMapping.t;
}.
End RegisterImage.

(** ModifyImageAttribute (ec2.go:1352). The slices are tested against
    nil and then ranged over; a nil and an empty slice emit the same. *)
Module ModifyImageAttribute.
Record t := {
  AddUsers : list string;
  RemoveUsers : list string;
  AddGroups : list string;
  RemoveGroups : list string;
  ProductCodes : list string;
  Description : string;
}.
End ModifyImageAttribute.

(** CopyImage (ec2.go:1364). *)
Module CopyImage.
Record t := {
  SourceRegion : string;
  SourceImageId : string;
  Name : string;
  Description : string;
  ClientToken : string;
}.
End CopyImage.

(** CreateVolume (ec2.go:1723). *)
Module CreateVolume.
Record t := {
  AvailZone : string;
  Size : Z;
  SnapshotId : string;
  VolumeType : string;
  IOPS : Z;
}.
End CreateVolume.

(** UserSecurityGroup (ec2.go:1933). *)
Module UserSecurityGroup.
Record t := { Id : string; Name : string; OwnerId : string }.
End UserSecurityGroup.

(** IPPerm (ec2.go:1923). *)
Module IPPerm.
Record t := {
  Protocol : string;
  FromPort : Z;
  ToPort : Z;
  SourceIPs : list string;
  SourceGroups : list UserSecurityGroup.t;
}.
End IPPerm.

(** AllocateAddressOptions (ec2.go:2127). *)
Module AllocateAddressOptions.
Record t := { Domain : string }.
End AllocateAddressOptions.

(** AssociateAddressOptions (ec2.go:2192). *)
Module AssociateAddressOptions.
Record t := {
  PublicIp : string;
  InstanceId : string;
  AllocationId : string;
  NetworkInterfaceId : string;
  PrivateIpAddress : string;
  AllowReassociation : bool;
}.
End AssociateAddressOptions.

(** *** What package ec2 calls and does not define

    The Go libraries, the runtime and the part of the package that lies
    in other files ([sign], [b64]). Each field is one call site's callee;
    the two laws state what Go guarantees of it. *)

(** xml.NewDecoder(body).Decode(&v): the value left in [v] and the error
    returned. The decoder fills [v] as it reads, so an error does not mean
    that [v] was left as it was. *)
Class XmlTarget (R : Type) := xml_Decode : string → R → R * option error.

Record Env := {
  (** time.Time, [timeNow()], [t.In(time.UTC)], [t.Format(layout)] *)
  Time : Type;
  timeNow : Time;
  Time_In_UTC : Time → Time;
  Time_Format : Time → string → string;
  (** url.Parse, the String method of url.URL, [url.Values.Encode] *)
  url_Parse : string → URL.t + error;
  URL_String : URL.t → string;
  Values_Encode : gmap string (list string) → string;
  (** sign (sign.go): the parameter map after signing *)
  sign : aws.Auth → string → string → gmap string string → string →
         gmap string string;
  (** the decoder at type xmlErrors *)
  xmlErrors_Decode : XmlTarget xmlErrors.t;
  (** b64.Encode on a buffer of b64.EncodedLen bytes *)
  b64_Encode : list byte → string;
  (** rand.Read: the buffer after the call and the error; writing into
      a slice does not change its length *)
  rand_Read : list byte → list byte * option error;
  rand_Read_length : ∀ buf, length (rand_Read buf).1 = length buf;
  (** the order in which [for k := range m] visits the keys of a map:
      each key once, in an order of the runtime's choosing *)
  map_range : gmap string (list string) → list string;
  map_range_keys : ∀ m, map_range m ≡ₚ (map_to_list m).*1;
  (** aws.RetryingClient, the client New installs *)
  aws_RetryingClient : Client.t;
}.

(** time.RFC3339 *)
Definition time_RFC3339 : string := "2006-01-02T15:04:05Z07:00".

(** NewWithClient (ec2.go:41). *)
Definition NewWithClient (auth : aws.Auth) (region : aws.Region)
    (client : Client.t) : EC2 :=
  {| Auth := auth; Region := region; httpClient := client;
     private := Byte.x00 |}.

(** New (ec2.go:46). *)
Definition New (env : Env) (auth : aws.Auth) (region : aws.Region) : EC2 :=
  NewWithClient auth region (aws_RetryingClient env).

(** *** Filters *)

(** NewFilter (ec2.go:66). *)
Definition NewFilter : Filter.t := {| Filter.m := ∅ |}.

(** Filter.Add (ec2.go:71): [f.m[name]] of an absent name is the nil
    slice. *)
Definition Filter_Add (f : Filter.t) (name : string) (value : list string)
    : Filter.t :=
  {| Filter.m :=
       <[name := (default [] (Filter.m f !! name) ++ value)%list]>
         (Filter.m f) |}.

(** Filter.addParams (ec2.go:75); [None] is the nil filter, [a] the keys
    in the order the runtime ranges over [f.m]. *)
Definition Filter_addParams (env : Env) (f : option Filter.t)
    (params : gmap string string) : gmap string string :=
  match f with
  | None => params
  | Some f =>
      let a := map_range env (Filter.m f) in
      let a := sort_strings a in
      for_range a (λ i k params,
        let prefix := "Filter." +:+ Itoa (Z.of_nat i + 1) in
        let params := <[prefix +:+ ".Name" := k]> params in
        for_range (default [] (Filter.m f !! k)) (λ j v params,
          <[prefix +:+ ".Value." +:+ Itoa (Z.of_nat j + 1) := v]> params)
          params) params
  end.

(** *** Request dispatching *)

(** multimap (ec2.go:162). *)
Definition multimap (p : gmap string string) : gmap string (list string) :=
  let q : gmap string (list string) := ∅ in
  map_fold (λ k v q, <[k := [v]]> q) q p.

(** buildError (ec2.go:170). The error of Decode is dropped. *)
Definition buildError (env : Env) (r : Response.t) : error :=
  let errors := xmlErrors.zero in
  let errors := (xmlErrors_Decode env (Response.Body r) errors).1 in
  let err := Error.zero in
  let err :=
    match xmlErrors.Errors errors with
    | e :: _ => e
    | [] => err
    end in
  let err :=
    {| Error.StatusCode := Error.StatusCode err; Error.Code := Error.Code err;
       Error.Message := Error.Message err;
       Error.RequestId := xmlErrors.RequestId errors |} in
  let err :=
    {| Error.StatusCode := Response.StatusCode r;
       Error.Code := Error.Code err; Error.Message := Error.Message err;
       Error.RequestId := Error.RequestId err |} in
  let err :=
    if bool_decide (Error.Message err = "")
    then {| Error.StatusCode := Error.StatusCode err;
            Error.Code := Error.Code err;
            Error.Message := Response.Status r;
            Error.RequestId := Error.RequestId err |}
    else err in
  EC2Error err.

(** What a call of query leaves behind: the parameter map (a Go map is
    shared with the caller), the response struct, the returned error and
    the URLs passed to [httpClient.Get], in order. *)
Record QueryResult (R : Type) := {
  q_params : gmap string string;
  q_resp : R;
  q_err : option error;
  q_gets : list string;
}.
Arguments q_params {R}.
Arguments q_resp {R}.
Arguments q_err {R}.
Arguments q_gets {R}.

(** query (ec2.go:129). [debug] is the constant false (ec2.go:30), so the
    two logging blocks never run. *)
Definition query {R : Type} `{!XmlTarget R} (env : Env) (ec2 : EC2)
    (params : gmap string string) (resp : R) : QueryResult R :=
  let params := <["Version" := "2014-02-01"]> params in
  let params :=
    <["Timestamp" :=
        Time_Format env (Time_In_UTC env (timeNow env)) time_RFC3339]>
      params in
  match url_Parse env (aws.EC2Endpoint (Region ec2)) with
  | inr err =>
      {| q_params := params; q_resp := resp; q_err := Some err;
         q_gets := [] |}
  | inl endpoint =>
      let endpoint :=
        if bool_decide (URL.Path endpoint = "")
        then {| URL.Scheme := URL.Scheme endpoint;
                URL.Host := URL.Host endpoint; URL.Path := "/";
                URL.RawQuery := URL.RawQuery endpoint |}
        else endpoint in
      let params :=
        sign env (Auth ec2) "GET" (URL.Path endpoint) params
          (URL.Host endpoint) in
      let endpoint :=
        {| URL.Scheme := URL.Scheme endpoint; URL.Host := URL.Host endpoint;
           URL.Path := URL.Path endpoint;
           URL.RawQuery := Values_Encode env (multimap params) |} in
      let url := URL_String env endpoint in
      match Client.Get (httpClient ec2) url with
      | inr err =>
          {| q_params := params; q_resp := resp; q_err := Some err;
             q_gets := [url] |}
      | inl r =>
          if bool_decide (Response.StatusCode r ≠ 200%Z)
          then {| q_params := params; q_resp := resp;
                  q_err := Some (buildError env r); q_gets := [url] |}
          else
            let '(resp, err) := xml_Decode (Response.Body r) resp in
            {| q_params := params; q_resp := resp; q_err := err;
               q_gets := [url] |}
      end
  end.

(** makeParams (ec2.go:185). *)
Definition makeParams (action : string) : gmap string string :=
  let params : gmap string string := ∅ in
  <["Action" := action]> params.

(** addParamsList (ec2.go:191). *)
Definition addParamsList (params : gmap string string) (label : string)
    (ids : list string) : gmap string string :=
  for_range ids (λ i id params,
    <[label +:+ "." +:+ Itoa (Z.of_nat i + 1) := id]> params) params.

(** The prefix of the [i]-th block device (ec2.go:200). *)
Definition bd_prefix (prename : string) (i : nat) : string :=
  prename +:+ "BlockDeviceMapping." +:+ Itoa (Z.of_nat i + 1) +:+ ".".

(** The body of the loop of addBlockDeviceParams (ec2.go:199-225). *)
Definition addBlockDevice (prename : string) (i : nat)
    (k : BlockDeviceMapping.t) (params : gmap string string)
    : gmap string string :=
  let prefix := bd_prefix prename i in
  let params :=
    if bool_decide (BlockDeviceMapping.DeviceName k ≠ "")
    then <[prefix +:+ "DeviceName" := BlockDeviceMapping.DeviceName k]> params
    else params in
  let params :=
    if bool_decide (BlockDeviceMapping.VirtualName k ≠ "")
    then <[prefix +:+ "VirtualName" := BlockDeviceMapping.VirtualName k]> params
    else params in
  let params :=
    if bool_decide (BlockDeviceMapping.SnapshotId k ≠ "")
    then <[prefix +:+ "Ebs.SnapshotId" := BlockDeviceMapping.SnapshotId k]> params
    else params in
  let params :=
    if bool_decide (BlockDeviceMapping.VolumeType k ≠ "")
    then <[prefix +:+ "Ebs.VolumeType" := BlockDeviceMapping.VolumeType k]> params
    else params in
  let params :=
    if bool_decide (BlockDeviceMapping.IOPS k ≠ 0%Z)
    then <[prefix +:+ "Ebs.Iops" := Itoa (BlockDeviceMapping.IOPS k)]> params
    else params in
  let params :=
    if bool_decide (BlockDeviceMapping.VolumeSize k ≠ 0%Z)
    then <[prefix +:+ "Ebs.VolumeSize" :=
             Itoa (BlockDeviceMapping.VolumeSize k)]> params
    else params in
  let params :=
    if BlockDeviceMapping.DeleteOnTermination k
    then <[prefix +:+ "Ebs.DeleteOnTermination" := "true"]> params
    else params in
  let params :=
    if BlockDeviceMapping.NoDevice k
    then <[prefix +:+ "NoDevice" := "true"]> params else params in
  params.

(** addBlockDeviceParams (ec2.go:197). *)
Definition addBlockDeviceParams (prename : string)
    (params : gmap string string) (blockdevices : list BlockDeviceMapping.t)
    : gmap string string :=
  for_range blockdevices (addBlockDevice prename) params.

(** *** Idioms of the parameter builders *)

(** [if c { params[k] = v }] *)
Definition set_if (c : bool) (k v : string) (params : gmap string string)
    : gmap string string :=
  if c then <[k := v]> params else params.

(** [if v != "" { params[k] = v }] *)
Definition set_nonempty (k v : string) (params : gmap string string)
    : gmap string string :=
  set_if (bool_decide (v ≠ "")) k v params.

(** [if data != nil { params[k] = base64 of data }] (ec2.go:445-449) *)
Definition set_b64 (env : Env) (k : string) (data : option (list byte))
    (params : gmap string string) : gmap string string :=
  match data with
  | Some data => <[k := b64_Encode env data]> params
  | None => params
  end.

(** [i := 1; for _, g := range groups { if g.Id != "" { params[label+Itoa(i)]
    = g.Id; i++ } }] (ec2.go:474-481, 1158-1164); [i] is the counter on
    entry. *)
Fixpoint addGroupIds (label : string) (i : nat)
    (groups : list SecurityGroup.t) (params : gmap string string)
    : gmap string string :=
  match groups with
  | [] => params
  | g :: groups =>
      if bool_decide (SecurityGroup.Id g ≠ "")
      then addGroupIds label (S i) groups
             (<[label +:+ Itoa (Z.of_nat i) := SecurityGroup.Id g]> params)
      else addGroupIds label i groups params
  end.

(** [i, j := 1, 1; for _, g := range groups { if g.Id != "" { ...; i++ }
    else { params[nameLabel+Itoa(j)] = g.Name; j++ } }] (ec2.go:487-496,
    1976-1985); [i] and [j] are the counters on entry. *)
Fixpoint addGroups (idLabel nameLabel : string) (i j : nat)
    (groups : list SecurityGroup.t) (params : gmap string string)
    : gmap string string :=
  match groups with
  | [] => params
  | g :: groups =>
      if bool_decide (SecurityGroup.Id g ≠ "")
      then addGroups idLabel nameLabel (S i) j groups
             (<[idLabel +:+ Itoa (Z.of_nat i) := SecurityGroup.Id g]> params)
      else addGroups idLabel nameLabel i (S j) groups
             (<[nameLabel +:+ Itoa (Z.of_nat j) := SecurityGroup.Name g]>
                params)
  end.

(** What the part of an operation before its call of query yields: a
    run-time panic (a nil options pointer is dereferenced), an early
    return with an error, or the parameter map handed to query. *)
Inductive Built :=
| Panics
| Fails (err : error)
| Params (params : gmap string string).

(** *** Instances *)

(** clientToken (ec2.go:527). *)
Definition clientToken (env : Env) : string * option error :=
  let buf := replicate 32 Byte.x00 in
  let '(buf, err) := rand_Read env buf in
  match err with
  | Some err => ("", Some err)
  | None => (hex.EncodeToString buf, None)
  end.

(** RunInstances, up to its call of query (ec2.go:414-517). *)
Definition RunInstances_params (env : Env)
    (options : option RunInstancesOptions.t) : Built :=
  let params := makeParams "RunInstances" in
  match options with
  | None => Panics
  | Some options =>
  let params := <["ImageId" := RunInstancesOptions.ImageId options]> params in
  let params :=
    <["InstanceType" := RunInstancesOptions.InstanceType options]> params in
  let '(min, max) :=
    if bool_decide (RunInstancesOptions.MinCount options = 0%Z)
       && bool_decide (RunInstancesOptions.MaxCount options = 0%Z)
    then (1%Z, 1%Z)
    else if bool_decide (RunInstancesOptions.MaxCount options = 0%Z)
    then (RunInstancesOptions.MinCount options,
          RunInstancesOptions.MinCount options)
    else (RunInstancesOptions.MinCount options,
          RunInstancesOptions.MaxCount options) in
  let params := <["MinCount" := Itoa min]> params in
  let params := <["MaxCount" := Itoa max]> params in
  let '(token, err) := clientToken env in
  match err with
  | Some err => Fails err
  | None =>
  let params := <["ClientToken" := token]> params in
  let params :=
    set_nonempty "KeyName" (RunInstancesOptions.KeyName options) params in
  let params :=
    set_nonempty "KernelId" (RunInstancesOptions.KernelId options) params in
  let params :=
    set_nonempty "RamdiskId" (RunInstancesOptions.RamdiskId options) params in
  let params :=
    set_b64 env "UserData" (RunInstancesOptions.UserData options) params in
  let params :=
    set_nonempty "Placement.AvailabilityZone"
      (RunInstancesOptions.AvailabilityZone options) params in
  let params :=
    set_nonempty "Placement.GroupName"
      (RunInstancesOptions.PlacementGroupName options) params in
  let params :=
    set_nonempty "Placement.Tenancy" (RunInstancesOptions.Tenancy options)
      params in
  let params :=
    set_if (RunInstancesOptions.Monitoring options) "Monitoring.Enabled"
      "true" params in
  let params :=
    if bool_decide (RunInstancesOptions.SubnetId options ≠ "")
       && RunInstancesOptions.AssociatePublicIpAddress options
    then
      let params := <["NetworkInterface.0.DeviceIndex" := "0"]> params in
      let params :=
        <["NetworkInterface.0.AssociatePublicIpAddress" := "true"]> params in
      let params :=
        <["NetworkInterface.0.SubnetId" :=
            RunInstancesOptions.SubnetId options]> params in
      addGroupIds "NetworkInterface.0.SecurityGroupId." 1
        (RunInstancesOptions.SecurityGroups options) params
    else
      let params :=
        set_nonempty "SubnetId" (RunInstancesOptions.SubnetId options)
          params in
      addGroups "SecurityGroupId." "SecurityGroup." 1 1
        (RunInstancesOptions.SecurityGroups options) params in
  let params :=
    set_nonempty "IamInstanceProfile.Arn"
      (IamInstanceProfile.ARN (RunInstancesOptions.IamInstanceProfile options))
      params in
  let params :=
    set_nonempty "IamInstanceProfile.Name"
      (IamInstanceProfile.Name
         (RunInstancesOptions.IamInstanceProfile options)) params in
  let params :=
    set_if (RunInstancesOptions.DisableAPITermination options)
      "DisableApiTermination" "true" params in
  let params :=
    set_nonempty "InstanceInitiatedShutdownBehavior"
      (RunInstancesOptions.ShutdownBehavior options) params in
  let params :=
    set_nonempty "PrivateIpAddress"
      (RunInstancesOptions.PrivateIPAddress options) params in
  let params :=
    set_if (RunInstancesOptions.EbsOptimized options) "EbsOptimized" "true"
      params in
  let params :=
    addBlockDeviceParams "" params
      (RunInstancesOptions.BlockDevices options) in
  Params params
  end
  end.

(** What a call of an operation yields: a panic, or the two results the
    Go function returns, with the URLs passed to [httpClient.Get]. *)
Inductive Outcome (R : Type) :=
| Panic
| Return (resp : option R) (err : option error) (gets : list string).
Arguments Panic {R}.
Arguments Return {R}.

(** [resp = &T{}; err = ec2.query(params, resp); if err != nil { return
    nil, err }; return] (ec2.go:519-524 and the like); [zero] is [T{}]. *)
Definition call {R : Type} `{!XmlTarget R} (env : Env) (ec2 : EC2)
    (zero : R) (b : Built) : Outcome R :=
  match b with
  | Panics => Panic
  | Fails err => Return None (Some err) []
  | Params params =>
      let resp := zero in
      let r := query env ec2 params resp in
      match q_err r with
      | Some err => Return None (Some err) (q_gets r)
      | None => Return (Some (q_resp r)) None (q_gets r)
      end
  end.

(** RunInstances (ec2.go:413); the response type is [RunInstancesResp],
    of which only the decoder and the zero value matter here. *)
Definition RunInstances {RunInstancesResp : Type}
    `{!XmlTarget RunInstancesResp} (env : Env) (ec2 : EC2)
    (zero : RunInstancesResp) (options : option RunInstancesOptions.t)
    : Outcome RunInstancesResp :=
  call env ec2 zero (RunInstances_params env options).

(** *** The other operations, each up to its call of query *)

(** RequestSpotInstances (ec2.go:618-694). *)
Definition RequestSpotInstances_params (env : Env)
    (options : option RequestSpotInstances.t) : Built :=
  let params := makeParams "RequestSpotInstances" in
  let prefix := "LaunchSpecification" +:+ "." in
  match options with
  | None => Panics
  | Some options =>
  let params :=
    <["SpotPrice" := RequestSpotInstances.SpotPrice options]> params in
  let params :=
    <[prefix +:+ "ImageId" := RequestSpotInstances.ImageId options]>
      params in
  let params :=
    <[prefix +:+ "InstanceType" :=
        RequestSpotInstances.InstanceType options]> params in
  let params :=
    set_if (bool_decide (RequestSpotInstances.InstanceCount options ≠ 0%Z))
      "InstanceCount" (Itoa (RequestSpotInstances.InstanceCount options))
      params in
  let params :=
    set_nonempty (prefix +:+ "KeyName")
      (RequestSpotInstances.KeyName options) params in
  let params :=
    set_nonempty (prefix +:+ "KernelId")
      (RequestSpotInstances.KernelId options) params in
  let params :=
    set_nonempty (prefix +:+ "RamdiskId")
      (RequestSpotInstances.RamdiskId options) params in
  let params :=
    set_b64 env (prefix +:+ "UserData")
      (RequestSpotInstances.UserData options) params in
  let params :=
    set_nonempty (prefix +:+ "Placement.AvailabilityZone")
      (RequestSpotInstances.AvailZone options) params in
  let params :=
    set_nonempty (prefix +:+ "Placement.GroupName")
      (RequestSpotInstances.PlacementGroupName options) params in
  let params :=
    set_if (RequestSpotInstances.Monitoring options)
      (prefix +:+ "Monitoring.Enabled") "true" params in
  let params :=
    if bool_decide (RequestSpotInstances.SubnetId options ≠ "")
       && RequestSpotInstances.AssociatePublicIpAddress options
    then
      let params :=
        <[prefix +:+ "NetworkInterface.0.DeviceIndex" := "0"]> params in
      let params :=
        <[prefix +:+ "NetworkInterface.0.AssociatePublicIpAddress" :=
            "true"]> params in
      let params :=
        <[prefix +:+ "NetworkInterface.0.SubnetId" :=
            RequestSpotInstances.SubnetId options]> params in
      addGroupIds (prefix +:+ "NetworkInterface.0.SecurityGroupId.") 1
        (RequestSpotInstances.SecurityGroups options) params
    else
      let params :=
        set_nonempty (prefix +:+ "SubnetId")
          (RequestSpotInstances.SubnetId options) params in
      addGroups (prefix +:+ "SecurityGroupId.")
        (prefix +:+ "SecurityGroup.") 1 1
        (RequestSpotInstances.SecurityGroups options) params in
  let params :=
    set_nonempty (prefix +:+ "IamInstanceProfile.Name")
      (RequestSpotInstances.IamInstanceProfile options) params in
  let params :=
    set_nonempty (prefix +:+ "PrivateIpAddress")
      (RequestSpotInstances.PrivateIPAddress options) params in
  let params :=
    addBlockDeviceParams prefix params
      (RequestSpotInstances.BlockDevices options) in
  Params params
  end.

(** DescribeSpotRequests (ec2.go:717-720). *)
Definition DescribeSpotRequests_params (env : Env)
    (spotrequestIds : list string) (filter : option Filter.t) : Built :=
  let params := makeParams "DescribeSpotInstanceRequests" in
  let params :=
    addParamsList params "SpotInstanceRequestId" spotrequestIds in
  let params := Filter_addParams env filter params in
  Params params.

(** CancelSpotRequests (ec2.go:744-746). *)
Definition CancelSpotRequests_params (spotrequestIds : list string)
    : Built :=
  let params := makeParams "CancelSpotInstanceRequests" in
  let params :=
    addParamsList params "SpotInstanceRequestId" spotrequestIds in
  Params params.

(** TerminateInstances (ec2.go:790-792). *)
Definition TerminateInstances_params (instIds : list string) : Built :=
  let params := makeParams "TerminateInstances" in
  let params := addParamsList params "InstanceId" instIds in
  Params params.

(** DescribeInstances (ec2.go:825-828). *)
Definition DescribeInstances_params (env : Env) (instIds : list string)
    (filter : option Filter.t) : Built :=
  let params := makeParams "DescribeInstances" in
  let params := addParamsList params "InstanceId" instIds in
  let params := Filter_addParams env filter params in
  Params params.

(** DescribeInstanceStatus (ec2.go:911-925). *)
Definition DescribeInstanceStatus_params (env : Env)
    (options : option DescribeInstanceStatusOptions.t)
    (filter : option Filter.t) : Built :=
  let params := makeParams "DescribeInstanceStatus" in
  match options with
  | None => Panics
  | Some options =>
  let params :=
    if bool_decide
         (0 < length (DescribeInstanceStatusOptions.InstanceIds options))
    then addParamsList params "InstanceId"
           (DescribeInstanceStatusOptions.InstanceIds options)
    else params in
  let params :=
    set_if (DescribeInstanceStatusOptions.IncludeAllInstances options)
      "IncludeAllInstances" "true" params in
  let params :=
    set_if
      (bool_decide (DescribeInstanceStatusOptions.MaxResults options ≠ 0%Z))
      "MaxResults" (Itoa (DescribeInstanceStatusOptions.MaxResults options))
      params in
  let params :=
    set_nonempty "NextToken"
      (DescribeInstanceStatusOptions.NextToken options) params in
  let params := Filter_addParams env filter params in
  Params params
  end.

(** CreateKeyPair (ec2.go:947-949). *)
Definition CreateKeyPair_params (keyName : string) : Built :=
  let params := makeParams "CreateKeyPair" in
  let params := <["KeyName" := keyName]> params in
  Params params.

(** DeleteKeyPair (ec2.go:962-964). *)
Definition DeleteKeyPair_params (name : string) : Built :=
  let params := makeParams "DeleteKeyPair" in
  let params := <["KeyName" := name]> params in
  Params params.

(** ImportKeyPair (ec2.go:985-988). *)
Definition ImportKeyPair_params (options : option ImportKeyPairOptions.t)
    : Built :=
  let params := makeParams "ImportKeyPair" in
  match options with
  | None => Panics
  | Some options =>
  let params :=
    <["KeyName" := ImportKeyPairOptions.KeyName options]> params in
  let params :=
    <["PublicKeyMaterial" :=
        ImportKeyPairOptions.PublicKeyMaterial options]> params in
  Params params
  end.

(** CreateTags (ec2.go:1008-1015). *)
Definition CreateTags_params (resourceIds : list string)
    (tags : list Tag.t) : Built :=
  let params := makeParams "CreateTags" in
  let params := addParamsList params "ResourceId" resourceIds in
  let params :=
    for_range tags (λ j tag params,
      let params :=
        <["Tag." +:+ Itoa (Z.of_nat j + 1) +:+ ".Key" := Tag.Key tag]>
          params in
      <["Tag." +:+ Itoa (Z.of_nat j + 1) +:+ ".Value" := Tag.Value tag]>
        params) params in
  Params params.

(** StartInstances (ec2.go:1044-1046). *)
Definition StartInstances_params (ids : list string) : Built :=
  let params := makeParams "StartInstances" in
  let params := addParamsList params "InstanceId" ids in
  Params params.

(** StopInstances (ec2.go:1058-1060). *)
Definition StopInstances_params (ids : list string) : Built :=
  let params := makeParams "StopInstances" in
  let params := addParamsList params "InstanceId" ids in
  Params params.

(** RebootInstances (ec2.go:1076-1078). *)
Definition RebootInstances_params (ids : list string) : Built :=
  let params := makeParams "RebootInstances" in
  let params := addParamsList params "InstanceId" ids in
  Params params.

(** ModifyInstance (ec2.go:1115-1164). *)
Definition ModifyInstance_params (env : Env) (instId : string)
    (options : option ModifyInstance.t) : Built :=
  let params := makeParams "ModifyInstanceAttribute" in
  let params := <["InstanceId" := instId]> params in
  match options with
  | None => Panics
  | Some options =>
  let params :=
    addBlockDeviceParams "" params (ModifyInstance.BlockDevices options) in
  let params :=
    set_nonempty "InstanceType.Value" (ModifyInstance.InstanceType options)
      params in
  let params :=
    set_if (ModifyInstance.DisableAPITermination options)
      "DisableApiTermination.Value" "true" params in
  let params :=
    set_if (ModifyInstance.EbsOptimized options) "EbsOptimized" "true"
      params in
  let params :=
    set_nonempty "InstanceInitiatedShutdownBehavior.Value"
      (ModifyInstance.ShutdownBehavior options) params in
  let params :=
    set_nonempty "Kernel.Value" (ModifyInstance.KernelId options) params in
  let params :=
    set_nonempty "Ramdisk.Value" (ModifyInstance.RamdiskId options)
      params in
  let params :=
    set_if (ModifyInstance.SourceDestCheck options) "SourceDestCheck.Value"
      "true" params in
  let params :=
    set_if (ModifyInstance.SriovNetSupport options) "SriovNetSupport.Value"
      "simple" params in
  let params :=
    set_b64 env "UserData" (ModifyInstance.UserData options) params in
  let params :=
    addGroupIds "GroupId." 1 (ModifyInstance.SecurityGroups options)
      params in
  Params params
  end.

(** DescribeReservedInstances (ec2.go:1220-1226). *)
Definition DescribeReservedInstances_params (env : Env)
    (instIds : list string) (filter : option Filter.t) : Built :=
  let params := makeParams "DescribeReservedInstances" in
  let params :=
    for_range instIds (λ i id params,
      <["ReservedInstancesId." +:+ Itoa (Z.of_nat i + 1) := id]> params)
      params in
  let params := Filter_addParams env filter params in
  Params params.

(** CreateImage, the operation (ec2.go:1384-1394). *)
Definition CreateImage_params (options : option CreateImage.t) : Built :=
  let params := makeParams "CreateImage" in
  match options with
  | None => Panics
  | Some options =>
  let params := <["InstanceId" := CreateImage.InstanceId options]> params in
  let params := <["Name" := CreateImage.Name options]> params in
  let params :=
    set_nonempty "Description" (CreateImage.Description options) params in
  let params :=
    set_if (CreateImage.NoReboot options) "NoReboot" "true" params in
  let params :=
    addBlockDeviceParams "" params (CreateImage.BlockDevices options) in
  Params params
  end.

(** Images (ec2.go:1415-1420). *)
Definition Images_params (env : Env) (ids : list string)
    (filter : option Filter.t) : Built :=
  let params := makeParams "DescribeImages" in
  let params :=
    for_range ids (λ i id params,
      <["ImageId." +:+ Itoa (Z.of_nat i + 1) := id]> params) params in
  let params := Filter_addParams env filter params in
  Params params.

(** ImagesByOwners (ec2.go:1440-1449); [fmt.Sprintf] of Owner.%d is the
    label followed by the decimal number. *)
Definition ImagesByOwners_params (env : Env) (ids owners : list string)
    (filter : option Filter.t) : Built :=
  let params := makeParams "DescribeImages" in
  let params :=
    for_range ids (λ i id params,
      <["ImageId." +:+ Itoa (Z.of_nat i + 1) := id]> params) params in
  let params :=
    for_range owners (λ i owner params,
      <["Owner." +:+ Itoa (Z.of_nat i + 1) := owner]> params) params in
  let params := Filter_addParams env filter params in
  Params params.

(** ImageAttribute (ec2.go:1465-1468). *)
Definition ImageAttribute_params (imageId attribute : string) : Built :=
  let params := makeParams "DescribeImageAttribute" in
  let params := <["ImageId" := imageId]> params in
  let params := <["Attribute" := attribute]> params in
  Params params.

(** ModifyImageAttribute, the operation (ec2.go:1481-1518). *)
Definition ModifyImageAttribute_params (imageId : string)
    (options : option ModifyImageAttribute.t) : Built :=
  let params := makeParams "ModifyImageAttribute" in
  let params := <["ImageId" := imageId]> params in
  match options with
  | None => Panics
  | Some options =>
  let params :=
    set_nonempty "Description.Value"
      (ModifyImageAttribute.Description options) params in
  let params :=
    for_range (ModifyImageAttribute.AddUsers options) (λ i user params,
      let p :=
        "LaunchPermission.Add." +:+ Itoa (Z.of_nat i + 1) +:+ ".UserId" in
      <[p := user]> params) params in
  let params :=
    for_range (ModifyImageAttribute.RemoveUsers options) (λ i user params,
      let p :=
        "LaunchPermission.Remove." +:+ Itoa (Z.of_nat i + 1) +:+ ".UserId" in
      <[p := user]> params) params in
  let params :=
    for_range (ModifyImageAttribute.AddGroups options) (λ i group params,
      let p :=
        "LaunchPermission.Add." +:+ Itoa (Z.of_nat i + 1) +:+ ".Group" in
      <[p := group]> params) params in
  let params :=
    for_range (ModifyImageAttribute.RemoveGroups options)
      (λ i group params,
        let p :=
          "LaunchPermission.Remove." +:+ Itoa (Z.of_nat i + 1)
          +:+ ".Group" in
        <[p := group]> params) params in
  let params :=
    addParamsList params "ProductCode"
      (ModifyImageAttribute.ProductCodes options) in
  Params params
  end.

(** RegisterImage, the operation (ec2.go:1532-1563). *)
Definition RegisterImage_params (options : option RegisterImage.t)
    : Built :=
  let params := makeParams "RegisterImage" in
  match options with
  | None => Panics
  | Some options =>
  let params := <["Name" := RegisterImage.Name options]> params in
  let params :=
    set_nonempty "ImageLocation" (RegisterImage.ImageLocation options)
      params in
  let params :=
    set_nonempty "Description" (RegisterImage.Description options) params in
  let params :=
    set_nonempty "Architecture" (RegisterImage.Architecture options)
      params in
  let params :=
    set_nonempty "KernelId" (RegisterImage.KernelId options) params in
  let params :=
    set_nonempty "RamdiskId" (RegisterImage.RamdiskId options) params in
  let params :=
    set_nonempty "RootDeviceName" (RegisterImage.RootDeviceName options)
      params in
  let params :=
    set_nonempty "VirtualizationType" (RegisterImage.VirtType options)
      params in
  let params :=
    addBlockDeviceParams "" params (RegisterImage.BlockDevices options) in
  Params params
  end.

(** DeregisterImage (ec2.go:1577-1579). *)
Definition DeregisterImage_params (imageId : string) : Built :=
  let params := makeParams "DeregisterImage" in
  let params := <["ImageId" := imageId]> params in
  Params params.

(** CopyImage, the operation (ec2.go:1593-1614). *)
Definition CopyImage_params (options : option CopyImage.t) : Built :=
  let params := makeParams "CopyImage" in
  match options with
  | None => Panics
  | Some options =>
  let params :=
    set_nonempty "SourceRegion" (CopyImage.SourceRegion options) params in
  let params :=
    set_nonempty "SourceImageId" (CopyImage.SourceImageId options) params in
  let params := set_nonempty "Name" (CopyImage.Name options) params in
  let params :=
    set_nonempty "Description" (CopyImage.Description options) params in
  let params :=
    set_nonempty "ClientToken" (CopyImage.ClientToken options) params in
  Params params
  end.

(** CreateSnapshot (ec2.go:1636-1639). *)
Definition CreateSnapshot_params (volumeId description : string) : Built :=
  let params := makeParams "CreateSnapshot" in
  let params := <["VolumeId" := volumeId]> params in
  let params := <["Description" := description]> params in
  Params params.

(** DeleteSnapshots (ec2.go:1659-1663). *)
Definition DeleteSnapshots_params (ids : list string) : Built :=
  let params := makeParams "DeleteSnapshot" in
  let params :=
    for_range ids (λ i id params,
      <["SnapshotId." +:+ Itoa (Z.of_nat i + 1) := id]> params) params in
  Params params.

(** Snapshots (ec2.go:1702-1707). *)
Definition Snapshots_params (env : Env) (ids : list string)
    (filter : option Filter.t) : Built :=
  let params := makeParams "DescribeSnapshots" in
  let params :=
    for_range ids (λ i id params,
      <["SnapshotId." +:+ Itoa (Z.of_nat i + 1) := id]> params) params in
  let params := Filter_addParams env filter params in
  Params params.

(** AttachVolume (ec2.go:1781-1785). *)
Definition AttachVolume_params (volumeId instanceId device : string)
    : Built :=
  let params := makeParams "AttachVolume" in
  let params := <["VolumeId" := volumeId]> params in
  let params := <["InstanceId" := instanceId]> params in
  let params := <["Device" := device]> params in
  Params params.

(** CreateVolume, the operation (ec2.go:1797-1814). *)
Definition CreateVolume_params (options : option CreateVolume.t) : Built :=
  let params := makeParams "CreateVolume" in
  match options with
  | None => Panics
  | Some options =>
  let params :=
    <["AvailabilityZone" := CreateVolume.AvailZone options]> params in
  let params :=
    set_if (bool_decide (0 < CreateVolume.Size options)%Z) "Size"
      (Itoa (CreateVolume.Size options)) params in
  let params :=
    set_nonempty "SnapshotId" (CreateVolume.SnapshotId options) params in
  let params :=
    set_nonempty "VolumeType" (CreateVolume.VolumeType options) params in
  let params :=
    set_if (bool_decide (0 < CreateVolume.IOPS options)%Z) "Iops"
      (Itoa (CreateVolume.IOPS options)) params in
  Params params
  end.

(** DeleteVolume (ec2.go:1825-1827). *)
Definition DeleteVolume_params (id : string) : Built :=
  let params := makeParams "DeleteVolume" in
  let params := <["VolumeId" := id]> params in
  Params params.

(** DetachVolume (ec2.go:1838-1840). *)
Definition DetachVolume_params (id : string) : Built :=
  let params := makeParams "DetachVolume" in
  let params := <["VolumeId" := id]> params in
  Params params.

(** Volumes (ec2.go:1851-1854). *)
Definition Volumes_params (env : Env) (volIds : list string)
    (filter : option Filter.t) : Built :=
  let params := makeParams "DescribeVolumes" in
  let params := addParamsList params "VolumeId" volIds in
  let params := Filter_addParams env filter params in
  Params params.

(** CreateSecurityGroup (ec2.go:1883-1889). *)
Definition CreateSecurityGroup_params (group : SecurityGroup.t) : Built :=
  let params := makeParams "CreateSecurityGroup" in
  let params := <["GroupName" := SecurityGroup.Name group]> params in
  let params :=
    <["GroupDescription" := SecurityGroup.Description group]> params in
  let params := set_nonempty "VpcId" (SecurityGroup.VpcId group) params in
  Params params.

(** SecurityGroups (ec2.go:1974-1986). *)
Definition SecurityGroups_params (env : Env)
    (groups : list SecurityGroup.t) (filter : option Filter.t) : Built :=
  let params := makeParams "DescribeSecurityGroups" in
  let params := addGroups "GroupId." "GroupName." 1 1 groups params in
  let params := Filter_addParams env filter params in
  Params params.

(** [if group.Id != "" { params["GroupId"] = group.Id } else {
    params["GroupName"] = group.Name }] (ec2.go:2001-2005, 2047-2051) *)
Definition set_group (group : SecurityGroup.t)
    (params : gmap string string) : gmap string string :=
  if bool_decide (SecurityGroup.Id group ≠ "")
  then <["GroupId" := SecurityGroup.Id group]> params
  else <["GroupName" := SecurityGroup.Name group]> params.

(** DeleteSecurityGroup (ec2.go:1999-2005). *)
Definition DeleteSecurityGroup_params (group : SecurityGroup.t) : Built :=
  let params := makeParams "DeleteSecurityGroup" in
  let params := set_group group params in
  Params params.

(** authOrRevoke (ec2.go:2045-2072). *)
Definition authOrRevoke_params (op : string) (group : SecurityGroup.t)
    (perms : list IPPerm.t) : Built :=
  let params := makeParams op in
  let params := set_group group params in
  let params :=
    for_range perms (λ i perm params,
      let prefix := "IpPermissions." +:+ Itoa (Z.of_nat i + 1) in
      let params :=
        <[prefix +:+ ".IpProtocol" := IPPerm.Protocol perm]> params in
      let params :=
        <[prefix +:+ ".FromPort" := Itoa (IPPerm.FromPort perm)]> params in
      let params :=
        <[prefix +:+ ".ToPort" := Itoa (IPPerm.ToPort perm)]> params in
      let params :=
        for_range (IPPerm.SourceIPs perm) (λ j ip params,
          <[prefix +:+ ".IpRanges." +:+ Itoa (Z.of_nat j + 1) +:+ ".CidrIp"
            := ip]> params) params in
      for_range (IPPerm.SourceGroups perm) (λ j g params,
        let subprefix := prefix +:+ ".Groups." +:+ Itoa (Z.of_nat j + 1) in
        let params :=
          set_nonempty (subprefix +:+ ".UserId")
            (UserSecurityGroup.OwnerId g) params in
        if bool_decide (UserSecurityGroup.Id g ≠ "")
        then <[subprefix +:+ ".GroupId" := UserSecurityGroup.Id g]> params
        else <[subprefix +:+ ".GroupName" := UserSecurityGroup.Name g]>
               params) params) params in
  Params params.

(** AuthorizeSecurityGroup, RevokeSecurityGroup,
    AuthorizeSecurityGroupEgress, RevokeSecurityGroupEgress
    (ec2.go:2019-2043). *)
Definition AuthorizeSecurityGroup_params :=
  authOrRevoke_params "AuthorizeSecurityGroupIngress".
Definition RevokeSecurityGroup_params :=
  authOrRevoke_params "RevokeSecurityGroupIngress".
Definition AuthorizeSecurityGroupEgress_params :=
  authOrRevoke_params "AuthorizeSecurityGroupEgress".
Definition RevokeSecurityGroupEgress_params :=
  authOrRevoke_params "RevokeSecurityGroupEgress".

(** DescribeAddresses (ec2.go:2111-2115). *)
Definition DescribeAddresses_params (env : Env)
    (publicIps allocationIds : list string) (filter : option Filter.t)
    : Built :=
  let params := makeParams "DescribeAddresses" in
  let params := addParamsList params "PublicIp" publicIps in
  let params := addParamsList params "AllocationId" allocationIds in
  let params := Filter_addParams env filter params in
  Params params.

(** AllocateAddress (ec2.go:2146-2148). *)
Definition AllocateAddress_params
    (options : option AllocateAddressOptions.t) : Built :=
  let params := makeParams "AllocateAddress" in
  match options with
  | None => Panics
  | Some options =>
  let params :=
    <["Domain" := AllocateAddressOptions.Domain options]> params in
  Params params
  end.

(** ReleaseAddress (ec2.go:2170-2179). *)
Definition ReleaseAddress_params (publicIp allocationId : string) : Built :=
  let params := makeParams "ReleaseAddress" in
  let params := set_nonempty "PublicIp" publicIp params in
  let params := set_nonempty "AllocationId" allocationId params in
  Params params.

(** AssociateAddress (ec2.go:2213-2230). *)
Definition AssociateAddress_params
    (options : option AssociateAddressOptions.t) : Built :=
  let params := makeParams "AssociateAddress" in
  match options with
  | None => Panics
  | Some options =>
  let params :=
    <["InstanceId" := AssociateAddressOptions.InstanceId options]> params in
  let params :=
    set_nonempty "PublicIp" (AssociateAddressOptions.PublicIp options)
      params in
  let params :=
    set_nonempty "AllocationId"
      (AssociateAddressOptions.AllocationId options) params in
  let params :=
    set_nonempty "NetworkInterfaceId"
      (AssociateAddressOptions.NetworkInterfaceId options) params in
  let params :=
    set_nonempty "PrivateIpAddress"
      (AssociateAddressOptions.PrivateIpAddress options) params in
  let params :=
    set_if (AssociateAddressOptions.AllowReassociation options)
      "AllowReassociation" "true" params in
  Params params
  end.

(** DisassociateAddress (ec2.go:2252-2259). *)
Definition DisassociateAddress_params (publicIp associationId : string)
    : Built :=
  let params := makeParams "DisassociateAddress" in
  let params := set_nonempty "PublicIp" publicIp params in
  let params := set_nonempty "AssociationId" associationId params in
  Params params.

(** *** The operations as one type *)

(** A call of one of the exported operations, with its arguments. *)
Inductive Operation :=
| OpRunInstances (options : option RunInstancesOptions.t)
| OpRequestSpotInstances (options : option RequestSpotInstances.t)
| OpDescribeSpotRequests (ids : list string) (filter : option Filter.t)
| OpCancelSpotRequests (ids : list string)
| OpTerminateInstances (instIds : list string)
| OpDescribeInstances (instIds : list string) (filter : option Filter.t)
| OpDescribeInstanceStatus
    (options : option DescribeInstanceStatusOptions.t)
    (filter : option Filter.t)
| OpCreateKeyPair (keyName : string)
| OpDeleteKeyPair (name : string)
| OpImportKeyPair (options : option ImportKeyPairOptions.t)
| OpCreateTags (resourceIds : list string) (tags : list Tag.t)
| OpStartInstances (ids : list string)
| OpStopInstances (ids : list string)
| OpRebootInstances (ids : list string)
| OpModifyInstance (instId : string) (options : option ModifyInstance.t)
| OpDescribeReservedInstances (instIds : list string)
    (filter : option Filter.t)
| OpCreateImage (options : option CreateImage.t)
| OpImages (ids : list string) (filter : option Filter.t)
| OpImagesByOwners (ids owners : list string) (filter : option Filter.t)
| OpImageAttribute (imageId attribute : string)
| OpModifyImageAttribute (imageId : string)
    (options : option ModifyImageAttribute.t)
| OpRegisterImage (options : option RegisterImage.t)
| OpDeregisterImage (imageId : string)
| OpCopyImage (options : option CopyImage.t)
| OpCreateSnapshot (volumeId description : string)
| OpDeleteSnapshots (ids : list string)
| OpSnapshots (ids : list string) (filter : option Filter.t)
| OpAttachVolume (volumeId instanceId device : string)
| OpCreateVolume (options : option CreateVolume.t)
| OpDeleteVolume (id : string)
| OpDetachVolume (id : string)
| OpVolumes (volIds : list string) (filter : option Filter.t)
| OpCreateSecurityGroup (group : SecurityGroup.t)
| OpSecurityGroups (groups : list SecurityGroup.t)
    (filter : option Filter.t)
| OpDeleteSecurityGroup (group : SecurityGroup.t)
| OpAuthorizeSecurityGroup (group : SecurityGroup.t) (perms : list IPPerm.t)
| OpRevokeSecurityGroup (group : SecurityGroup.t) (perms : list IPPerm.t)
| OpAuthorizeSecurityGroupEgress (group : SecurityGroup.t)
    (perms : list IPPerm.t)
| OpRevokeSecurityGroupEgress (group : SecurityGroup.t)
    (perms : list IPPerm.t)
| OpDescribeAddresses (publicIps allocationIds : list string)
    (filter : option Filter.t)
| OpAllocateAddress (options : option AllocateAddressOptions.t)
| OpReleaseAddress (publicIp allocationId : string)
| OpAssociateAddress (options : option AssociateAddressOptions.t)
| OpDisassociateAddress (publicIp associationId : string).

(** The part of an operation before its call of query. *)
Definition op_params (env : Env) (op : Operation) : Built :=
  match op with
  | OpRunInstances options => RunInstances_params env options
  | OpRequestSpotInstances options => RequestSpotInstances_params env options
  | OpDescribeSpotRequests ids filter =>
      DescribeSpotRequests_params env ids filter
  | OpCancelSpotRequests ids => CancelSpotRequests_params ids
  | OpTerminateInstances instIds => TerminateInstances_params instIds
  | OpDescribeInstances instIds filter =>
      DescribeInstances_params env instIds filter
  | OpDescribeInstanceStatus options filter =>
      DescribeInstanceStatus_params env options filter
  | OpCreateKeyPair keyName => CreateKeyPair_params keyName
  | OpDeleteKeyPair name => DeleteKeyPair_params name
  | OpImportKeyPair options => ImportKeyPair_params options
  | OpCreateTags resourceIds tags => CreateTags_params resourceIds tags
  | OpStartInstances ids => StartInstances_params ids
  | OpStopInstances ids => StopInstances_params ids
  | OpRebootInstances ids => RebootInstances_params ids
  | OpModifyInstance instId options =>
      ModifyInstance_params env instId options
  | OpDescribeReservedInstances instIds filter =>
      DescribeReservedInstances_params env instIds filter
  | OpCreateImage options => CreateImage_params options
  | OpImages ids filter => Images_params env ids filter
  | OpImagesByOwners ids owners filter =>
      ImagesByOwners_params env ids owners filter
  | OpImageAttribute imageId attribute =>
      ImageAttribute_params imageId attribute
  | OpModifyImageAttribute imageId options =>
      ModifyImageAttribute_params imageId options
  | OpRegisterImage options => RegisterImage_params options
  | OpDeregisterImage imageId => DeregisterImage_params imageId
  | OpCopyImage options => CopyImage_params options
  | OpCreateSnapshot volumeId description =>
      CreateSnapshot_params volumeId description
  | OpDeleteSnapshots ids => DeleteSnapshots_params ids
  | OpSnapshots ids filter => Snapshots_params env ids filter
  | OpAttachVolume volumeId instanceId device =>
      AttachVolume_params volumeId instanceId device
  | OpCreateVolume options => CreateVolume_params options
  | OpDeleteVolume id => DeleteVolume_params id
  | OpDetachVolume id => DetachVolume_params id
  | OpVolumes volIds filter => Volumes_params env volIds filter
  | OpCreateSecurityGroup group => CreateSecurityGroup_params group
  | OpSecurityGroups groups filter =>
      SecurityGroups_params env groups filter
  | OpDeleteSecurityGroup group => DeleteSecurityGroup_params group
  | OpAuthorizeSecurityGroup group perms =>
      AuthorizeSecurityGroup_params group perms
  | OpRevokeSecurityGroup group perms =>
      RevokeSecurityGroup_params group perms
  | OpAuthorizeSecurityGroupEgress group perms =>
      AuthorizeSecurityGroupEgress_params group perms
  | OpRevokeSecurityGroupEgress group perms =>
      RevokeSecurityGroupEgress_params group perms
  | OpDescribeAddresses publicIps allocationIds filter =>
      DescribeAddresses_params env publicIps allocationIds filter
  | OpAllocateAddress options => AllocateAddress_params options
  | OpReleaseAddress publicIp allocationId =>
      ReleaseAddress_params publicIp allocationId
  | OpAssociateAddress options => AssociateAddress_params options
  | OpDisassociateAddress publicIp associationId =>
      DisassociateAddress_params publicIp associationId
  end.

(** CreateKeyPair, DeleteKeyPair and ImportKeyPair return the response
    struct also when query fails (ec2.go:951-956, 966-968, 990-992); the
    others return nil then. *)
Definition keeps_resp (op : Operation) : bool :=
  match op with
  | OpCreateKeyPair _ | OpDeleteKeyPair _ | OpImportKeyPair _ => true
  | _ => false
  end.

(** A call of an operation: the part before query, then
    [resp = &T{}; err = ec2.query(params, resp)] and the return. What an
    operation does to the decoded response after query has returned
    (ec2.go:836-842, 954, 1896) makes no request and is left out: the
    response is of any type [R] with a decoder. *)
Definition perform {R : Type} `{!XmlTarget R} (env : Env) (ec2 : EC2)
    (zero : R) (op : Operation) : Outcome R :=
  match op_params env op with
  | Panics => Panic
  | Fails err => Return None (Some err) []
  | Params params =>
      let resp := zero in
      let r := query env ec2 params resp in
      match q_err r with
      | Some err =>
          Return (if keeps_resp op then Some (q_resp r) else None)
            (Some err) (q_gets r)
      | None => Return (Some (q_resp r)) None (q_gets r)
      end
  end.

(** *** Methods and helpers beside the operations *)

(** Error.Error (ec2.go:110); [fmt.Sprintf] of the two strings. *)
Definition Error_Error (err : Error.t) : string :=
  if bool_decide (Error.Code err = "") then Error.Message err
  else Error.Message err +:+ " (" +:+ Error.Code err +:+ ")".

(** SecurityGroup{Name: name} and SecurityGroup{Id: id}. *)
Definition group_named (name : string) : SecurityGroup.t :=
  {| SecurityGroup.Id := ""; SecurityGroup.Name := name;
     SecurityGroup.Description := ""; SecurityGroup.VpcId := "" |}.

Definition group_with_id (id : string) : SecurityGroup.t :=
  {| SecurityGroup.Id := id; SecurityGroup.Name := "";
     SecurityGroup.Description := ""; SecurityGroup.VpcId := "" |}.

(** SecurityGroupNames (ec2.go:1951): a slice of [len(names)] zero groups,
    written by index. *)
Definition SecurityGroupNames (names : list string) : list SecurityGroup.t :=
  let g := replicate (length names) (group_named "") in
  for_range names (λ i name g, <[i := group_named name]> g) g.

(** SecurityGroupIds (ec2.go:1961). *)
Definition SecurityGroupIds (ids : list string) : list SecurityGroup.t :=
  let g := replicate (length ids) (group_named "") in
  for_range ids (λ i id g, <[i := group_with_id id]> g) g.

End ec2.

(** ** package model: what the store tests use of it *)

Module model.

(** model.FileInfo: the fields the tests set or read. *)
Module FileInfo.
Record t := {
  Id : string;
  CreatorId : string;
  PostId : string;
  Path : string;
  DeleteAt : Z;
}.
End FileInfo.

(** model.AppError, by its message. *)
Definition AppError : Type := string.

End model.

(** ** package store: the tests of the FileInfo store *)

Module store.

(** The dynamic value in StoreResult.Data: a pointer to a model.FileInfo
    (possibly nil), a slice of such pointers, or a value of some other
    type. *)
Inductive Data :=
| FileInfoPtr (p : option model.FileInfo.t)
| FileInfoPtrs (l : list (option model.FileInfo.t))
| OtherData.

(** StoreResult. *)
Record StoreResult := { Data_ : Data; Err : option model.AppError }.

(** The FileInfoStore interface, over the state of the store. A call
    [<-store.FileInfo().Save(info)] sends the request and receives the
    result: one step of the state. *)
Class FileInfoStore (S : Type) := {
  Save : model.FileInfo.t → S → StoreResult * S;
  Get : string → S → StoreResult * S;
  GetByPath : string → S → StoreResult * S;
  GetForPost : string → S → StoreResult * S;
  AttachToPost : string → string → S → StoreResult * S;
  DeleteForPost : string → S → StoreResult * S;
}.

(** What the tests run against: a store, its state after Setup(), and the
    ids model.NewId() returns, by the number of the call. *)
Record TestEnv := {
  State : Type;
  impl : FileInfoStore State;
  Setup : State;
  NewId : nat → string;
}.
#[global] Existing Instance impl.

(** How a test ends. *)
Inductive TestResult :=
| Pass
| Fatal (msg : string)
| Panicked.

(** A test body: it runs on to a value, or ends the test. *)
Inductive Step (A : Type) :=
| Go (a : A)
| End_ (r : TestResult).
Arguments Go {A}.
Arguments End_ {A}.

Definition bind {A B : Type} (m : Step A) (k : A → Step B) : Step B :=
  match m with
  | Go a => k a
  | End_ r => End_ r
  end.

Notation "x <- m ;; k" := (bind m (λ x, k))
  (at level 100, m at next level, right associativity).

Definition run (m : Step unit) : TestResult :=
  match m with
  | Go _ => Pass
  | End_ r => r
  end.

(** [t.Fatal(...)] *)
Definition t_Fatal {A : Type} (msg : string) : Step A := End_ (Fatal msg).

(** Modelled from the spec: Must (store/store.go) is not among the
    sources. It receives the result of a store call and panics when the
    result carries an error; otherwise it yields the result's Data. *)
Definition Must (r : StoreResult) : Step Data :=
  match Err r with
  | Some _ => End_ Panicked
  | None => Go (Data_ r)
  end.

(** The type assertion of [d] to a pointer to model.FileInfo: it panics
    on a value of another type. *)
Definition as_FileInfo (d : Data) : Step (option model.FileInfo.t) :=
  match d with
  | FileInfoPtr p => Go p
  | _ => End_ Panicked
  end.

(** The type assertion of [d] to a slice of pointers to model.FileInfo. *)
Definition as_FileInfos (d : Data) : Step (list (option model.FileInfo.t)) :=
  match d with
  | FileInfoPtrs l => Go l
  | _ => End_ Panicked
  end.

(** Reading a field through a pointer: a nil pointer panics. *)
Definition deref (p : option model.FileInfo.t) : Step model.FileInfo.t :=
  match p with
  | Some info => Go info
  | None => End_ Panicked
  end.

Section tests.
Context (E : TestEnv).

(** TestFileInfoSaveGet (sql_file_info_store_test.go:13). The values
    behind the pointers are passed by value: the test reads a FileInfo
    right after the call that returned it. *)
Definition TestFileInfoSaveGet : TestResult :=
  let s := Setup E in
  let info :=
    {| model.FileInfo.Id := ""; model.FileInfo.CreatorId := NewId E 0;
       model.FileInfo.PostId := ""; model.FileInfo.Path := "file.txt";
       model.FileInfo.DeleteAt := 0 |} in
  run (
    let '(result, s) := Save info s in
    info <- match Err result with
            | Some err => t_Fatal err
            | None =>
                returned <- as_FileInfo (Data_ result) ;;
                returned <- deref returned ;;
                if bool_decide
                     (String.length (model.FileInfo.Id returned) = 0)
                then t_Fatal "should've assigned an id to FileInfo"
                else Go returned
            end ;;
    let '(result, s) := Get (model.FileInfo.Id info) s in
    _ <- match Err result with
         | Some err => t_Fatal err
         | None =>
             returned <- as_FileInfo (Data_ result) ;;
             returned <- deref returned ;;
             if bool_decide
                  (model.FileInfo.Id returned ≠ model.FileInfo.Id info)
             then t_Fatal "should've returned correct FileInfo"
             else Go tt
         end ;;
    let '(result, s) :=
      Save {| model.FileInfo.Id := "";
              model.FileInfo.CreatorId := NewId E 1;
              model.FileInfo.PostId := "";
              model.FileInfo.Path := "file.txt";
              model.FileInfo.DeleteAt := 123 |} s in
    info2 <- Must result ;;
    info2 <- as_FileInfo info2 ;;
    info2 <- deref info2 ;;
    let '(result, s) := Get (model.FileInfo.Id info2) s in
    if bool_decide (Err result = None)
    then t_Fatal "shouldn't have gotten deleted file"
    else Go tt).

(** [for i, info := range infos { infos[i] =
    Must(store.FileInfo().Save(info)) asserted to a FileInfo pointer }]
    (sql_file_info_store_test.go:198-200): the saved pointers and the
    state after the last Save. *)
Fixpoint save_all (infos : list model.FileInfo.t) (s : State E)
    : Step (list (option model.FileInfo.t) * State E) :=
  match infos with
  | [] => Go ([], s)
  | info :: infos =>
      let '(result, s) := Save info s in
      saved <- Must result ;;
      saved <- as_FileInfo saved ;;
      rest <- save_all infos s ;;
      Go (saved :: rest.1, rest.2)
  end.

(** The four records of TestFileInfoGetForPost and
    TestFileInfoDeleteForPost (sql_file_info_store_test.go:173-196). *)
Definition four_infos (userId postId otherPostId : string)
    : list model.FileInfo.t :=
  [ {| model.FileInfo.Id := ""; model.FileInfo.CreatorId := userId;
       model.FileInfo.PostId := postId;
       model.FileInfo.Path := "file.txt"; model.FileInfo.DeleteAt := 0 |};
    {| model.FileInfo.Id := ""; model.FileInfo.CreatorId := userId;
       model.FileInfo.PostId := postId;
       model.FileInfo.Path := "file.txt"; model.FileInfo.DeleteAt := 0 |};
    {| model.FileInfo.Id := ""; model.FileInfo.CreatorId := userId;
       model.FileInfo.PostId := postId;
       model.FileInfo.Path := "file.txt";
       model.FileInfo.DeleteAt := 123 |};
    {| model.FileInfo.Id := ""; model.FileInfo.CreatorId := userId;
       model.FileInfo.PostId := otherPostId;
       model.FileInfo.Path := "file.txt"; model.FileInfo.DeleteAt := 0 |} ].

(** TestFileInfoDeleteForPost (sql_file_info_store_test.go:167). *)
Definition TestFileInfoDeleteForPost : TestResult :=
  let s := Setup E in
  let userId := NewId E 0 in
  let postId := NewId E 1 in
  let infos := four_infos userId postId (NewId E 2) in
  run (
    saved <- save_all infos s ;;
    let '(infos, s) := saved in
    let '(result, s) := DeleteForPost postId s in
    _ <- match Err result with
         | Some err => t_Fatal err
         | None => Go tt
         end ;;
    let '(result, s) := GetForPost postId s in
    infos <- Must result ;;
    infos <- as_FileInfos infos ;;
    if bool_decide (length infos ≠ 0)
    then t_Fatal "shouldn't have returned any file infos"
    else Go tt).

(** TestFileInfoSaveGetByPath (sql_file_info_store_test.go:48). The
    fields of the literal are evaluated in order: the CreatorId is the
    first id, the path is made of the second. *)
Definition TestFileInfoSaveGetByPath : TestResult :=
  let s := Setup E in
  let info :=
    {| model.FileInfo.Id := ""; model.FileInfo.CreatorId := NewId E 0;
       model.FileInfo.PostId := "";
       model.FileInfo.Path := NewId E 1 +:+ "/file.txt";
       model.FileInfo.DeleteAt := 0 |} in
  run (
    let '(result, s) := Save info s in
    info <- match Err result with
            | Some err => t_Fatal err
            | None =>
                returned <- as_FileInfo (Data_ result) ;;
                returned <- deref returned ;;
                if bool_decide
                     (String.length (model.FileInfo.Id returned) = 0)
                then t_Fatal "should've assigned an id to FileInfo"
                else Go returned
            end ;;
    let '(result, s) := GetByPath (model.FileInfo.Path info) s in
    _ <- match Err result with
         | Some err => t_Fatal err
         | None =>
             returned <- as_FileInfo (Data_ result) ;;
             returned <- deref returned ;;
             if bool_decide
                  (model.FileInfo.Id returned ≠ model.FileInfo.Id info)
             then t_Fatal "should've returned correct FileInfo"
             else Go tt
         end ;;
    let '(result, s) :=
      Save {| model.FileInfo.Id := "";
              model.FileInfo.CreatorId := NewId E 2;
              model.FileInfo.PostId := "";
              model.FileInfo.Path := "file.txt";
              model.FileInfo.DeleteAt := 123 |} s in
    info2 <- Must result ;;
    info2 <- as_FileInfo info2 ;;
    info2 <- deref info2 ;;
    let '(result, s) := GetByPath (model.FileInfo.Id info2) s in
    if bool_decide (Err result = None)
    then t_Fatal "shouldn't have gotten deleted file"
    else Go tt).

(** TestFileInfoGetForPost (sql_file_info_store_test.go:83). *)
Definition TestFileInfoGetForPost : TestResult :=
  let s := Setup E in
  let userId := NewId E 0 in
  let postId := NewId E 1 in
  let infos := four_infos userId postId (NewId E 2) in
  run (
    saved <- save_all infos s ;;
    let '(infos, s) := saved in
    let '(result, s) := GetForPost postId s in
    match Err result with
    | Some err => t_Fatal err
    | None =>
        returned <- as_FileInfos (Data_ result) ;;
        if bool_decide (length returned ≠ 2)
        then t_Fatal "should've returned exactly 2 file infos"
        else Go tt
    end).

(** [Must(store.FileInfo().Save(info))] asserted to a FileInfo pointer
    (sql_file_info_store_test.go:130-133, 149-152). *)
Definition must_Save (info : model.FileInfo.t) (s : State E)
    : Step (option model.FileInfo.t * State E) :=
  let '(result, s) := Save info s in
  saved <- Must result ;;
  saved <- as_FileInfo saved ;;
  Go (saved, s).

(** [if result := <-AttachToPost(info.Id, postId); result.Err != nil {
    t.Fatal(result.Err) } else { info = Must(Get(info.Id)) asserted to a
    FileInfo pointer }] (sql_file_info_store_test.go:139-143, 154-158). *)
Definition attach_and_get (info : option model.FileInfo.t)
    (postId : string) (s : State E)
    : Step (option model.FileInfo.t * State E) :=
  info <- deref info ;;
  let '(result, s) := AttachToPost (model.FileInfo.Id info) postId s in
  match Err result with
  | Some err => t_Fatal err
  | None =>
      let '(result, s) := Get (model.FileInfo.Id info) s in
      got <- Must result ;;
      got <- as_FileInfo got ;;
      Go (got, s)
  end.

(** TestFileInfoAttachToPost (sql_file_info_store_test.go:124). *)
Definition TestFileInfoAttachToPost : TestResult :=
  let s := Setup E in
  let userId := NewId E 0 in
  let postId := NewId E 1 in
  let fresh :=
    {| model.FileInfo.Id := ""; model.FileInfo.CreatorId := userId;
       model.FileInfo.PostId := ""; model.FileInfo.Path := "file.txt";
       model.FileInfo.DeleteAt := 0 |} in
  run (
    saved <- must_Save fresh s ;;
    let '(info1, s) := saved in
    info1_ <- deref info1 ;;
    _ <- (if bool_decide (String.length (model.FileInfo.PostId info1_) ≠ 0)
          then t_Fatal "file shouldn't have a PostId"
          else Go tt) ;;
    got <- attach_and_get info1 postId s ;;
    let '(info1, s) := got in
    info1_ <- deref info1 ;;
    _ <- (if bool_decide (String.length (model.FileInfo.PostId info1_) = 0)
          then t_Fatal "file should now have a PostId"
          else Go tt) ;;
    saved <- must_Save fresh s ;;
    let '(info2, s) := saved in
    got <- attach_and_get info2 postId s ;;
    let '(info2, s) := got in
    let '(result, s) := GetForPost postId s in
    match Err result with
    | Some err => t_Fatal err
    | None =>
        infos <- as_FileInfos (Data_ result) ;;
        if bool_decide (length infos ≠ 2)
        then t_Fatal "should've returned exactly 2 file infos"
        else Go tt
    end).

End tests.

End store.

(** ** Sample environments

    Stand-ins for the libraries, used to run the model on concrete inputs:
    each agrees with the library it stands for on the inputs used below. *)

Module sample.
Import ec2.

(** url.Parse: a string that starts with a colon has no scheme before the
    colon and is rejected; an https URL without a path has the rest as Host
    and an empty Path; a string without a scheme is a path. *)
Definition url_Parse (s : string) : URL.t + error :=
  match s with
  | String ":" _ => inr (LibError "missing protocol scheme")
  | _ =>
      if String.prefix "https://" s
      then inl {| URL.Scheme := "https";
                  URL.Host := String.substring 8 (String.length s - 8) s;
                  URL.Path := ""; URL.RawQuery := "" |}
      else inl {| URL.Scheme := ""; URL.Host := ""; URL.Path := s;
                  URL.RawQuery := "" |}
  end.

Definition URL_String (u : URL.t) : string :=
  (if bool_decide (URL.Scheme u = "") then ""
   else URL.Scheme u +:+ "://" +:+ URL.Host u)
  +:+ URL.Path u +:+ "?" +:+ URL.RawQuery u.

(** sign (sign.go) adds the signature parameters. *)
Definition sign (auth : aws.Auth) (method path : string)
    (params : gmap string string) (host : string) : gmap string string :=
  <["Signature" := "c2ln"]>
    (<["SignatureMethod" := "HmacSHA256"]>
       (<["SignatureVersion" := "2"]>
          (<["AWSAccessKeyId" := aws.AccessKey auth]> params))).

(** An error body cut off after its first Error element: the decoder has
    stored that element when it meets the end of the input and reports a
    syntax error. Any other body here is not XML at all. *)
Definition truncated_body : string :=
  "<Response><Errors><Error><Code>AuthFailure</Code>"
  +:+ "<Message>denied</Message></Error></Errors>".

Definition xmlErrors_Decode : XmlTarget xmlErrors.t := λ body v,
  if bool_decide (body = truncated_body)
  then ({| xmlErrors.RequestId := xmlErrors.RequestId v;
           xmlErrors.Errors :=
             xmlErrors.Errors v
             ++ [{| Error.StatusCode := 0; Error.Code := "AuthFailure";
                    Error.Message := "denied"; Error.RequestId := "" |}] |},
        Some (LibError "XML syntax error on line 1: unexpected EOF"))
  else (v, Some (LibError "EOF")).

(** A server that answers every request with [r]. *)
Definition client (r : Response.t + error) : Client.t :=
  {| Client.Get := λ _, r |}.

Program Definition env (rand_err : option error) : Env :=
  {| Time := Z;
     timeNow := 1400000000%Z;
     Time_In_UTC := λ t, t;
     Time_Format := λ _ _, "2014-05-13T16:53:20Z";
     ec2.url_Parse := url_Parse;
     ec2.URL_String := URL_String;
     Values_Encode := λ q, "";
     ec2.sign := sign;
     ec2.xmlErrors_Decode := xmlErrors_Decode;
     b64_Encode := λ _, "";
     rand_Read := λ buf, (buf, rand_err);
     map_range := λ m, (map_to_list m).*1;
     aws_RetryingClient := client (inr (LibError "connection refused")) |}.
Next Obligation. done. Qed.
Next Obligation. done. Qed.

Definition auth : aws.Auth :=
  {| aws.AccessKey := "AKIDEXAMPLE"; aws.SecretKey := "secret" |}.

(** A region whose endpoint does not parse, and one whose endpoint does. *)
Definition bad_region : aws.Region :=
  {| aws.Name := "broken"; aws.EC2Endpoint := ":" |}.
Definition region : aws.Region :=
  {| aws.Name := "us-east-1";
     aws.EC2Endpoint := "https://ec2.us-east-1.amazonaws.com" |}.

(** Options for RunInstances: no counts, two groups given by Id and one by
    Name between them. *)
Definition group (id name : string) : SecurityGroup.t :=
  {| SecurityGroup.Id := id; SecurityGroup.Name := name;
     SecurityGroup.Description := ""; SecurityGroup.VpcId := "" |}.

Definition options (subnet : string) (public : bool)
    : RunInstancesOptions.t :=
  {| RunInstancesOptions.ImageId := "ami-1";
     RunInstancesOptions.MinCount := 0;
     RunInstancesOptions.MaxCount := 0;
     RunInstancesOptions.KeyName := "";
     RunInstancesOptions.InstanceType := "m1.small";
     RunInstancesOptions.SecurityGroups :=
       [group "sg-1" ""; group "" "web"; group "sg-2" "db"];
     RunInstancesOptions.KernelId := "";
     RunInstancesOptions.RamdiskId := "";
     RunInstancesOptions.UserData := None;
     RunInstancesOptions.AvailabilityZone := "";
     RunInstancesOptions.PlacementGroupName := "";
     RunInstancesOptions.Tenancy := "";
     RunInstancesOptions.Monitoring := false;
     RunInstancesOptions.SubnetId := subnet;
     RunInstancesOptions.DisableAPITermination := false;
     RunInstancesOptions.ShutdownBehavior := "";
     RunInstancesOptions.PrivateIPAddress := "";
     RunInstancesOptions.IamInstanceProfile :=
       {| IamInstanceProfile.ARN := ""; IamInstanceProfile.Id := "";
          IamInstanceProfile.Name := "" |};
     RunInstancesOptions.BlockDevices := [];
     RunInstancesOptions.EbsOptimized := false;
     RunInstancesOptions.AssociatePublicIpAddress := public |}.

(** A response struct: the request id of a SimpleResp, decoded by taking
    the whole body. *)
Global Instance string_Decode : XmlTarget string := λ body _, (body, None).

(** An in-memory FileInfo store: Save gives the record the next free Id;
    the getters skip the records marked deleted; DeleteForPost marks those
    of the post. *)
Module mem.
Import store.

Record state := { files : list model.FileInfo.t; next : nat }.

Definition ok (d : Data) : StoreResult := {| Data_ := d; Err := None |}.

Definition live (info : model.FileInfo.t) : Prop :=
  model.FileInfo.DeleteAt info = 0%Z.

Definition with_DeleteAt (at_ : Z) (info : model.FileInfo.t)
    : model.FileInfo.t :=
  {| model.FileInfo.Id := model.FileInfo.Id info;
     model.FileInfo.CreatorId := model.FileInfo.CreatorId info;
     model.FileInfo.PostId := model.FileInfo.PostId info;
     model.FileInfo.Path := model.FileInfo.Path info;
     model.FileInfo.DeleteAt := at_ |}.

Definition with_PostId (postId : string) (info : model.FileInfo.t)
    : model.FileInfo.t :=
  {| model.FileInfo.Id := model.FileInfo.Id info;
     model.FileInfo.CreatorId := model.FileInfo.CreatorId info;
     model.FileInfo.PostId := postId;
     model.FileInfo.Path := model.FileInfo.Path info;
     model.FileInfo.DeleteAt := model.FileInfo.DeleteAt info |}.

Definition find (P : model.FileInfo.t → Prop) `{∀ x, Decision (P x)}
    (st : state) : StoreResult * state :=
  match filter P (files st) with
  | info :: _ => (ok (FileInfoPtr (Some info)), st)
  | [] => ({| Data_ := OtherData; Err := Some "not found" |}, st)
  end.

Global Instance mem_store (keep_deleted : bool) : FileInfoStore state := {|
  Save info st :=
    let info :=
      {| model.FileInfo.Id := "file" +:+ Itoa (Z.of_nat (next st));
         model.FileInfo.CreatorId := model.FileInfo.CreatorId info;
         model.FileInfo.PostId := model.FileInfo.PostId info;
         model.FileInfo.Path := model.FileInfo.Path info;
         model.FileInfo.DeleteAt := model.FileInfo.DeleteAt info |} in
    (ok (FileInfoPtr (Some info)),
     {| files := files st ++ [info]; next := S (next st) |});
  Get id st :=
    find (λ info, model.FileInfo.Id info = id
                  ∧ (keep_deleted = true ∨ live info)) st;
  GetByPath path st :=
    find (λ info, model.FileInfo.Path info = path ∧ live info) st;
  GetForPost postId st :=
    (ok (FileInfoPtrs
           (Some <$> filter (λ info, model.FileInfo.PostId info = postId
                                     ∧ live info) (files st))), st);
  AttachToPost id postId st :=
    (ok OtherData,
     {| files :=
          (λ info, if bool_decide (model.FileInfo.Id info = id)
                   then with_PostId postId info else info) <$> files st;
        next := next st |});
  DeleteForPost postId st :=
    (ok OtherData,
     {| files :=
          (λ info, if bool_decide (model.FileInfo.PostId info = postId)
                   then with_DeleteAt 1 info else info) <$> files st;
        next := next st |})
|}.

(** The store as it should be, and one whose Get forgets to skip the
    deleted records. *)
Definition test_env (keep_deleted : bool) : TestEnv :=
  {| State := state; impl := mem_store keep_deleted;
     Setup := {| files := []; next := 1 |};
     NewId := λ n, "id" +:+ Itoa (Z.of_nat n) |}.

End mem.

End sample.

(** ** Vocabulary of the statements *)

(** The sub-keys addBlockDeviceParams can emit under a device's prefix. *)
Definition bd_subkeys : list string :=
  ["DeviceName"; "VirtualName"; "Ebs.SnapshotId"; "Ebs.VolumeType";
   "Ebs.Iops"; "Ebs.VolumeSize"; "Ebs.DeleteOnTermination"; "NoDevice"].

(** The security groups that carry an Id, and the names of those that do
    not, each in the order given. *)
Definition group_ids (groups : list ec2.SecurityGroup.t) : list string :=
  ec2.SecurityGroup.Id
    <$> filter (λ g, ec2.SecurityGroup.Id g ≠ "") groups.

Definition group_names (groups : list ec2.SecurityGroup.t) : list string :=
  ec2.SecurityGroup.Name
    <$> filter (λ g, ec2.SecurityGroup.Id g = "") groups.

(** The records [infos] are saved one after the other from state [s], each
    Save returning a FileInfo pointer without error, and the store is left
    in state [s']. *)
Fixpoint saved_in_turn (E : store.TestEnv) (infos : list model.FileInfo.t)
    (s s' : store.State E) : Prop :=
  match infos with
  | [] => s' = s
  | info :: infos =>
      ∃ r s1 p,
        store.Save info s = (r, s1) ∧ store.Err r = None
        ∧ store.Data_ r = store.FileInfoPtr p
        ∧ saved_in_turn E infos s1 s'
  end.

(** The filter a sequence of Add calls builds from a new filter. *)
Definition filter_of_adds (calls : list (string * list string))
    : ec2.Filter.t :=
  foldl (λ f call, ec2.Filter_Add f call.1 call.2) ec2.NewFilter calls.



(** What a conditional assignment leaves under a key nothing else writes:
    [if v != "" { params[k] = v }] and [if c { params[k] = v }]. *)
Definition if_nonempty (v : string) : option string :=
  if bool_decide (v ≠ "") then Some v else None.

Definition if_set (c : bool) (v : string) : option string :=
  if c then Some v else None.

(** The map handed to query holds the action and the ids under
    label.1, label.2, ... and nothing else. *)
Definition sends_only_ids (b : ec2.Built) (action label : string)
    (ids : list string) : Prop :=
  ∃ p, b = ec2.Params p
    ∧ ∀ key v,
        p !! key = Some v ↔
          (key = "Action" ∧ v = action)
          ∨ ∃ i : nat,
              ids !! i = Some v
              ∧ key = label +:+ "." +:+ Itoa (Z.of_nat i + 1).

(** The map handed to query holds the action, each list of [lists] under
    its label (label.1, label.2, ...), and under Filter. what addParams
    emits for the filter. *)
Definition describes (env : ec2.Env) (b : ec2.Built) (action : string)
    (lists : list (string * list string)) (filter : option ec2.Filter.t)
    : Prop :=
  ∃ p, b = ec2.Params p
    ∧ p !! "Action" = Some action
    ∧ Forall (λ l, ∀ i : nat,
                p !! (l.1 +:+ "." +:+ Itoa (Z.of_nat i + 1)) = l.2 !! i)
        lists
    ∧ ∀ s, p !! ("Filter." +:+ s)
           = ec2.Filter_addParams env filter ∅ !! ("Filter." +:+ s).

(** The map handed to query names the group by GroupId when the group has
    an Id, and by GroupName otherwise; never by both. *)
Definition selects_group (b : ec2.Built) (group : ec2.SecurityGroup.t)
    : Prop :=
  ∃ p, b = ec2.Params p
    ∧ p !! "GroupId" = if_nonempty (ec2.SecurityGroup.Id group)
    ∧ p !! "GroupName"
      = if bool_decide (ec2.SecurityGroup.Id group ≠ "") then None
        else Some (ec2.SecurityGroup.Name group).

(** The operations that take their options by pointer, called with nil. *)
Definition nil_options (op : ec2.Operation) : bool :=
  match op with
  | ec2.OpRunInstances None | ec2.OpRequestSpotInstances None
  | ec2.OpDescribeInstanceStatus None _ | ec2.OpImportKeyPair None
  | ec2.OpModifyInstance _ None | ec2.OpCreateImage None
  | ec2.OpModifyImageAttribute _ None | ec2.OpRegisterImage None
  | ec2.OpCopyImage None | ec2.OpCreateVolume None
  | ec2.OpAllocateAddress None | ec2.OpAssociateAddress None => true
  | _ => false
  end.

(** The values given to [name] by a sequence of Add calls, in call order. *)
Definition added_values (name : string) (calls : list (string * list string))
    : list string :=
  concat (snd <$> filter (λ call, call.1 = name) calls).

(** Every byte of [s] is one of 0-9, a-f. *)
Fixpoint hexadecimal (s : string) : Prop :=
  match s with
  | EmptyString => True
  | String c s => c ∈ String.list_ascii_of_string hex.hextable ∧ hexadecimal s
  end.

(** The value of a hexadecimal digit: its index in [hextable]. *)
Fixpoint hex_index (c : ascii) (table : string) : N :=
  match table with
  | EmptyString => 0
  | String d table => if Ascii.eqb c d then 0 else N.succ (hex_index c table)
  end.

Definition hex_value (c : ascii) : N := hex_index c hex.hextable.

(** * Proofs *)

(** ** Strings *)

Section strings.

Lemma app_cons a s t : String a s +:+ t = String a (s +:+ t).
Proof. reflexivity. Qed.

Lemma app_nil_l t : "" +:+ t = t.
Proof. reflexivity. Qed.

Lemma app_assoc' s t u : (s +:+ t) +:+ u = s +:+ (t +:+ u).
Proof. induction s as [|a s IH]; [done|]. by rewrite !app_cons, IH. Qed.

Lemma lacks_app b s t : lacks b (s +:+ t) ↔ lacks b s ∧ lacks b t.
Proof.
  induction s as [|a s IH]; rewrite ?app_cons, ?app_nil_l; simpl;
    [tauto | rewrite IH; tauto].
Qed.

(** A string is cut at the first occurrence of a byte in one way only. *)
Lemma cut_at_first b s1 t1 s2 t2 :
  lacks b s1 → lacks b s2 →
  s1 +:+ String b t1 = s2 +:+ String b t2 → s1 = s2 ∧ t1 = t2.
Proof.
  revert s2. induction s1 as [|a s1 IH]; intros [|a2 s2]; simpl;
    rewrite ?app_cons, ?app_nil_l.
  - by intros _ _ [= ->].
  - intros _ [? _] [= <- _]. done.
  - intros [? _] _ [= -> _]. done.
  - intros [_ H1] [_ H2] [= -> Heq]. by destruct (IH _ H1 H2 Heq) as [-> ->].
Qed.

Lemma pretty_N_go_lacks b x s :
  (∀ d, pretty_N_char d ≠ b) → lacks b s → lacks b (pretty_N_go x s).
Proof.
  intros Hb. revert s.
  induction (N.lt_wf_0 x) as [x _ IH]; intros s Hs.
  destruct (decide (x = 0)%N) as [->|].
  - by rewrite pretty_N_go_0.
  - rewrite pretty_N_go_step by lia. apply IH.
    + apply N.div_lt; lia.
    + simpl. split; [apply Hb | done].
Qed.

Lemma pretty_N_char_nodot d : pretty_N_char d ≠ "."%char.
Proof. unfold pretty_N_char. by repeat case_match. Qed.

Lemma pretty_N_nodot (x : N) : nodot (pretty x).
Proof.
  unfold pretty, pretty_N. case_decide; [by compute|].
  apply pretty_N_go_lacks; [apply pretty_N_char_nodot | done].
Qed.

Lemma Itoa_nodot n : nodot (Itoa n).
Proof.
  unfold Itoa, pretty, pretty_Z. destruct n as [|p|p].
  - by compute.
  - apply pretty_N_nodot.
  - apply lacks_app. split; [by compute | apply pretty_N_nodot].
Qed.

Global Instance Itoa_inj : Inj (=) (=) Itoa.
Proof. unfold Itoa. apply _. Qed.

End strings.

(** ** Parameter maps and loops *)

Section params.
Implicit Types (params p : gmap string string) (k key : string).

Lemma lookup_insert_if (c : bool) k v p key :
  (if c then <[k:=v]> p else p) !! key
  = if c then (if decide (k = key) then Some v else p !! key) else p !! key.
Proof. destruct c; [apply lookup_insert | done]. Qed.

Lemma lookup_insert_if_ne (c : bool) k v p key :
  k ≠ key → (if c then <[k:=v]> p else p) !! key = p !! key.
Proof. intros. destruct c; [by apply lookup_insert_ne | done]. Qed.

Lemma for_range_from_snoc {A St} i (xs : list A) x
    (body : nat → A → St → St) s :
  for_range_from i (xs ++ [x]) body s
  = body (i + length xs) x (for_range_from i xs body s).
Proof.
  revert i s. induction xs as [|y xs IH]; intros i s; simpl.
  - by rewrite Nat.add_0_r.
  - rewrite IH. by rewrite Nat.add_succ_comm.
Qed.

(** A loop whose body leaves [key] alone leaves [key] alone. *)
Lemma for_range_from_keep {A} (i : nat) (xs : list A)
    (body : nat → A → gmap string string → gmap string string) p key :
  (∀ j x q, i ≤ j < i + length xs → body j x q !! key = q !! key) →
  for_range_from i xs body p !! key = p !! key.
Proof.
  revert i p. induction xs as [|y xs IH]; intros i p Hbody; simpl; [done|].
  rewrite IH.
  - apply Hbody. simpl. lia.
  - intros j x q Hj. apply Hbody. simpl. lia.
Qed.

Lemma for_range_keep {A} (xs : list A)
    (body : nat → A → gmap string string → gmap string string) p key :
  (∀ j x q, j < length xs → body j x q !! key = q !! key) →
  for_range xs body p !! key = p !! key.
Proof.
  intros Hbody. apply for_range_from_keep. intros j x q Hj.
  apply Hbody. lia.
Qed.

Lemma for_range_from_keep_lookup {A} (i : nat) (xs : list A)
    (body : nat → A → gmap string string → gmap string string) p key :
  (∀ (j : nat) x q, xs !! j = Some x →
     body (i + j) x q !! key = q !! key) →
  for_range_from i xs body p !! key = p !! key.
Proof.
  revert i p. induction xs as [|y xs IH]; intros i p Hbody; simpl; [done|].
  rewrite IH.
  - specialize (Hbody 0 y p). rewrite Nat.add_0_r in Hbody. by apply Hbody.
  - intros j x q Hx. replace (S i + j) with (i + S j) by lia.
    by apply Hbody.
Qed.

Lemma for_range_keep_lookup {A} (xs : list A)
    (body : nat → A → gmap string string → gmap string string) p key :
  (∀ (j : nat) x q, xs !! j = Some x → body j x q !! key = q !! key) →
  for_range xs body p !! key = p !! key.
Proof. intros Hbody. by apply for_range_from_keep_lookup. Qed.

(** When iteration [j] is the only one to touch [key], the loop leaves at
    [key] what iteration [j] puts there. *)
Lemma for_range_from_at {A} (i : nat) (xs : list A)
    (body : nat → A → gmap string string → gmap string string) p (j : nat)
    (x : A) key :
  (∀ i' y q, i' ≠ j → body i' y q !! key = q !! key) →
  (i ≤ j)%nat → xs !! (j - i) = Some x →
  ∃ q, for_range_from i xs body p !! key = body j x q !! key
       ∧ q !! key = p !! key.
Proof.
  intros Hother. revert i p.
  induction xs as [|y xs IH]; intros i p Hij Hx; [done|]. simpl.
  destruct (decide (i = j)) as [->|Hne].
  - rewrite Nat.sub_diag in Hx. injection Hx as ->.
    exists p. split; [|done].
    apply for_range_from_keep. intros i' y q Hi'. apply Hother. lia.
  - destruct (IH (S i) (body i y p)) as (q & Hq & Hqp); [lia|..].
    { replace (j - i) with (S (j - S i)) in Hx by lia. done. }
    exists q. split; [done|]. rewrite Hqp. by apply Hother.
Qed.

Lemma for_range_at {A} (xs : list A)
    (body : nat → A → gmap string string → gmap string string) p (j : nat)
    (x : A) key :
  (∀ i' y q, i' ≠ j → body i' y q !! key = q !! key) →
  xs !! j = Some x →
  ∃ q, for_range xs body p !! key = body j x q !! key ∧ q !! key = p !! key.
Proof.
  intros Hother Hx. apply for_range_from_at; [done|lia|].
  by rewrite Nat.sub_0_r.
Qed.

End params.

(** ** Indexed lists and block devices *)

Section lists.
Import ec2 ec2.BlockDeviceMapping.
Implicit Types (params p : gmap string string) (k key label : string).

Lemma index_key_inj label (i j : nat) :
  label +:+ "." +:+ Itoa (Z.of_nat i + 1)
  = label +:+ "." +:+ Itoa (Z.of_nat j + 1) → i = j.
Proof.
  intros Heq. apply (inj (String.app label)) in Heq.
  apply (inj (String.app ".")) in Heq. apply (inj Itoa) in Heq. lia.
Qed.

Lemma addParamsList_lookup params label ids (i : nat) id :
  ids !! i = Some id →
  addParamsList params label ids !! (label +:+ "." +:+ Itoa (Z.of_nat i + 1))
  = Some id.
Proof.
  intros Hi. unfold addParamsList.
  edestruct (for_range_at ids) as (q & -> & _); [|exact Hi|].
  - intros i' y q Hne. apply lookup_insert_ne.
    intros Heq. by apply index_key_inj in Heq.
  - apply lookup_insert_eq.
Qed.

Lemma addParamsList_other params label ids key :
  (∀ i : nat, i < length ids → key ≠ label +:+ "." +:+ Itoa (Z.of_nat i + 1)) →
  addParamsList params label ids !! key = params !! key.
Proof.
  intros Hkey. apply for_range_keep. intros j x q Hj.
  apply lookup_insert_ne. intros Heq. by apply (Hkey j).
Qed.

Lemma bd_key_inj prename (i j : nat) sub sub' :
  bd_prefix prename i +:+ sub = bd_prefix prename j +:+ sub' →
  i = j ∧ sub = sub'.
Proof.
  unfold bd_prefix. rewrite !app_assoc'. intros Heq.
  apply (inj (String.app prename)) in Heq.
  apply (inj (String.app "BlockDeviceMapping.")) in Heq.
  apply cut_at_first in Heq as [Hi ->]; [|apply Itoa_nodot..].
  apply (inj Itoa) in Hi. split; [lia | done].
Qed.

Lemma addBlockDevice_other prename (i : nat) bd p key :
  (∀ sub, key ≠ bd_prefix prename i +:+ sub) →
  addBlockDevice prename i bd p !! key = p !! key.
Proof.
  intros Hkey. unfold addBlockDevice. cbv zeta.
  by rewrite !lookup_insert_if_ne.
Qed.

Lemma addBlockDevice_other_sub prename (i : nat) bd p key :
  (∀ sub, sub ∈ bd_subkeys → key ≠ bd_prefix prename i +:+ sub) →
  addBlockDevice prename i bd p !! key = p !! key.
Proof.
  intros Hkey. unfold addBlockDevice. cbv zeta.
  rewrite !lookup_insert_if_ne; [done|..];
    (intros Heq; eapply Hkey; [|by symmetry]; unfold bd_subkeys; set_solver).
Qed.

Ltac bd_sub :=
  unfold addBlockDevice; cbv zeta;
  repeat first
    [ rewrite lookup_insert_if_ne
        by (let H := fresh in
            intros H; apply (inj (String.app _)) in H; discriminate)
    | rewrite lookup_insert_if, decide_True by done ];
  reflexivity.

(** What one iteration leaves at each of its eight keys. *)
Lemma addBlockDevice_own prename (i : nat) bd q :
  let prefix := bd_prefix prename i in
  let out := addBlockDevice prename i bd q in
  out !! (prefix +:+ "DeviceName")
    = (if bool_decide (DeviceName bd ≠ "") then Some (DeviceName bd)
       else q !! (prefix +:+ "DeviceName"))
  ∧ out !! (prefix +:+ "VirtualName")
    = (if bool_decide (VirtualName bd ≠ "") then Some (VirtualName bd)
       else q !! (prefix +:+ "VirtualName"))
  ∧ out !! (prefix +:+ "Ebs.SnapshotId")
    = (if bool_decide (SnapshotId bd ≠ "") then Some (SnapshotId bd)
       else q !! (prefix +:+ "Ebs.SnapshotId"))
  ∧ out !! (prefix +:+ "Ebs.VolumeType")
    = (if bool_decide (VolumeType bd ≠ "") then Some (VolumeType bd)
       else q !! (prefix +:+ "Ebs.VolumeType"))
  ∧ out !! (prefix +:+ "Ebs.Iops")
    = (if bool_decide (IOPS bd ≠ 0%Z) then Some (Itoa (IOPS bd))
       else q !! (prefix +:+ "Ebs.Iops"))
  ∧ out !! (prefix +:+ "Ebs.VolumeSize")
    = (if bool_decide (VolumeSize bd ≠ 0%Z) then Some (Itoa (VolumeSize bd))
       else q !! (prefix +:+ "Ebs.VolumeSize"))
  ∧ out !! (prefix +:+ "Ebs.DeleteOnTermination")
    = (if DeleteOnTermination bd then Some "true"
       else q !! (prefix +:+ "Ebs.DeleteOnTermination"))
  ∧ out !! (prefix +:+ "NoDevice")
    = (if NoDevice bd then Some "true"
       else q !! (prefix +:+ "NoDevice")).
Proof. intros prefix out. subst out. repeat split; bd_sub. Qed.

Lemma addBlockDeviceParams_at prename params bds (i : nat) bd sub :
  bds !! i = Some bd →
  ∃ q, addBlockDeviceParams prename params bds
         !! (bd_prefix prename i +:+ sub)
       = addBlockDevice prename i bd q !! (bd_prefix prename i +:+ sub)
     ∧ q !! (bd_prefix prename i +:+ sub)
       = params !! (bd_prefix prename i +:+ sub).
Proof.
  intros Hi. apply for_range_at; [|done].
  intros i' y q Hne. apply addBlockDevice_other.
  intros sub' Heq. by apply bd_key_inj in Heq as [? _].
Qed.


(** C4. For every label and list of ids, addParamsList sets the key
    label.(i+1) to ids[i] for each index i of the list (1-based, in list
    order) and leaves every other key as it was. addBlockDeviceParams puts
    block device i under prename+"BlockDeviceMapping."+(i+1)+"." (1-based):
    each of the eight sub-keys is set when its field is non-zero and keeps
    its former binding otherwise, and no other key is touched. *)
Theorem C4_indexed_flattening :
  (∀ (params : gmap string string) (label : string) (ids : list string),
     let out := addParamsList params label ids in
     (∀ (i : nat) id, ids !! i = Some id →
        out !! (label +:+ "." +:+ Itoa (Z.of_nat i + 1)) = Some id)
     ∧ (∀ key : string,
          (∀ i : nat, i < length ids →
             key ≠ label +:+ "." +:+ Itoa (Z.of_nat i + 1)) →
          out !! key = params !! key))
  ∧ (∀ (prename : string) (params : gmap string string)
       (bds : list BlockDeviceMapping.t),
     let out := addBlockDeviceParams prename params bds in
     let prefix (i : nat) :=
       prename +:+ "BlockDeviceMapping." +:+ Itoa (Z.of_nat i + 1) +:+ "." in
     (∀ (i : nat) bd, bds !! i = Some bd →
        let emitted (c : bool) (sub v : string) :=
          out !! (prefix i +:+ sub)
          = if c then Some v else params !! (prefix i +:+ sub) in
        emitted (bool_decide (DeviceName bd ≠ "")) "DeviceName" (DeviceName bd)
        ∧ emitted (bool_decide (VirtualName bd ≠ "")) "VirtualName"
            (VirtualName bd)
        ∧ emitted (bool_decide (SnapshotId bd ≠ "")) "Ebs.SnapshotId"
            (SnapshotId bd)
        ∧ emitted (bool_decide (VolumeType bd ≠ "")) "Ebs.VolumeType"
            (VolumeType bd)
        ∧ emitted (bool_decide (IOPS bd ≠ 0%Z)) "Ebs.Iops" (Itoa (IOPS bd))
        ∧ emitted (bool_decide (VolumeSize bd ≠ 0%Z)) "Ebs.VolumeSize"
            (Itoa (VolumeSize bd))
        ∧ emitted (DeleteOnTermination bd) "Ebs.DeleteOnTermination" "true"
        ∧ emitted (NoDevice bd) "NoDevice" "true")
     ∧ (∀ key : string,
          (∀ (i : nat) sub, i < length bds → sub ∈ bd_subkeys →
             key ≠ prefix i +:+ sub) →
          out !! key = params !! key)).
Proof.
  split.
  - intros params label ids out. split.
    + intros i id Hi. by apply addParamsList_lookup.
    + intros key Hkey. by apply addParamsList_other.
  - intros prename params bds out prefix. split.
    + intros i bd Hi emitted. subst emitted out. cbv beta.
      change (prefix i) with (bd_prefix prename i).
      pose proof (addBlockDevice_own prename i bd) as Hown. cbv zeta in Hown.
      repeat split;
        (edestruct (addBlockDeviceParams_at prename params bds i bd) as
           (q & -> & <-); [done|]; apply Hown).
    + intros key Hkey. apply for_range_keep. intros j bd q Hj.
      apply addBlockDevice_other_sub. intros sub Hsub. by apply Hkey.
Qed.

End lists.

Example addParamsList_two :
  ec2.addParamsList (ec2.makeParams "StartInstances") "InstanceId"
    ["i-1"; "i-2"]
  = <["InstanceId.2" := "i-2"]> (<["InstanceId.1" := "i-1"]>
      (<["Action" := "StartInstances"]> ∅)).
Proof. vm_compute. reflexivity. Qed.

(** ** Lookups through the builders' idioms *)

Section idioms.
Import ec2.
Local Arguments Z.of_nat : simpl never.
Implicit Types (params p : gmap string string) (k key label : string).

Lemma lookup_set_ne k v p key : k ≠ key → <[k:=v]> p !! key = p !! key.
Proof. apply lookup_insert_ne. Qed.

Lemma lookup_set_if_ne c k v p key :
  k ≠ key → set_if c k v p !! key = p !! key.
Proof. apply lookup_insert_if_ne. Qed.

Lemma lookup_set_nonempty_ne k v p key :
  k ≠ key → set_nonempty k v p !! key = p !! key.
Proof. apply lookup_set_if_ne. Qed.

Lemma lookup_set_b64_ne env k data p key :
  k ≠ key → set_b64 env k data p !! key = p !! key.
Proof. intros. destruct data; [by apply lookup_insert_ne | done]. Qed.

Lemma addParamsList_keep params label ids key :
  (∀ s, key ≠ label +:+ "." +:+ s) →
  addParamsList params label ids !! key = params !! key.
Proof. intros Hkey. apply addParamsList_other. intros i _. apply Hkey. Qed.

Lemma addBlockDeviceParams_keep prename params bds key :
  (∀ s, key ≠ prename +:+ "BlockDeviceMapping." +:+ s) →
  addBlockDeviceParams prename params bds !! key = params !! key.
Proof.
  intros Hkey. apply for_range_keep. intros j bd q _.
  apply addBlockDevice_other. intros sub. unfold bd_prefix.
  rewrite !app_assoc'. apply Hkey.
Qed.

Lemma addGroupIds_keep label (i : nat) groups p key :
  (∀ n : nat, i ≤ n → key ≠ label +:+ Itoa (Z.of_nat n)) →
  addGroupIds label i groups p !! key = p !! key.
Proof.
  revert i p. induction groups as [|g groups IH]; intros i p Hkey; [done|].
  simpl. case_bool_decide.
  - rewrite IH by (intros n ?; apply Hkey; lia).
    apply lookup_insert_ne. intros Heq. by apply (Hkey i).
  - by apply IH.
Qed.

Lemma addGroupIds_lookup label (i n : nat) groups p :
  addGroupIds label i groups p !! (label +:+ Itoa (Z.of_nat (i + n)))
  = match group_ids groups !! n with
    | Some id => Some id
    | None => p !! (label +:+ Itoa (Z.of_nat (i + n)))
    end.
Proof.
  revert i n p. induction groups as [|g groups IH]; intros i n p; [done|].
  simpl. unfold group_ids. rewrite filter_cons. case_bool_decide as Hid.
  - rewrite decide_True by done. rewrite fmap_cons. destruct n as [|n].
    + rewrite addGroupIds_keep.
      * rewrite Nat.add_0_r. apply lookup_insert_eq.
      * intros m Hm Heq. apply (inj (String.app label)), (inj Itoa) in Heq.
        lia.
    + replace (i + S n) with (S i + n) by lia. rewrite IH. simpl.
      fold (group_ids groups). destruct (group_ids groups !! n); [done|].
      apply lookup_insert_ne. intros Heq.
      apply (inj (String.app label)), (inj Itoa) in Heq. lia.
  - rewrite decide_False by naive_solver. apply IH.
Qed.

Lemma addGroups_keep idLabel nameLabel (i j : nat) groups p key :
  (∀ n : nat, i ≤ n → key ≠ idLabel +:+ Itoa (Z.of_nat n)) →
  (∀ n : nat, j ≤ n → key ≠ nameLabel +:+ Itoa (Z.of_nat n)) →
  addGroups idLabel nameLabel i j groups p !! key = p !! key.
Proof.
  revert i j p. induction groups as [|g groups IH]; intros i j p Hi Hj;
    [done|].
  simpl. case_bool_decide.
  - rewrite IH; [|intros n ?; apply Hi; lia|done].
    apply lookup_insert_ne. intros Heq. by apply (Hi i).
  - rewrite IH; [|done|intros n ?; apply Hj; lia].
    apply lookup_insert_ne. intros Heq. by apply (Hj j).
Qed.

Lemma addGroups_lookup_id idLabel nameLabel (i j n : nat) groups p :
  (∀ s t, idLabel +:+ s ≠ nameLabel +:+ t) →
  addGroups idLabel nameLabel i j groups p
    !! (idLabel +:+ Itoa (Z.of_nat (i + n)))
  = match group_ids groups !! n with
    | Some id => Some id
    | None => p !! (idLabel +:+ Itoa (Z.of_nat (i + n)))
    end.
Proof.
  intros Hdisj. revert i j n p.
  induction groups as [|g groups IH]; intros i j n p; [done|].
  simpl. unfold group_ids. rewrite filter_cons. case_bool_decide as Hid.
  - rewrite decide_True by done. rewrite fmap_cons. destruct n as [|n].
    + rewrite addGroups_keep.
      * rewrite Nat.add_0_r. apply lookup_insert_eq.
      * intros m Hm Heq.
        apply (inj (String.app idLabel)), (inj Itoa) in Heq. lia.
      * intros m _. apply Hdisj.
    + replace (i + S n) with (S i + n) by lia. rewrite IH. simpl.
      fold (group_ids groups). destruct (group_ids groups !! n); [done|].
      apply lookup_insert_ne. intros Heq.
      apply (inj (String.app idLabel)), (inj Itoa) in Heq. lia.
  - rewrite decide_False by naive_solver. rewrite IH. fold (group_ids groups).
    destruct (group_ids groups !! n); [done|].
    apply lookup_insert_ne. intros Heq. symmetry in Heq. by apply Hdisj in Heq.
Qed.

Lemma addGroups_lookup_name idLabel nameLabel (i j n : nat) groups p :
  (∀ s t, idLabel +:+ s ≠ nameLabel +:+ t) →
  addGroups idLabel nameLabel i j groups p
    !! (nameLabel +:+ Itoa (Z.of_nat (j + n)))
  = match group_names groups !! n with
    | Some name => Some name
    | None => p !! (nameLabel +:+ Itoa (Z.of_nat (j + n)))
    end.
Proof.
  intros Hdisj. revert i j n p.
  induction groups as [|g groups IH]; intros i j n p; [done|].
  simpl. unfold group_names. rewrite filter_cons. case_bool_decide as Hid.
  - rewrite decide_False by done. rewrite IH. fold (group_names groups).
    destruct (group_names groups !! n); [done|].
    apply lookup_insert_ne. apply Hdisj.
  - rewrite decide_True by done.
    rewrite fmap_cons. destruct n as [|n].
    + rewrite addGroups_keep.
      * rewrite Nat.add_0_r. apply lookup_insert_eq.
      * intros m _ Heq. symmetry in Heq. by apply Hdisj in Heq.
      * intros m Hm Heq.
        apply (inj (String.app nameLabel)), (inj Itoa) in Heq. lia.
    + replace (j + S n) with (S j + n) by lia. rewrite IH. simpl.
      fold (group_names groups). destruct (group_names groups !! n); [done|].
      apply lookup_insert_ne. intros Heq.
      apply (inj (String.app nameLabel)), (inj Itoa) in Heq. lia.
Qed.

End idioms.

(** ** encoding/hex *)

Section hex.

Lemma hex_digits_of_byte (v : byte) :
  hex.digit (N.shiftr (Byte.to_N v) 4)
    ∈ String.list_ascii_of_string hex.hextable
  ∧ hex.digit (N.land (Byte.to_N v) 15)
    ∈ String.list_ascii_of_string hex.hextable.
Proof.
  split; apply list_elem_of_In; destruct v; vm_compute;
    repeat first [left; reflexivity | right].
Qed.

Lemma Encode_length src :
  String.length (hex.Encode src) = 2 * length src.
Proof. induction src as [|v src IH]; simpl; [done | rewrite IH; lia]. Qed.

Lemma Encode_hexadecimal src : hexadecimal (hex.Encode src).
Proof.
  induction src as [|v src IH]; simpl; [done|].
  destruct (hex_digits_of_byte v). done.
Qed.

(** The two digits of a byte give the byte back. *)
Lemma hex_digits_value (v : byte) :
  (hex_value (hex.digit (N.shiftr (Byte.to_N v) 4)) * 16
   + hex_value (hex.digit (N.land (Byte.to_N v) 15)))%N
  = Byte.to_N v.
Proof. destruct v; vm_compute; reflexivity. Qed.

(** The encoding determines the bytes. *)
Lemma Encode_inj src src' : hex.Encode src = hex.Encode src' → src = src'.
Proof.
  revert src'. induction src as [|v src IH]; intros [|v' src']; simpl;
    try done.
  intros [= Hhi Hlo Hrest]. f_equal; [|by apply IH].
  assert (Byte.to_N v = Byte.to_N v') as Hv
    by (by rewrite <-(hex_digits_value v), <-(hex_digits_value v'), Hhi, Hlo).
  apply (f_equal Byte.of_N) in Hv. rewrite !Byte.of_to_N in Hv.
  by injection Hv.
Qed.

End hex.

(** ** RunInstances *)

Ltac key_ne :=
  first
    [ discriminate
    | let H := fresh in
      intros H; rewrite ?app_assoc', ?app_nil_l in H; discriminate H ].

(** Pushes a lookup at a key the later steps do not write through them. *)
Ltac push_lookup :=
  repeat first
    [ rewrite lookup_set_ne by key_ne
    | rewrite lookup_set_nonempty_ne by key_ne
    | rewrite lookup_set_if_ne by key_ne
    | rewrite lookup_set_b64_ne by key_ne
    | rewrite addParamsList_keep by (intros ?; key_ne)
    | rewrite addBlockDeviceParams_keep by (intros ?; key_ne)
    | rewrite addGroupIds_keep by (intros ? _; key_ne)
    | rewrite addGroups_keep by (intros ? _; key_ne) ].

Section RunInstances.
Import ec2.
Context (env : Env).

(** RunInstances reaches query unless the token cannot be generated. *)
Lemma RunInstances_params_cases (o : RunInstancesOptions.t) :
  match (clientToken env).2 with
  | Some err => RunInstances_params env (Some o) = Fails err
  | None => ∃ p, RunInstances_params env (Some o) = Params p
  end.
Proof.
  unfold RunInstances_params.
  destruct (clientToken env) as [token [err|]];
    destruct (bool_decide (RunInstancesOptions.MinCount o = 0%Z)),
      (bool_decide (RunInstancesOptions.MaxCount o = 0%Z));
    simpl; try done; by eexists.
Qed.

(** C8. RunInstances normalizes the counts: MinCount=1 and MaxCount=1 when
    both options are zero; MaxCount equal to options.MinCount when only
    options.MaxCount is zero; both as given otherwise. The parameter map
    is the one handed to query, which RunInstances reaches unless the
    client token cannot be generated. *)
Theorem C8_RunInstances_counts (o : RunInstancesOptions.t) :
  let MinCount := RunInstancesOptions.MinCount o in
  let MaxCount := RunInstancesOptions.MaxCount o in
  match RunInstances_params env (Some o) with
  | Params p =>
      p !! "MinCount"
      = Some (if bool_decide (MinCount = 0%Z ∧ MaxCount = 0%Z) then "1"
              else Itoa MinCount)
      ∧ p !! "MaxCount"
        = Some (if bool_decide (MinCount = 0%Z ∧ MaxCount = 0%Z) then "1"
                else if bool_decide (MaxCount = 0%Z) then Itoa MinCount
                else Itoa MaxCount)
  | Fails err => (clientToken env).2 = Some err
  | Panics => False
  end.
Proof.
  intros MinCount MaxCount. subst MinCount MaxCount.
  unfold RunInstances_params.
  destruct (clientToken env) as [token [err|]];
    destruct (if _ && _ then _ else _) as [min max] eqn:Hcount;
    simpl; [done|].
  assert (p_counts : ∀ p : gmap string string,
            p !! "MinCount" = Some (Itoa min) →
            p !! "MaxCount" = Some (Itoa max) →
            p !! "MinCount"
            = Some (if bool_decide
                      (RunInstancesOptions.MinCount o = 0%Z
                       ∧ RunInstancesOptions.MaxCount o = 0%Z)
                    then "1" else Itoa (RunInstancesOptions.MinCount o))
            ∧ p !! "MaxCount"
              = Some (if bool_decide
                        (RunInstancesOptions.MinCount o = 0%Z
                         ∧ RunInstancesOptions.MaxCount o = 0%Z)
                      then "1"
                      else if bool_decide
                                (RunInstancesOptions.MaxCount o = 0%Z)
                      then Itoa (RunInstancesOptions.MinCount o)
                      else Itoa (RunInstancesOptions.MaxCount o))).
  { intros p -> ->. clear -Hcount.
    repeat case_bool_decide; simplify_eq/=; split; try done;
      exfalso; intuition congruence. }
  destruct (bool_decide (_ ≠ "") && _); apply p_counts; push_lookup;
    by rewrite lookup_insert_eq.
Qed.

(** C9. With a subnet and AssociatePublicIpAddress, the subnet and the
    groups that have an Id go under NetworkInterface.0 (the Ids numbered
    from 1 in the order given), and no SubnetId, SecurityGroupId.i or
    SecurityGroup.j key is sent, so groups given by Name only are dropped.
    Otherwise the groups with an Id are SecurityGroupId.i and those without
    are SecurityGroup.j, each kind numbered from 1 in the order given, and
    nothing goes under NetworkInterface. *)
Theorem C9_RunInstances_security_groups (o : RunInstancesOptions.t) :
  let groups := RunInstancesOptions.SecurityGroups o in
  let SubnetId := RunInstancesOptions.SubnetId o in
  match RunInstances_params env (Some o) with
  | Params p =>
      if bool_decide (SubnetId ≠ "")
         && RunInstancesOptions.AssociatePublicIpAddress o
      then
        p !! "NetworkInterface.0.SubnetId" = Some SubnetId
        ∧ (∀ i : nat,
             p !! ("NetworkInterface.0.SecurityGroupId."
                   +:+ Itoa (Z.of_nat i + 1))
             = group_ids groups !! i)
        ∧ (∀ s, p !! ("NetworkInterface.0.SecurityGroup." +:+ s) = None)
        ∧ (∀ s, p !! ("SecurityGroup" +:+ s) = None)
        ∧ p !! "SubnetId" = None
      else
        (∀ i : nat,
           p !! ("SecurityGroupId." +:+ Itoa (Z.of_nat i + 1))
           = group_ids groups !! i)
        ∧ (∀ j : nat,
             p !! ("SecurityGroup." +:+ Itoa (Z.of_nat j + 1))
             = group_names groups !! j)
        ∧ (∀ s, p !! ("NetworkInterface." +:+ s) = None)
  | Fails err => (clientToken env).2 = Some err
  | Panics => False
  end.
Proof.
  intros groups SubnetId. subst groups SubnetId.
  unfold RunInstances_params.
  destruct (clientToken env) as [token [err|]];
    destruct (if _ && _ then _ else _) as [min max]; simpl; [done|].
  destruct (bool_decide (_ ≠ "") && _); repeat split; try intros i;
    try replace (Z.of_nat i + 1)%Z with (Z.of_nat (1 + i)) by lia;
    push_lookup;
    rewrite ?lookup_insert_eq, ?addGroupIds_lookup,
      ?addGroups_lookup_id, ?addGroups_lookup_name by (intros; key_ne);
    try done;
    try (destruct (_ !! i); [done|]); push_lookup; done.
Qed.

(** C10. clientToken asks rand.Read to fill a buffer of 32 zero bytes.
    When rand.Read returns without error, clientToken returns, without
    error, the hex encoding of the 32 bytes rand.Read left in the buffer:
    64 characters, all hexadecimal, so within the 64-byte limit. When
    rand.Read returns an error, clientToken returns the empty string and
    that error. The encoding loses nothing: two buffers with the same
    encoding are equal. RunInstances puts the token under ClientToken in
    the map it hands to query, and when the token cannot be generated it
    returns nil and the error without any request. *)
Theorem C10_clientToken :
  match rand_Read env (replicate 32 Byte.x00) with
  | (buf, None) =>
      clientToken env = (hex.EncodeToString buf, None)
      ∧ length buf = 32
      ∧ String.length (hex.EncodeToString buf) = 64
      ∧ hexadecimal (hex.EncodeToString buf)
  | (_, Some err) => clientToken env = ("", Some err)
  end
  ∧ (∀ buf buf' : list byte,
       hex.EncodeToString buf = hex.EncodeToString buf' → buf = buf')
  ∧ ∀ (R : Type) (dec : XmlTarget R) (ec2 : EC2) (zero : R)
      (o : RunInstancesOptions.t),
      match clientToken env with
      | (token, None) =>
          ∃ p, RunInstances_params env (Some o) = Params p
               ∧ p !! "ClientToken" = Some token
               ∧ RunInstances env ec2 zero (Some o)
                 = call env ec2 zero (Params p)
      | (_, Some err) =>
          RunInstances env ec2 zero (Some o) = Return None (Some err) []
      end.
Proof.
  split; [|split].
  - unfold clientToken.
    pose proof (rand_Read_length env (replicate 32 Byte.x00)) as Hlen.
    destruct (rand_Read env _) as [buf [err|]]; [done|].
    simpl in Hlen. rewrite ?length_replicate in Hlen.
    unfold hex.EncodeToString. rewrite Encode_length, Hlen.
    repeat split; try done. apply Encode_hexadecimal.
  - intros buf buf'. apply Encode_inj.
  - intros R dec ec2 zero o. unfold RunInstances, RunInstances_params.
    destruct (clientToken env) as [token [err|]];
      destruct (if _ && _ then _ else _) as [min max]; simpl; [done|].
    eexists. split; [done|]. split; [|done].
    destruct (bool_decide (_ ≠ "") && _); push_lookup;
      by rewrite lookup_insert_eq.
Qed.

End RunInstances.

(** Without a subnet: both kinds of group, each numbered from 1; the counts
default to 1; the token is the hex of the 32 bytes of the buffer. *)
Example RunInstances_plain :
  ec2.RunInstances_params (sample.env None) (Some (sample.options "" true))
  = ec2.Params
      (<["SecurityGroupId.2" := "sg-2"]> (<["SecurityGroup.1" := "web"]>
         (<["SecurityGroupId.1" := "sg-1"]>
            (<["ClientToken" :=
                 "00000000000000000000000000000000"
                 +:+ "00000000000000000000000000000000"]>
               (<["MaxCount" := "1"]> (<["MinCount" := "1"]>
                  (<["InstanceType" := "m1.small"]> (<["ImageId" := "ami-1"]>
                     (<["Action" := "RunInstances"]> ∅))))))))).
Proof. vm_compute. reflexivity. Qed.

(** With a subnet and a public address: the group given by Name is gone. *)
Example RunInstances_public_subnet :
  ec2.RunInstances_params (sample.env None)
    (Some (sample.options "subnet-1" true))
  = ec2.Params
      (<["NetworkInterface.0.SecurityGroupId.2" := "sg-2"]>
         (<["NetworkInterface.0.SecurityGroupId.1" := "sg-1"]>
            (<["NetworkInterface.0.SubnetId" := "subnet-1"]>
               (<["NetworkInterface.0.AssociatePublicIpAddress" := "true"]>
                  (<["NetworkInterface.0.DeviceIndex" := "0"]>
                     (<["ClientToken" :=
                          "00000000000000000000000000000000"
                          +:+ "00000000000000000000000000000000"]>
                        (<["MaxCount" := "1"]> (<["MinCount" := "1"]>
                           (<["InstanceType" := "m1.small"]>
                              (<["ImageId" := "ami-1"]>
                                 (<["Action" := "RunInstances"]> ∅))))))))))).
Proof. vm_compute. reflexivity. Qed.

(** When rand.Read fails nothing is requested. *)
Example RunInstances_no_token :
  let ec2 := ec2.New (sample.env (Some (ec2.LibError "EOF"))) sample.auth
               sample.region in
  ec2.RunInstances (RunInstancesResp := string)
    (sample.env (Some (ec2.LibError "EOF"))) ec2 ""
    (Some (sample.options "" false))
  = ec2.Return None (Some (ec2.LibError "EOF")) [].
Proof. vm_compute. reflexivity. Qed.

(** ** query and buildError *)

Section query.
Import ec2.
Context (env : Env).

Lemma multimap_fmap (p : gmap string string) :
  multimap p = (λ v, [v]) <$> p.
Proof.
  unfold multimap. induction p as [|k v p Hk Hfold IH] using map_first_key_ind.
  - by rewrite map_fold_empty, fmap_empty.
  - rewrite map_fold_insert_first_key by done.
    by rewrite IH, fmap_insert.
Qed.

(** C1, as the code has it. query adds Version=2014-02-01 and the
    Timestamp, the current time in UTC in the RFC3339 layout. If the
    region endpoint does not parse as a URL it returns the parse error at
    once: nothing is signed and no request is made. Otherwise it signs,
    with an empty path replaced by a slash, and issues one GET to the
    endpoint with the encoded signed parameters, every key holding the
    one-element list of its value, as the query string. If the GET fails
    its error is returned; on status 200 the body is decoded into the
    response struct and the decoder's error returned. *)
Theorem C1_query_steps {R : Type} `{!XmlTarget R} (ec2 : EC2)
    (params : gmap string string) (resp : R) :
  let r := query env ec2 params resp in
  let timestamp :=
    Time_Format env (Time_In_UTC env (timeNow env)) time_RFC3339 in
  let p1 :=
    <["Timestamp" := timestamp]> (<["Version" := "2014-02-01"]> params) in
  match url_Parse env (aws.EC2Endpoint (Region ec2)) with
  | inr err =>
      q_params r = p1 ∧ q_gets r = [] ∧ q_err r = Some err ∧ q_resp r = resp
  | inl endpoint =>
      let path :=
        if bool_decide (URL.Path endpoint = "") then "/"
        else URL.Path endpoint in
      let p2 := sign env (Auth ec2) "GET" path p1 (URL.Host endpoint) in
      let url :=
        URL_String env
          {| URL.Scheme := URL.Scheme endpoint;
             URL.Host := URL.Host endpoint; URL.Path := path;
             URL.RawQuery := Values_Encode env ((λ v, [v]) <$> p2) |} in
      q_params r = p2 ∧ q_gets r = [url]
      ∧ match Client.Get (httpClient ec2) url with
        | inr err => q_err r = Some err ∧ q_resp r = resp
        | inl res =>
            Response.StatusCode res = 200%Z →
            (q_resp r, q_err r) = xml_Decode (Response.Body res) resp
        end
  end.
Proof.
  intros r timestamp p1. subst r timestamp p1. unfold query.
  destruct (url_Parse env _) as [endpoint|err]; [|done].
  cbv zeta. rewrite !multimap_fmap.
  assert (∀ u : URL.t,
            URL.Path (if bool_decide (URL.Path u = "")
                      then {| URL.Scheme := URL.Scheme u;
                              URL.Host := URL.Host u; URL.Path := "/";
                              URL.RawQuery := URL.RawQuery u |}
                      else u)
            = (if bool_decide (URL.Path u = "") then "/" else URL.Path u)
            ∧ URL.Host (if bool_decide (URL.Path u = "")
                        then {| URL.Scheme := URL.Scheme u;
                                URL.Host := URL.Host u; URL.Path := "/";
                                URL.RawQuery := URL.RawQuery u |}
                        else u) = URL.Host u
            ∧ URL.Scheme (if bool_decide (URL.Path u = "")
                          then {| URL.Scheme := URL.Scheme u;
                                  URL.Host := URL.Host u; URL.Path := "/";
                                  URL.RawQuery := URL.RawQuery u |}
                          else u) = URL.Scheme u) as Hfix.
  { intros u. by destruct (bool_decide _). }
  destruct (Hfix endpoint) as (-> & -> & ->).
  destruct (Client.Get _ _) as [res|err]; [|done].
  case_bool_decide as Hcode; [by repeat split|].
  by destruct (xml_Decode _ _) as [resp' err'].
Qed.

(** C2, as the code has it. When the response to the GET has a status
    other than 200, query returns a non-nil *Error and leaves the response
    struct as it was. The error is built from the envelope as the decoder
    left it, whether or not decoding failed: Code and Message are those of
    the first element of Errors, or zero values when the list is empty;
    RequestId is the envelope's; StatusCode is the HTTP status code; an
    empty Message is replaced by the HTTP status line. *)
Theorem C2_error_from_envelope {R : Type} `{!XmlTarget R} (ec2 : EC2)
    (params : gmap string string) (resp : R) :
  let r := query env ec2 params resp in
  match q_gets r with
  | [url] =>
      match Client.Get (httpClient ec2) url with
      | inl res =>
          Response.StatusCode res ≠ 200%Z →
          let envelope :=
            (xmlErrors_Decode env (Response.Body res) xmlErrors.zero).1 in
          q_resp r = resp
          ∧ ∃ e, q_err r = Some (EC2Error e)
              ∧ Error.StatusCode e = Response.StatusCode res
              ∧ Error.RequestId e = xmlErrors.RequestId envelope
              ∧ match xmlErrors.Errors envelope with
                | first :: _ =>
                    Error.Code e = Error.Code first
                    ∧ Error.Message e
                      = (if bool_decide (Error.Message first = "")
                         then Response.Status res
                         else Error.Message first)
                | [] =>
                    Error.Code e = ""
                    ∧ Error.Message e = Response.Status res
                end
      | inr _ => True
      end
  | _ => True
  end.
Proof.
  intros r. subst r. unfold query.
  destruct (url_Parse env _) as [endpoint|err]; [|done].
  cbv zeta. set (url := URL_String env _).
  destruct (Client.Get (httpClient ec2) url) as [res|err] eqn:Hget;
    [|cbn [q_gets]; by rewrite Hget].
  case_bool_decide as Hcode.
  - cbn [q_gets q_err q_resp]. rewrite Hget. intros _.
    split; [done|]. unfold buildError. eexists. split; [done|].
    cbv zeta.
    destruct (xmlErrors.Errors _) as [|first errs]; simpl; [done|].
    by destruct (bool_decide (Error.Message first = "")).
  - destruct (xml_Decode _ _) as [resp' err']. cbn [q_gets].
    rewrite Hget. intros Hne. by destruct Hcode.
Qed.

End query.

(** C1 as stated fails when the region endpoint does not parse as a URL:
    query returns the error of url.Parse, no GET is issued and the
    parameters are not signed. *)
Lemma C1_counterexample_unparsable_endpoint :
  let ok :=
    {| ec2.Response.Status := "200 OK"; ec2.Response.StatusCode := 200;
       ec2.Response.Body := "req-1" |} in
  let ec2 :=
    ec2.NewWithClient sample.auth sample.bad_region (sample.client (inl ok)) in
  let r :=
    ec2.query (sample.env None) ec2 (ec2.makeParams "DescribeInstances") "" in
  ec2.q_gets r = []
  ∧ ec2.q_params r !! "Signature" = None
  ∧ ec2.q_err r = Some (ec2.LibError "missing protocol scheme")
  ∧ ec2.q_resp r = "".
Proof. vm_compute. done. Qed.

(** The same request against an endpoint that parses goes through. *)
Example query_ok :
  let ok :=
    {| ec2.Response.Status := "200 OK"; ec2.Response.StatusCode := 200;
       ec2.Response.Body := "req-1" |} in
  let ec2 :=
    ec2.NewWithClient sample.auth sample.region (sample.client (inl ok)) in
  let r :=
    ec2.query (sample.env None) ec2 (ec2.makeParams "DescribeInstances") "" in
  ec2.q_gets r = ["https://ec2.us-east-1.amazonaws.com/?"]
  ∧ ec2.q_params r !! "Signature" = Some "c2ln"
  ∧ ec2.q_params r !! "Version" = Some "2014-02-01"
  ∧ ec2.q_err r = None
  ∧ ec2.q_resp r = "req-1".
Proof. vm_compute. done. Qed.

(** C2 as stated fails on a body that does not decode but from which the
    decoder had already read an Error element: Code and Message are that
    element's, not zero values and not the status line. *)
Lemma C2_counterexample_partial_decode :
  let res :=
    {| ec2.Response.Status := "401 Unauthorized";
       ec2.Response.StatusCode := 401;
       ec2.Response.Body := sample.truncated_body |} in
  let ec2 :=
    ec2.NewWithClient sample.auth sample.region (sample.client (inl res)) in
  let r :=
    ec2.query (sample.env None) ec2 (ec2.makeParams "DescribeInstances") "" in
  (ec2.xmlErrors_Decode (sample.env None) (ec2.Response.Body res)
     ec2.xmlErrors.zero).2
  = Some (ec2.LibError "XML syntax error on line 1: unexpected EOF")
  ∧ ec2.q_err r
    = Some (ec2.EC2Error
              {| ec2.Error.StatusCode := 401; ec2.Error.Code := "AuthFailure";
                 ec2.Error.Message := "denied"; ec2.Error.RequestId := "" |}).
Proof. vm_compute. done. Qed.

(** A body that is not XML leaves the envelope empty: the error carries the
    status line. *)
Example buildError_not_xml :
  ec2.buildError (sample.env None)
    {| ec2.Response.Status := "503 Service Unavailable";
       ec2.Response.StatusCode := 503; ec2.Response.Body := "oops" |}
  = ec2.EC2Error
      {| ec2.Error.StatusCode := 503; ec2.Error.Code := "";
         ec2.Error.Message := "503 Service Unavailable";
         ec2.Error.RequestId := "" |}.
Proof. vm_compute. done. Qed.

(** ** Filters *)

Section filters.
Import ec2.
Implicit Types (params p q : gmap string string) (k key : string)
  (f : Filter.t).

Lemma sort_strings_sorted a : StronglySorted String.le (sort_strings a).
Proof. apply (StronglySorted_merge_sort _). Qed.

Lemma sort_strings_perm a : sort_strings a ≡ₚ a.
Proof. apply merge_sort_Permutation. Qed.

(** Sorting forgets the order in which the keys were visited. *)
Lemma sort_strings_order a b : a ≡ₚ b → sort_strings a = sort_strings b.
Proof.
  intros Hab. apply (StronglySorted_unique String.le);
    [apply sort_strings_sorted..|].
  by rewrite !sort_strings_perm.
Qed.

Lemma StronglySorted_lookup {A} (R : relation A) (l : list A) (i j : nat)
    x y :
  StronglySorted R l → l !! i = Some x → l !! j = Some y → i < j → R x y.
Proof.
  intros Hl. revert i j. induction Hl as [|z l Hl IH Hz]; intros i j; [done|].
  destruct i as [|i], j as [|j]; simpl; try lia.
  - intros [= <-] Hy _. rewrite Forall_forall in Hz. apply Hz.
    by apply list_elem_of_lookup_2 in Hy.
  - intros Hx Hy ?. apply (IH i j); [done..|lia].
Qed.

(** The names in the order addParams numbers them. *)
Lemma names_of_filter env f :
  let names := sort_strings (map_range env (Filter.m f)) in
  NoDup names ∧ (∀ k, k ∈ names ↔ is_Some (Filter.m f !! k)).
Proof.
  intros names. subst names.
  assert (sort_strings (map_range env (Filter.m f))
          ≡ₚ (map_to_list (Filter.m f)).*1) as Hperm.
  { by rewrite sort_strings_perm, map_range_keys. }
  split.
  - rewrite Hperm. apply NoDup_fst_map_to_list.
  - intros k. rewrite Hperm, list_elem_of_fmap. split.
    + intros [[k' vs] [-> Hin]]. apply elem_of_map_to_list in Hin. by eexists.
    + intros [vs Hvs]. exists (k, vs). split; [done|].
      by apply elem_of_map_to_list.
Qed.

Lemma filter_key_inj (i i' : nat) t t' :
  ("Filter." +:+ Itoa (Z.of_nat i + 1)) +:+ String "." t
  = ("Filter." +:+ Itoa (Z.of_nat i' + 1)) +:+ String "." t' →
  i = i' ∧ t = t'.
Proof.
  rewrite !app_assoc'. intros Heq.
  apply (inj (String.app "Filter.")) in Heq.
  apply cut_at_first in Heq as [Hi ->]; [|apply Itoa_nodot..].
  apply (inj Itoa) in Hi. split; [lia | done].
Qed.

(** The body of the outer loop of addParams (ec2.go:85-89). *)
Local Abbreviation body f := (λ (i : nat) k params,
  for_range (default [] (Filter.m f !! k)) (λ (j : nat) v params,
    <[("Filter." +:+ Itoa (Z.of_nat i + 1)) +:+ ".Value."
      +:+ Itoa (Z.of_nat j + 1) := v]> params)
    (<[("Filter." +:+ Itoa (Z.of_nat i + 1)) +:+ ".Name" := k]> params)).

Lemma filter_body_other f (i i' : nat) k q t :
  i' ≠ i →
  body f i' k q !! (("Filter." +:+ Itoa (Z.of_nat i + 1)) +:+ String "." t)
  = q !! (("Filter." +:+ Itoa (Z.of_nat i + 1)) +:+ String "." t).
Proof.
  intros Hne. cbv beta. rewrite for_range_keep.
  - apply lookup_insert_ne. intros Heq. by apply filter_key_inj in Heq as [? _].
  - intros j v q' _. apply lookup_insert_ne. intros Heq.
    rewrite app_cons in Heq. by apply filter_key_inj in Heq as [? _].
Qed.

Lemma filter_body_name f (i : nat) k q :
  body f i k q !! (("Filter." +:+ Itoa (Z.of_nat i + 1)) +:+ ".Name")
  = Some k.
Proof.
  cbv beta. rewrite for_range_keep; [apply lookup_insert_eq|].
  intros j v q' _. apply lookup_insert_ne. intros Heq.
  rewrite app_cons in Heq. by apply filter_key_inj in Heq as [_ ?].
Qed.

Lemma filter_body_value f (i j : nat) k vs v q :
  Filter.m f !! k = Some vs → vs !! j = Some v →
  body f i k q !! (("Filter." +:+ Itoa (Z.of_nat i + 1)) +:+ ".Value."
                   +:+ Itoa (Z.of_nat j + 1))
  = Some v.
Proof.
  intros Hk Hj. cbv beta. rewrite Hk. simpl.
  edestruct (for_range_at vs) as (q' & -> & _); [|exact Hj|].
  - intros j' v' q' Hne. apply lookup_insert_ne. intros Heq.
    apply (inj (String.app _)), (inj (String.app _)), (inj Itoa) in Heq.
    lia.
  - apply lookup_insert_eq.
Qed.

Lemma Filter_Add_comm f n1 v1 n2 v2 :
  n1 ≠ n2 →
  Filter_Add (Filter_Add f n1 v1) n2 v2
  = Filter_Add (Filter_Add f n2 v2) n1 v1.
Proof.
  intros Hne. unfold Filter_Add. simpl. f_equal.
  rewrite !lookup_insert_ne by done. by apply insert_insert_ne.
Qed.

Lemma Filter_addParams_order env env' fo params :
  Filter_addParams env fo params = Filter_addParams env' fo params.
Proof.
  destruct fo as [f|]; [|done]. unfold Filter_addParams.
  rewrite (sort_strings_order (map_range env (Filter.m f))
             (map_range env' (Filter.m f))); [done|].
  by rewrite !map_range_keys.
Qed.

(** C3. For a non-nil filter, addParams numbers the filter's names from 1
    in ascending byte-wise lexicographic order: Filter.i.Name is the i-th
    name and Filter.i.Value.j the j-th value of that name (j from 1), and
    every other key is left as it was. A nil filter leaves the map
    unchanged. What is emitted depends on the contents of the filter only:
    it is the same for every order in which the runtime ranges over the
    map, the same for any two sequences of Add calls that build the same
    contents, and so the same whichever of two different names was added
    first. *)
Theorem C3_Filter_addParams (env : Env) (f : Filter.t)
    (params : gmap string string) :
  let names := sort_strings (map_range env (Filter.m f)) in
  let out := Filter_addParams env (Some f) params in
  let name_key (i : nat) :=
    "Filter." +:+ Itoa (Z.of_nat i + 1) +:+ ".Name" in
  let value_key (i j : nat) :=
    "Filter." +:+ Itoa (Z.of_nat i + 1) +:+ ".Value."
    +:+ Itoa (Z.of_nat j + 1) in
  (∀ k, k ∈ names ↔ is_Some (Filter.m f !! k))
  ∧ (∀ (i j : nat) ki kj,
       names !! i = Some ki → names !! j = Some kj → i < j →
       String.le ki kj ∧ ki ≠ kj)
  ∧ (∀ (i : nat) k, names !! i = Some k → out !! name_key i = Some k)
  ∧ (∀ (i j : nat) k vs v,
       names !! i = Some k → Filter.m f !! k = Some vs → vs !! j = Some v →
       out !! value_key i j = Some v)
  ∧ (∀ key,
       (∀ (i : nat) k vs,
          names !! i = Some k → Filter.m f !! k = Some vs →
          key ≠ name_key i
          ∧ ∀ j : nat, j < length vs → key ≠ value_key i j) →
       out !! key = params !! key)
  ∧ Filter_addParams env None params = params
  ∧ (∀ env', Filter_addParams env' (Some f) params = out)
  ∧ (∀ env1 env2 calls1 calls2,
       Filter.m (filter_of_adds calls1) = Filter.m (filter_of_adds calls2) →
       Filter_addParams env1 (Some (filter_of_adds calls1)) params
       = Filter_addParams env2 (Some (filter_of_adds calls2)) params)
  ∧ (∀ env' n1 v1 n2 v2, n1 ≠ n2 →
       Filter_addParams env'
         (Some (Filter_Add (Filter_Add f n1 v1) n2 v2)) params
       = Filter_addParams env
           (Some (Filter_Add (Filter_Add f n2 v2) n1 v1)) params).
Proof.
  intros names out name_key value_key.
  destruct (names_of_filter env f) as [Hnodup Hdom]. fold names in Hnodup, Hdom.
  pose proof (sort_strings_sorted (map_range env (Filter.m f))) as Hsorted.
  fold names in Hsorted.
  split; [done|].
  split; [|split; [|split; [|split; [|split; [|split; [|split]]]]]].
  - intros i j ki kj Hi Hj Hij. split.
    + by apply (StronglySorted_lookup String.le names i j).
    + intros ->. assert (i = j) by (by eapply NoDup_lookup). lia.
  - intros i k Hi. subst out name_key. unfold Filter_addParams. fold names.
    rewrite <-app_assoc'.
    edestruct (for_range_at names) as (q & -> & _); [|exact Hi|].
    + intros i' k' q Hne. by apply filter_body_other.
    + apply filter_body_name.
  - intros i j k vs v Hi Hk Hj. subst out value_key.
    unfold Filter_addParams. fold names. rewrite <-app_assoc'.
    edestruct (for_range_at names) as (q & -> & _); [|exact Hi|].
    + intros i' k' q Hne. rewrite app_cons. by apply filter_body_other.
    + by eapply filter_body_value.
  - intros key Hkey. subst out. unfold Filter_addParams. fold names.
    apply for_range_keep_lookup. intros i k q Hi.
    assert (k ∈ names) as [vs Hvs]%Hdom by (by eapply list_elem_of_lookup_2).
    destruct (Hkey i k vs Hi Hvs) as [Hname Hvalue].
    rewrite Hvs. simpl. rewrite for_range_keep.
    + apply lookup_insert_ne. intros Heq. apply Hname.
      subst name_key. cbv beta. by rewrite <-app_assoc'.
    + intros j v q' Hj. apply lookup_insert_ne. intros Heq.
      apply (Hvalue j Hj). subst value_key. cbv beta.
      by rewrite <-app_assoc'.
  - done.
  - intros env'. apply Filter_addParams_order.
  - intros env1 env2 calls1 calls2 Hm.
    destruct (filter_of_adds calls1) as [m1], (filter_of_adds calls2) as [m2].
    simpl in Hm. subst m2. apply Filter_addParams_order.
  - intros env' n1 v1 n2 v2 Hne. rewrite (Filter_Add_comm f n1 v1 n2 v2) by done.
    apply Filter_addParams_order.
Qed.

End filters.

(** Values added under one name accumulate in the order of the calls: they
    are part of the filter's contents. *)
Example Filter_Add_same_name :
  ec2.Filter.m
    (ec2.Filter_Add (ec2.Filter_Add ec2.NewFilter "state" ["running"])
       "state" ["stopped"]) !! "state"
  = Some ["running"; "stopped"].
Proof. vm_compute. reflexivity. Qed.

Example Filter_addParams_two :
  let f :=
    ec2.Filter_Add (ec2.Filter_Add ec2.NewFilter "launch-index" ["0"])
      "architecture" ["i386"; "x86_64"] in
  ec2.Filter_addParams (sample.env None) (Some f) ∅
  = <["Filter.2.Value.1" := "0"]> (<["Filter.2.Name" := "launch-index"]>
      (<["Filter.1.Value.2" := "x86_64"]> (<["Filter.1.Value.1" := "i386"]>
         (<["Filter.1.Name" := "architecture"]> ∅)))).
Proof. vm_compute. reflexivity. Qed.

(** ** The FileInfo store tests *)

Section store_tests.
Import store.
Context (E : TestEnv).

(** C6. TestFileInfoSaveGet passes exactly when: Save returns the saved
    FileInfo without error and with a non-empty Id; Get on that Id returns
    without error a FileInfo with the same Id; the Save of the record with
    DeleteAt 123 returns a FileInfo without error; and Get on the Id of
    that record returns an error. In particular, if that last Get succeeds
    the test does not pass: it ends in t.Fatal. *)
Theorem C6_TestFileInfoSaveGet :
  let info :=
    {| model.FileInfo.Id := ""; model.FileInfo.CreatorId := NewId E 0;
       model.FileInfo.PostId := ""; model.FileInfo.Path := "file.txt";
       model.FileInfo.DeleteAt := 0 |} in
  let deleted :=
    {| model.FileInfo.Id := ""; model.FileInfo.CreatorId := NewId E 1;
       model.FileInfo.PostId := ""; model.FileInfo.Path := "file.txt";
       model.FileInfo.DeleteAt := 123 |} in
  (TestFileInfoSaveGet E = Pass ↔
     ∃ r1 s1 saved r2 s2 got r3 s3 info2 r4 s4,
       Save info (Setup E) = (r1, s1) ∧ Err r1 = None
       ∧ Data_ r1 = FileInfoPtr (Some saved)
       ∧ model.FileInfo.Id saved ≠ ""
       ∧ Get (model.FileInfo.Id saved) s1 = (r2, s2) ∧ Err r2 = None
       ∧ Data_ r2 = FileInfoPtr (Some got)
       ∧ model.FileInfo.Id got = model.FileInfo.Id saved
       ∧ Save deleted s2 = (r3, s3) ∧ Err r3 = None
       ∧ Data_ r3 = FileInfoPtr (Some info2)
       ∧ Get (model.FileInfo.Id info2) s3 = (r4, s4) ∧ Err r4 ≠ None)
  ∧ (∀ r1 s1 saved r2 s2 got r3 s3 info2 r4 s4,
       Save info (Setup E) = (r1, s1) → Err r1 = None →
       Data_ r1 = FileInfoPtr (Some saved) →
       model.FileInfo.Id saved ≠ "" →
       Get (model.FileInfo.Id saved) s1 = (r2, s2) → Err r2 = None →
       Data_ r2 = FileInfoPtr (Some got) →
       model.FileInfo.Id got = model.FileInfo.Id saved →
       Save deleted s2 = (r3, s3) → Err r3 = None →
       Data_ r3 = FileInfoPtr (Some info2) →
       Get (model.FileInfo.Id info2) s3 = (r4, s4) → Err r4 = None →
       TestFileInfoSaveGet E = Fatal "shouldn't have gotten deleted file").
Proof.
  intros info deleted.
  assert (Hid : ∀ x : model.FileInfo.t,
            String.length (model.FileInfo.Id x) = 0
            ↔ model.FileInfo.Id x = "").
  { intros x. by destruct (model.FileInfo.Id x). }
  split; [split|].
  - unfold TestFileInfoSaveGet. cbv zeta. fold info deleted.
    destruct (Save info (Setup E)) as [r1 s1] eqn:H1.
    destruct (Err r1) eqn:E1; simpl; [done|].
    destruct (Data_ r1) as [[saved|]| |] eqn:D1; simpl; try done.
    destruct (bool_decide_reflect
                (String.length (model.FileInfo.Id saved) = 0)) as [|I1];
      simpl; [done|].
    destruct (Get (model.FileInfo.Id saved) s1) as [r2 s2] eqn:H2.
    destruct (Err r2) eqn:E2; simpl; [done|].
    destruct (Data_ r2) as [[got|]| |] eqn:D2; simpl; try done.
    destruct (bool_decide_reflect
                (model.FileInfo.Id got ≠ model.FileInfo.Id saved))
      as [|I2]; simpl; [done|].
    destruct (Save deleted s2) as [r3 s3] eqn:H3.
    unfold Must. destruct (Err r3) eqn:E3; simpl; [done|].
    destruct (Data_ r3) as [[info2|]| |] eqn:D3; simpl; try done.
    destruct (Get (model.FileInfo.Id info2) s3) as [r4 s4] eqn:H4.
    destruct (bool_decide_reflect (Err r4 = None)) as [|E4]; simpl; [done|].
    intros _. exists r1, s1, saved, r2, s2, got, r3, s3, info2, r4, s4.
    repeat split; try done.
    + by rewrite <-Hid.
    + by apply dec_stable.
  - intros (r1 & s1 & saved & r2 & s2 & got & r3 & s3 & info2 & r4 & s4
            & H1 & E1 & D1 & I1 & H2 & E2 & D2 & I2 & H3 & E3 & D3 & H4 & E4).
    unfold TestFileInfoSaveGet. cbv zeta. fold info deleted.
    rewrite H1, E1, D1. simpl.
    rewrite bool_decide_false by (by rewrite Hid). simpl.
    rewrite H2, E2, D2. simpl. rewrite bool_decide_false by (intros Hne; by apply Hne).
    simpl. rewrite H3. unfold Must. rewrite E3, D3. simpl. rewrite H4.
    by rewrite bool_decide_false.
  - intros r1 s1 saved r2 s2 got r3 s3 info2 r4 s4
      H1 E1 D1 I1 H2 E2 D2 I2 H3 E3 D3 H4 E4.
    unfold TestFileInfoSaveGet. cbv zeta. fold info deleted.
    rewrite H1, E1, D1. simpl.
    rewrite bool_decide_false by (by rewrite Hid). simpl.
    rewrite H2, E2, D2. simpl. rewrite bool_decide_false by (intros Hne; by apply Hne).
    simpl. rewrite H3. unfold Must. rewrite E3, D3. simpl. rewrite H4.
    by rewrite bool_decide_true.
Qed.

Lemma save_all_Go infos (s s' : State E) :
  (∃ ps, save_all E infos s = Go (ps, s')) ↔ saved_in_turn E infos s s'.
Proof.
  revert s. induction infos as [|info infos IH]; intros s; simpl.
  - split; [by intros [ps [= _ ->]] | intros ->; by eexists].
  - destruct (Save info s) as [r s1] eqn:H1. unfold Must.
    split.
    + intros [ps Hps]. destruct (Err r) eqn:E1; simpl in Hps; [done|].
      destruct (Data_ r) as [p| |] eqn:D1; simpl in Hps; try done.
      destruct (save_all E infos s1) as [[ps' s2]|] eqn:Hrest;
        simpl in Hps; [|done].
      injection Hps as _ ->. exists r, s1, p. repeat split; try done.
      apply IH. by eexists.
    + intros (r' & s1' & p & [= <- <-] & E1 & D1 & Hrest).
      apply IH in Hrest as [ps' Hps']. rewrite E1, D1. simpl.
      rewrite Hps'. simpl. by eexists.
Qed.

Lemma save_all_End infos (s : State E) r :
  save_all E infos s = End_ r → r ≠ Pass.
Proof.
  revert s. induction infos as [|info infos IH]; intros s; simpl; [done|].
  destruct (Save info s) as [r1 s1]. unfold Must.
  destruct (Err r1); simpl; [by intros [= <-]|].
  destruct (Data_ r1); simpl; try by intros [= <-].
  destruct (save_all E infos s1) as [[ps s2]|r'] eqn:Hrest; simpl; [done|].
  intros [= <-]. by eapply IH.
Qed.


End store_tests.

Example TestFileInfoDeleteForPost_passes :
  store.TestFileInfoDeleteForPost (sample.mem.test_env false) = store.Pass.
Proof. vm_compute. reflexivity. Qed.

Example TestFileInfoSaveGet_passes :
  store.TestFileInfoSaveGet (sample.mem.test_env false) = store.Pass.
Proof. vm_compute. reflexivity. Qed.

Example TestFileInfoSaveGet_fails :
  store.TestFileInfoSaveGet (sample.mem.test_env true)
  = store.Fatal "shouldn't have gotten deleted file".
Proof. vm_compute. reflexivity. Qed.

(** ** One request per operation *)

Section operations.
Import ec2.
Context (env : Env).

Lemma Filter_addParams_keep fo (p : gmap string string) key :
  (∀ s, key ≠ "Filter." +:+ s) →
  Filter_addParams env fo p !! key = p !! key.
Proof.
  intros Hkey. destruct fo as [f|]; [|done]. unfold Filter_addParams.
  apply for_range_keep. intros i k q _.
  rewrite for_range_keep.
  - apply lookup_insert_ne. rewrite app_assoc'. intros Heq.
    by eapply Hkey.
  - intros j v q' _. apply lookup_insert_ne. rewrite app_assoc'.
    intros Heq. by eapply Hkey.
Qed.




(** RunInstances is the operation [OpRunInstances]. *)
Lemma perform_RunInstances {R : Type} `{!XmlTarget R} (ec2 : EC2) (zero : R)
    (options : option RunInstancesOptions.t) :
  perform env ec2 zero (OpRunInstances options)
  = RunInstances env ec2 zero options.
Proof. reflexivity. Qed.



End operations.

(** A failing client is asked once. *)
Example DescribeInstances_refused :
  let ec2 := ec2.New (sample.env None) sample.auth sample.region in
  ec2.perform (R := string) (sample.env None) ec2 ""
    (ec2.OpDescribeInstances ["i-1"] None)
  = ec2.Return None (Some (ec2.LibError "connection refused"))
      ["https://ec2.us-east-1.amazonaws.com/?"].
Proof. vm_compute. reflexivity. Qed.

(** * Further properties of the code *)

(** ** Loops that only add to the map *)

Section more_loops.
Implicit Types (p q : gmap string string) (key : string).

Lemma for_range_from_union {A} (i : nat) (xs : list A)
    (body : nat → A → gmap string string → gmap string string) q p :
  (∀ j x q, body j x (q ∪ p) = body j x q ∪ p) →
  for_range_from i xs body (q ∪ p) = for_range_from i xs body q ∪ p.
Proof.
  intros Hbody. revert i q.
  induction xs as [|x xs IH]; intros i q; simpl; [done|].
  by rewrite Hbody, IH.
Qed.

Lemma for_range_union {A} (xs : list A)
    (body : nat → A → gmap string string → gmap string string) p :
  (∀ j x q, body j x (q ∪ p) = body j x q ∪ p) →
  for_range xs body p = for_range xs body ∅ ∪ p.
Proof.
  intros Hbody. unfold for_range.
  rewrite <-(for_range_from_union 0 xs body ∅ p Hbody).
  by rewrite (left_id_L ∅ (∪)).
Qed.

Lemma insert_if_union (c : bool) k v q p :
  (if c then <[k:=v]> (q ∪ p) else q ∪ p)
  = (if c then <[k:=v]> q else q) ∪ p.
Proof. destruct c; [apply insert_union_l | done]. Qed.

(** What a loop leaves at a key that iteration [j] alone writes, when what
    that iteration leaves there depends on the former binding only. *)
Lemma for_range_own {A} (xs : list A)
    (body : nat → A → gmap string string → gmap string string) p (j : nat)
    key :
  (∀ i' y q, i' ≠ j → body i' y q !! key = q !! key) →
  (∀ x q q', q !! key = q' !! key → body j x q !! key = body j x q' !! key) →
  for_range xs body p !! key
  = match xs !! j with
    | Some x => body j x p !! key
    | None => p !! key
    end.
Proof.
  intros Hother Hown. destruct (xs !! j) as [x|] eqn:Hj.
  - destruct (for_range_at xs body p j x key Hother Hj) as (q & -> & Hq).
    by apply Hown.
  - apply for_range_keep_lookup. intros i' y q Hi'. apply Hother.
    intros ->. congruence.
Qed.

(** A loop that stores each element under a key of its index. *)
Lemma for_range_insert_own {A} (kf : nat → string) (vf : A → string)
    (xs : list A) p (j : nat) :
  (∀ i i' : nat, kf i = kf i' → i = i') →
  for_range xs (λ i x p, <[kf i := vf x]> p) p !! kf j
  = match xs !! j with
    | Some x => Some (vf x)
    | None => p !! kf j
    end.
Proof.
  intros Hinj. rewrite (for_range_own _ _ _ j).
  - destruct (xs !! j); [apply lookup_insert_eq | done].
  - intros i' y q Hne. apply lookup_insert_ne. intros Heq.
    by apply Hinj in Heq.
  - intros x q q' _. by rewrite !lookup_insert_eq.
Qed.

Lemma indexed_key_inj label (i i' : nat) t t' :
  label +:+ Itoa (Z.of_nat i + 1) +:+ String "." t
  = label +:+ Itoa (Z.of_nat i' + 1) +:+ String "." t' →
  i = i' ∧ t = t'.
Proof.
  intros Heq. apply (inj (String.app label)) in Heq.
  apply cut_at_first in Heq as [Hi ->]; [|apply Itoa_nodot..].
  apply (inj Itoa) in Hi. split; [lia | done].
Qed.

(** The loop that stores element [i] under [pre], the decimal of [i+1], a
    dot and [suf]. *)
Lemma for_range_indexed {A} (pre suf : string) (vf : A → string)
    (xs : list A) p (i : nat) :
  for_range xs (λ (i : nat) x p,
    <[pre +:+ Itoa (Z.of_nat i + 1) +:+ String "." suf := vf x]> p) p
    !! (pre +:+ Itoa (Z.of_nat i + 1) +:+ String "." suf)
  = match xs !! i with
    | Some x => Some (vf x)
    | None => p !! (pre +:+ Itoa (Z.of_nat i + 1) +:+ String "." suf)
    end.
Proof.
  pose proof
    (for_range_insert_own
       (λ i : nat, pre +:+ Itoa (Z.of_nat i + 1) +:+ String "." suf)
       vf xs p i) as Hown.
  cbv beta in Hown. apply Hown. intros i1 i2 Heq.
  by apply indexed_key_inj in Heq as [? _].
Qed.

Lemma dotted_ne_Action label s : label +:+ "." +:+ s ≠ "Action".
Proof.
  intros Heq. assert (nodot "Action") as Hno by (by compute).
  rewrite <-Heq in Hno. apply lacks_app in Hno as [_ Hno].
  rewrite app_cons in Hno. simpl in Hno. by destruct Hno.
Qed.

End more_loops.

Section laid_over.
Import ec2.
Implicit Types (p q params : gmap string string) (key label : string).

Lemma addParamsList_lay params label ids :
  addParamsList params label ids = addParamsList ∅ label ids ∪ params.
Proof. apply for_range_union. intros j x q. apply insert_union_l. Qed.

Lemma addBlockDeviceParams_lay prename params bds :
  addBlockDeviceParams prename params bds
  = addBlockDeviceParams prename ∅ bds ∪ params.
Proof.
  apply for_range_union. intros j x q. unfold addBlockDevice. cbv zeta.
  by rewrite !insert_if_union.
Qed.

Lemma Filter_addParams_lay env fo params :
  Filter_addParams env fo params = Filter_addParams env fo ∅ ∪ params.
Proof.
  destruct fo as [f|]; simpl; [|by rewrite (left_id_L ∅ (∪))].
  apply for_range_union. intros i k q. cbv beta zeta.
  rewrite insert_union_l. unfold for_range.
  apply for_range_from_union. intros j v q'. apply insert_union_l.
Qed.

(** The Filter keys of a map that had none before the filter was added. *)
Lemma Filter_addParams_own env fo params s :
  params !! ("Filter." +:+ s) = None →
  Filter_addParams env fo params !! ("Filter." +:+ s)
  = Filter_addParams env fo ∅ !! ("Filter." +:+ s).
Proof.
  intros Hnone. rewrite Filter_addParams_lay, lookup_union, Hnone.
  apply (right_id_L None (∪)).
Qed.

(** X1. addParamsList, addBlockDeviceParams and Filter.addParams only add
    to the map they are given: the result is what they emit into an empty
    map, laid over the given map. What they emit does not depend on what
    the map held, and a binding under a key they do not emit is kept. *)
Theorem X1_helpers_lay_over :
  (∀ (params : gmap string string) (label : string) (ids : list string),
     addParamsList params label ids = addParamsList ∅ label ids ∪ params)
  ∧ (∀ (prename : string) (params : gmap string string)
       (bds : list BlockDeviceMapping.t),
       addBlockDeviceParams prename params bds
       = addBlockDeviceParams prename ∅ bds ∪ params)
  ∧ (∀ (env : Env) (f : option Filter.t) (params : gmap string string),
       Filter_addParams env f params = Filter_addParams env f ∅ ∪ params).
Proof.
  split; [|split].
  - apply addParamsList_lay.
  - apply addBlockDeviceParams_lay.
  - apply Filter_addParams_lay.
Qed.

End laid_over.

(** ** Operations on a list of ids *)

Section id_lists.
Import ec2.
Implicit Types (p q params : gmap string string) (key label : string).

Lemma addParamsList_snoc params label ids id :
  addParamsList params label (ids ++ [id])
  = <[label +:+ "." +:+ Itoa (Z.of_nat (length ids) + 1) := id]>
      (addParamsList params label ids).
Proof. unfold addParamsList, for_range. by rewrite for_range_from_snoc. Qed.

Lemma addParamsList_Some params label ids key v :
  addParamsList params label ids !! key = Some v ↔
    (∃ i : nat, ids !! i = Some v
                ∧ key = label +:+ "." +:+ Itoa (Z.of_nat i + 1))
    ∨ ((∀ i : nat, i < length ids →
          key ≠ label +:+ "." +:+ Itoa (Z.of_nat i + 1))
       ∧ params !! key = Some v).
Proof.
  split.
  - induction ids as [|id ids IH] using rev_ind.
    + intros Hv. right. split; [simpl; lia | done].
    + rewrite addParamsList_snoc, lookup_insert_Some.
      intros [[<- <-]|[Hne [(i & Hi & ->)|[Hkey Hv]]%IH]].
      * left. exists (length ids). split; [|done].
        by rewrite lookup_app_r, Nat.sub_diag by lia.
      * left. exists i. split; [|done].
        apply lookup_app_l_Some. done.
      * right. split; [|done]. intros i. rewrite length_app. simpl.
        intros Hi. destruct (decide (i = length ids)) as [->|].
        -- by intros ->.
        -- apply Hkey. lia.
  - intros [(i & Hi & ->)|[Hkey Hv]].
    + by apply addParamsList_lookup.
    + by rewrite addParamsList_other.
Qed.

Lemma addParamsList_at params label ids (i : nat) :
  addParamsList params label ids !! (label +:+ "." +:+ Itoa (Z.of_nat i + 1))
  = match ids !! i with
    | Some id => Some id
    | None => params !! (label +:+ "." +:+ Itoa (Z.of_nat i + 1))
    end.
Proof.
  pose proof
    (for_range_insert_own
       (λ i : nat, label +:+ "." +:+ Itoa (Z.of_nat i + 1))
       (λ id : string, id) ids params i) as Hown.
  cbv beta in Hown. apply Hown. intros i1 i2. apply index_key_inj.
Qed.

Lemma makeParams_addParamsList action label ids :
  sends_only_ids (Params (addParamsList (makeParams action) label ids))
    action label ids.
Proof.
  eexists. split; [done|]. intros key v.
  rewrite addParamsList_Some. unfold makeParams.
  rewrite lookup_insert_Some, lookup_empty. split.
  - intros [?|[_ [[<- <-]|[_ ?]]]]; [by right|by left|done].
  - intros [[-> ->]|?]; [|by left]. right. split; [|by left].
    intros i _ Heq. symmetry in Heq. by apply dotted_ne_Action in Heq.
Qed.

(** X2. TerminateInstances, StartInstances, StopInstances,
    RebootInstances, CancelSpotRequests and DeleteSnapshots hand query a
    map that holds the action name and, for each index i of the id list,
    the id under label.(i+1), and no other key. With an empty list only
    the action is sent. DeleteSnapshots sends every id of the list in one
    request of the action DeleteSnapshot. *)
Theorem X2_id_list_operations (ids : list string) :
  sends_only_ids (TerminateInstances_params ids) "TerminateInstances"
    "InstanceId" ids
  ∧ sends_only_ids (StartInstances_params ids) "StartInstances"
      "InstanceId" ids
  ∧ sends_only_ids (StopInstances_params ids) "StopInstances"
      "InstanceId" ids
  ∧ sends_only_ids (RebootInstances_params ids) "RebootInstances"
      "InstanceId" ids
  ∧ sends_only_ids (CancelSpotRequests_params ids)
      "CancelSpotInstanceRequests" "SpotInstanceRequestId" ids
  ∧ sends_only_ids (DeleteSnapshots_params ids) "DeleteSnapshot"
      "SnapshotId" ids.
Proof.
  repeat split; try apply makeParams_addParamsList.
  exact (makeParams_addParamsList "DeleteSnapshot" "SnapshotId" ids).
Qed.

End id_lists.

(** ** Describe operations: id lists and the filter *)

Section idioms_own.
Import ec2.
Implicit Types (p q params : gmap string string) (k key label : string).

Lemma lookup_set_if_eq c k v p :
  set_if c k v p !! k = if c then Some v else p !! k.
Proof. destruct c; [apply lookup_insert_eq | done]. Qed.

Lemma lookup_set_nonempty_eq k v p :
  set_nonempty k v p !! k = if bool_decide (v ≠ "") then Some v else p !! k.
Proof. apply lookup_set_if_eq. Qed.

Lemma lookup_set_b64_eq env k data p :
  set_b64 env k data p !! k
  = match data with
    | Some data => Some (b64_Encode env data)
    | None => p !! k
    end.
Proof. destruct data; [apply lookup_insert_eq | done]. Qed.

End idioms_own.

(** Reads off the binding of a key at the step that writes it. *)
Ltac own_lookup :=
  push_lookup;
  rewrite ?lookup_insert_eq, ?lookup_set_nonempty_eq, ?lookup_set_if_eq,
    ?lookup_set_b64_eq;
  unfold if_nonempty, if_set;
  repeat match goal with
    | |- context [if ?c then _ else _] => destruct c
    | |- context [match ?d with Some _ => _ | None => _ end] => destruct d
    end;
  push_lookup; rewrite ?lookup_insert_eq; try done.

(** Looks a key up through a filter and the id lists before it. *)
Ltac list_lookup :=
  push_lookup;
  rewrite ?Filter_addParams_keep by (intros ?; key_ne);
  push_lookup;
  rewrite ?addParamsList_at;
  try (destruct (_ !! _); [done|]);
  push_lookup; unfold ec2.makeParams;
  rewrite ?lookup_insert_eq, ?lookup_insert_ne, ?lookup_empty by key_ne;
  try done.

Ltac describe :=
  eexists; split; [reflexivity|]; cbn [fst snd]; split; [|split];
  [ list_lookup
  | repeat apply Forall_cons_2; try apply Forall_nil_2; cbn [fst snd];
    intros ?; list_lookup
  | intros ?; apply Filter_addParams_own; list_lookup ].

Section describe.
Import ec2.
Context (env : Env).

(** X3. DescribeInstances, DescribeSpotRequests, DescribeReservedInstances,
    Images, ImagesByOwners, Snapshots, Volumes and DescribeAddresses hand
    query a map with the action name, each id list under its own label
    numbered from 1 (an index past the end of the list has no key), and
    under Filter. exactly what Filter.addParams emits for the filter: the
    id lists and the filter do not overwrite each other. Images and
    ImagesByOwners request the same action, DescribeImages. *)
Theorem X3_describe_operations (ids more : list string)
    (filter : option Filter.t) :
  describes env (DescribeInstances_params env ids filter)
    "DescribeInstances" [("InstanceId", ids)] filter
  ∧ describes env (DescribeSpotRequests_params env ids filter)
      "DescribeSpotInstanceRequests" [("SpotInstanceRequestId", ids)] filter
  ∧ describes env (DescribeReservedInstances_params env ids filter)
      "DescribeReservedInstances" [("ReservedInstancesId", ids)] filter
  ∧ describes env (Images_params env ids filter)
      "DescribeImages" [("ImageId", ids)] filter
  ∧ describes env (ImagesByOwners_params env ids more filter)
      "DescribeImages" [("ImageId", ids); ("Owner", more)] filter
  ∧ describes env (Snapshots_params env ids filter)
      "DescribeSnapshots" [("SnapshotId", ids)] filter
  ∧ describes env (Volumes_params env ids filter)
      "DescribeVolumes" [("VolumeId", ids)] filter
  ∧ describes env (DescribeAddresses_params env ids more filter)
      "DescribeAddresses" [("PublicIp", ids); ("AllocationId", more)] filter.
Proof.
  repeat match goal with |- _ ∧ _ => split end.
  - describe.
  - describe.
  - change (DescribeReservedInstances_params env ids filter)
      with (Params (Filter_addParams env filter
                      (addParamsList (makeParams "DescribeReservedInstances")
                         "ReservedInstancesId" ids))).
    describe.
  - change (Images_params env ids filter)
      with (Params (Filter_addParams env filter
                      (addParamsList (makeParams "DescribeImages")
                         "ImageId" ids))).
    describe.
  - change (ImagesByOwners_params env ids more filter)
      with (Params (Filter_addParams env filter
                      (addParamsList
                         (addParamsList (makeParams "DescribeImages")
                            "ImageId" ids) "Owner" more))).
    describe.
  - change (Snapshots_params env ids filter)
      with (Params (Filter_addParams env filter
                      (addParamsList (makeParams "DescribeSnapshots")
                         "SnapshotId" ids))).
    describe.
  - describe.
  - describe.
Qed.

(** X4. DescribeInstanceStatus with non-nil options sends the instance
    ids as InstanceId.(i+1) and the filter as the describe operations do;
    IncludeAllInstances is sent as true or not at all; MaxResults is sent
    whenever it is not zero, a negative number included; NextToken only
    when not empty. *)
Theorem X4_DescribeInstanceStatus_options
    (o : DescribeInstanceStatusOptions.t) (filter : option Filter.t) :
  describes env (DescribeInstanceStatus_params env (Some o) filter)
    "DescribeInstanceStatus"
    [("InstanceId", DescribeInstanceStatusOptions.InstanceIds o)] filter
  ∧ ∃ p, DescribeInstanceStatus_params env (Some o) filter = Params p
      ∧ p !! "IncludeAllInstances"
        = if_set (DescribeInstanceStatusOptions.IncludeAllInstances o) "true"
      ∧ p !! "MaxResults"
        = (if bool_decide (DescribeInstanceStatusOptions.MaxResults o ≠ 0%Z)
           then Some (Itoa (DescribeInstanceStatusOptions.MaxResults o))
           else None)
      ∧ p !! "NextToken"
        = if_nonempty (DescribeInstanceStatusOptions.NextToken o).
Proof.
  split.
  - eexists. split; [reflexivity|]. split; [|split].
    + rewrite Filter_addParams_keep by (intros ?; key_ne).
      destruct (bool_decide (0 < _)); list_lookup.
    + apply Forall_cons_2; [|apply Forall_nil_2]. cbn [fst snd]. intros i.
      rewrite Filter_addParams_keep by (intros ?; key_ne). push_lookup.
      case_bool_decide as Hlen; [list_lookup|].
      destruct (DescribeInstanceStatusOptions.InstanceIds o);
        [list_lookup | simpl in Hlen; lia].
    + intros s. apply Filter_addParams_own.
      destruct (bool_decide (0 < _)); list_lookup.
  - eexists. split; [reflexivity|].
    repeat split; rewrite Filter_addParams_keep by (intros ?; key_ne);
      destruct (bool_decide (0 < _)); unfold makeParams; own_lookup.
Qed.

End describe.

(** ** Security groups as parameters *)

(** Looks up a numbered security-group key; [i] is the index. *)
Ltac groups_lookup i :=
  try replace (Z.of_nat i + 1)%Z with (Z.of_nat (1 + i)) by lia;
  push_lookup;
  rewrite ?Filter_addParams_keep by (intros ?; key_ne);
  rewrite ?lookup_insert_eq, ?addGroupIds_lookup,
    ?addGroups_lookup_id, ?addGroups_lookup_name by (intros; key_ne);
  try done;
  try (destruct (_ !! _); [done|]); push_lookup; try done.

Section security_groups.
Import ec2.
Context (env : Env).
Implicit Types (p q params : gmap string string) (key label : string).

Lemma for_range_from_write {A B} (f : A → B) (xs : list A)
    (pre rest : list B) :
  length rest = length xs →
  for_range_from (length pre) xs (λ i x g, <[i := f x]> g)
    (pre ++ rest)%list
  = (pre ++ (f <$> xs))%list.
Proof.
  revert pre rest.
  induction xs as [|x xs IH]; intros pre [|y rest] Hlen; simpl in *;
    try done.
  rewrite insert_app_r_alt, Nat.sub_diag by lia. simpl.
  specialize (IH (pre ++ [f x])%list rest).
  rewrite length_app, <-!(assoc_L (++)) in IH. simpl in IH.
  rewrite Nat.add_1_r in IH. apply IH. lia.
Qed.

(** Writing [f x] at the index of each [x] into a slice of the same
    length builds the slice of the [f x]. *)
Lemma for_range_write {A B} (f : A → B) (xs : list A) (g : list B) :
  length g = length xs →
  for_range xs (λ i x g, <[i := f x]> g) g = f <$> xs.
Proof. intros Hlen. by apply (for_range_from_write f xs [] g). Qed.

Lemma SecurityGroupNames_fmap names :
  SecurityGroupNames names = group_named <$> names.
Proof. apply for_range_write. by rewrite length_replicate. Qed.

Lemma SecurityGroupIds_fmap ids :
  SecurityGroupIds ids = group_with_id <$> ids.
Proof. apply for_range_write. by rewrite length_replicate. Qed.

Lemma group_names_named names :
  group_names (group_named <$> names) = names
  ∧ group_ids (group_named <$> names) = [].
Proof.
  unfold group_names, group_ids. split.
  - induction names as [|n names IH]; [done|].
    rewrite fmap_cons, filter_cons_True by done.
    rewrite fmap_cons. by f_equal.
  - induction names as [|n names IH]; [done|].
    by rewrite fmap_cons, filter_cons_False by (simpl; naive_solver).
Qed.

Lemma group_ids_with_id ids :
  group_ids (group_with_id <$> ids) = filter (λ id, id ≠ "") ids
  ∧ group_names (group_with_id <$> ids)
    = (λ _, "") <$> filter (λ id, id = "") ids.
Proof.
  unfold group_names, group_ids. split.
  - induction ids as [|id ids IH]; [done|].
    rewrite fmap_cons, !filter_cons. cbn [SecurityGroup.Id group_with_id].
    destruct (decide (id ≠ "")); [rewrite fmap_cons; by f_equal | done].
  - induction ids as [|id ids IH]; [done|].
    rewrite fmap_cons, !filter_cons. cbn [SecurityGroup.Id group_with_id].
    destruct (decide (id = "")); [rewrite !fmap_cons; by f_equal | done].
Qed.

(** X5. SecurityGroupNames returns one group per name, in order, each
    with that Name and an empty Id; SecurityGroupIds one group per id, each
    with that Id and an empty Name. As parameters, the groups of
    SecurityGroupNames are all given by name; those of SecurityGroupIds
    are given by id except for an empty id, which yields a group given by
    the empty name. *)
Theorem X5_SecurityGroupNames_and_Ids (names ids : list string) :
  SecurityGroupNames names = group_named <$> names
  ∧ SecurityGroupIds ids = group_with_id <$> ids
  ∧ group_names (SecurityGroupNames names) = names
  ∧ group_ids (SecurityGroupNames names) = []
  ∧ group_ids (SecurityGroupIds ids) = filter (λ id, id ≠ "") ids
  ∧ group_names (SecurityGroupIds ids)
    = (λ _, "") <$> filter (λ id, id = "") ids.
Proof.
  rewrite SecurityGroupNames_fmap, SecurityGroupIds_fmap.
  destruct (group_names_named names), (group_ids_with_id ids). done.
Qed.

Lemma SecurityGroups_params_groups (groups : list SecurityGroup.t)
    (filter : option Filter.t) :
  ∃ p, SecurityGroups_params env groups filter = Params p
    ∧ (∀ i : nat,
         p !! ("GroupId." +:+ Itoa (Z.of_nat i + 1)) = group_ids groups !! i)
    ∧ (∀ j : nat,
         p !! ("GroupName." +:+ Itoa (Z.of_nat j + 1))
         = group_names groups !! j).
Proof.
  eexists. split; [done|]. unfold makeParams.
  split; intros i; groups_lookup i.
Qed.

(** X6. SecurityGroups (the describe operation) sends the groups that
    have an Id as GroupId.i and those that do not as GroupName.j by their
    Name, each kind numbered from 1 in the order given; a group with both
    an Id and a Name is sent by Id only. The filter is emitted under
    Filter. as Filter.addParams does on its own. *)
Theorem X6_SecurityGroups_selection (groups : list SecurityGroup.t)
    (filter : option Filter.t) :
  ∃ p, SecurityGroups_params env groups filter = Params p
    ∧ (∀ i : nat,
         p !! ("GroupId." +:+ Itoa (Z.of_nat i + 1)) = group_ids groups !! i)
    ∧ (∀ j : nat,
         p !! ("GroupName." +:+ Itoa (Z.of_nat j + 1))
         = group_names groups !! j)
    ∧ (∀ s, p !! ("Filter." +:+ s)
            = Filter_addParams env filter ∅ !! ("Filter." +:+ s)).
Proof.
  destruct (SecurityGroups_params_groups groups filter)
    as (p & Hp & Hi & Hj).
  exists p. repeat split; try done.
  injection Hp as <-. intros s. apply Filter_addParams_own.
  unfold makeParams. push_lookup. done.
Qed.

Lemma RunInstances_params_groups (o : RunInstancesOptions.t) p :
  RunInstances_params env (Some o) = Params p →
  let groups := RunInstancesOptions.SecurityGroups o in
  if bool_decide (RunInstancesOptions.SubnetId o ≠ "")
     && RunInstancesOptions.AssociatePublicIpAddress o
  then
    (∀ i : nat,
       p !! ("NetworkInterface.0.SecurityGroupId." +:+ Itoa (Z.of_nat i + 1))
       = group_ids groups !! i)
    ∧ (∀ s, p !! ("SecurityGroup" +:+ s) = None)
  else
    (∀ i : nat,
       p !! ("SecurityGroupId." +:+ Itoa (Z.of_nat i + 1))
       = group_ids groups !! i)
    ∧ (∀ j : nat,
         p !! ("SecurityGroup." +:+ Itoa (Z.of_nat j + 1))
         = group_names groups !! j).
Proof.
  unfold RunInstances_params.
  destruct (clientToken env) as [token [err|]];
    destruct (if _ && _ then _ else _) as [min max]; simpl; [done|].
  intros [= <-].
  destruct (bool_decide (_ ≠ "") && _); split; intros i; groups_lookup i.
Qed.

Lemma ModifyInstance_params_groups instId (o : ModifyInstance.t) :
  ∃ p, ModifyInstance_params env instId (Some o) = Params p
    ∧ (∀ i : nat,
         p !! ("GroupId." +:+ Itoa (Z.of_nat i + 1))
         = group_ids (ModifyInstance.SecurityGroups o) !! i)
    ∧ (∀ s, p !! ("GroupName" +:+ s) = None)
    ∧ (∀ s, p !! ("SecurityGroup" +:+ s) = None).
Proof.
  eexists. split; [done|]. unfold makeParams.
  repeat split; intros i; groups_lookup i.
Qed.

(** X7. Groups built by SecurityGroupNames: SecurityGroups sends them as
    GroupName.(j+1) and sends no GroupId.i. RunInstances sends them as
    SecurityGroup.(j+1), unless a subnet and AssociatePublicIpAddress are
    given: then it sends no security group at all, neither under
    NetworkInterface.0.SecurityGroupId. nor under any key that starts with
    SecurityGroup. ModifyInstance sends none of them either: no GroupId.i
    and no key that starts with GroupName. *)
Theorem X7_groups_given_by_name (names : list string) :
  (∀ filter,
     ∃ p, SecurityGroups_params env (SecurityGroupNames names) filter
          = Params p
       ∧ (∀ j : nat,
            p !! ("GroupName." +:+ Itoa (Z.of_nat j + 1)) = names !! j)
       ∧ (∀ i : nat, p !! ("GroupId." +:+ Itoa (Z.of_nat i + 1)) = None))
  ∧ (∀ (o : RunInstancesOptions.t) p,
       RunInstancesOptions.SecurityGroups o = SecurityGroupNames names →
       RunInstances_params env (Some o) = Params p →
       if bool_decide (RunInstancesOptions.SubnetId o ≠ "")
          && RunInstancesOptions.AssociatePublicIpAddress o
       then
         (∀ i : nat,
            p !! ("NetworkInterface.0.SecurityGroupId."
                  +:+ Itoa (Z.of_nat i + 1)) = None)
         ∧ (∀ s, p !! ("SecurityGroup" +:+ s) = None)
       else
         ∀ j : nat,
           p !! ("SecurityGroup." +:+ Itoa (Z.of_nat j + 1)) = names !! j)
  ∧ (∀ instId (o : ModifyInstance.t),
       ModifyInstance.SecurityGroups o = SecurityGroupNames names →
       ∃ p, ModifyInstance_params env instId (Some o) = Params p
         ∧ (∀ i : nat, p !! ("GroupId." +:+ Itoa (Z.of_nat i + 1)) = None)
         ∧ (∀ s, p !! ("GroupName" +:+ s) = None)).
Proof.
  rewrite SecurityGroupNames_fmap.
  destruct (group_names_named names) as [Hnames Hids].
  split; [|split].
  - intros filter.
    destruct (SecurityGroups_params_groups (group_named <$> names) filter)
      as (p & Hp & Hi & Hj).
    exists p. split; [done|]. split.
    + intros j. by rewrite Hj, Hnames.
    + intros i. by rewrite Hi, Hids.
  - intros o p Ho Hp. apply RunInstances_params_groups in Hp.
    cbv zeta in Hp. rewrite Ho, Hnames, Hids in Hp.
    destruct (bool_decide (_ ≠ "") && _).
    + destruct Hp as [Hi Hs]. split; [|done]. intros i. by rewrite Hi.
    + by destruct Hp as [_ Hj].
  - intros instId o Ho.
    destruct (ModifyInstance_params_groups instId o)
      as (p & Hp & Hi & Hn & _).
    exists p. split; [done|]. split; [|done].
    intros i. by rewrite Hi, Ho, Hids.
Qed.

End security_groups.

(** The two constructors on concrete lists; an empty id becomes a group
    given by the empty name. *)
Example SecurityGroupIds_empty_id :
  ec2.SecurityGroupNames ["web"; "db"]
  = [sample.group "" "web"; sample.group "" "db"]
  ∧ ec2.SecurityGroupIds ["sg-1"; ""]
    = [sample.group "sg-1" ""; sample.group "" ""]
  ∧ ec2.SecurityGroups_params (sample.env None)
      (ec2.SecurityGroupIds ["sg-1"; ""]) None
    = ec2.Params
        (<["GroupName.1" := ""]> (<["GroupId.1" := "sg-1"]>
           (<["Action" := "DescribeSecurityGroups"]> ∅))).
Proof. vm_compute. done. Qed.

(** ** The options of ModifyInstance, RequestSpotInstances, RunInstances *)

Section instances.
Import ec2.
Context (env : Env).
Implicit Types (p q params : gmap string string) (key label : string).

(** X8. ModifyInstance with non-nil options sends the instance id; the
    instance type only when not empty; SourceDestCheck.Value as true or
    not at all, so it cannot switch the check off; SriovNetSupport.Value
    as simple or not at all; UserData, base64-encoded, whenever the slice
    is not nil, an empty one included. The security groups that have an Id
    are GroupId.i in the order given; those without are not sent. *)
Theorem X8_ModifyInstance_attributes (instId : string)
    (o : ModifyInstance.t) :
  ∃ p, ModifyInstance_params env instId (Some o) = Params p
    ∧ p !! "InstanceId" = Some instId
    ∧ p !! "InstanceType.Value" = if_nonempty (ModifyInstance.InstanceType o)
    ∧ p !! "SourceDestCheck.Value"
      = if_set (ModifyInstance.SourceDestCheck o) "true"
    ∧ p !! "SriovNetSupport.Value"
      = if_set (ModifyInstance.SriovNetSupport o) "simple"
    ∧ p !! "UserData" = b64_Encode env <$> ModifyInstance.UserData o
    ∧ (∀ i : nat,
         p !! ("GroupId." +:+ Itoa (Z.of_nat i + 1))
         = group_ids (ModifyInstance.SecurityGroups o) !! i)
    ∧ (∀ s, p !! ("GroupName" +:+ s) = None)
    ∧ (∀ s, p !! ("SecurityGroup" +:+ s) = None).
Proof.
  destruct (ModifyInstance_params_groups env instId o)
    as (p & Hp & Hi & Hn & Hs).
  exists p. split; [done|]. injection Hp as <-.
  unfold makeParams. repeat split; try done; own_lookup.
Qed.

Lemma addBlockDeviceParams_DeviceName prename params bds (i : nat) bd :
  bds !! i = Some bd →
  addBlockDeviceParams prename params bds
    !! (bd_prefix prename i +:+ "DeviceName")
  = if bool_decide (BlockDeviceMapping.DeviceName bd ≠ "")
    then Some (BlockDeviceMapping.DeviceName bd)
    else params !! (bd_prefix prename i +:+ "DeviceName").
Proof.
  intros Hi.
  destruct (addBlockDeviceParams_at prename params bds i bd "DeviceName" Hi)
    as (q & -> & <-).
  pose proof (addBlockDevice_own prename i bd q) as Hown. cbv zeta in Hown.
  apply Hown.
Qed.

(** X9. RequestSpotInstances with non-nil options sends SpotPrice, and
    InstanceCount when it is not zero, at the top level; the Type option
    and a client token are never sent. The launch specification goes under
    LaunchSpecification.: ImageId and InstanceType always, the instance
    profile by name only, block device i under
    LaunchSpecification.BlockDeviceMapping.(i+1). The subnet and the
    security groups are placed as RunInstances places them, under that
    prefix: with a subnet and AssociatePublicIpAddress, under
    NetworkInterface.0 and by Id only; otherwise SecurityGroupId.i and
    SecurityGroup.j, and nothing under NetworkInterface. *)
Theorem X9_RequestSpotInstances_launch_specification
    (o : RequestSpotInstances.t) :
  let groups := RequestSpotInstances.SecurityGroups o in
  let SubnetId := RequestSpotInstances.SubnetId o in
  ∃ p, RequestSpotInstances_params env (Some o) = Params p
    ∧ p !! "SpotPrice" = Some (RequestSpotInstances.SpotPrice o)
    ∧ p !! "InstanceCount"
      = (if bool_decide (RequestSpotInstances.InstanceCount o ≠ 0%Z)
         then Some (Itoa (RequestSpotInstances.InstanceCount o)) else None)
    ∧ p !! "Type" = None
    ∧ p !! "ClientToken" = None
    ∧ p !! "LaunchSpecification.ImageId"
      = Some (RequestSpotInstances.ImageId o)
    ∧ p !! "LaunchSpecification.InstanceType"
      = Some (RequestSpotInstances.InstanceType o)
    ∧ p !! "LaunchSpecification.IamInstanceProfile.Name"
      = if_nonempty (RequestSpotInstances.IamInstanceProfile o)
    ∧ (∀ (i : nat) bd,
         RequestSpotInstances.BlockDevices o !! i = Some bd →
         p !! ("LaunchSpecification.BlockDeviceMapping."
               +:+ Itoa (Z.of_nat i + 1) +:+ ".DeviceName")
         = if_nonempty (BlockDeviceMapping.DeviceName bd))
    ∧ if bool_decide (SubnetId ≠ "")
         && RequestSpotInstances.AssociatePublicIpAddress o
      then
        p !! "LaunchSpecification.NetworkInterface.0.SubnetId"
        = Some SubnetId
        ∧ (∀ i : nat,
             p !! ("LaunchSpecification.NetworkInterface.0.SecurityGroupId."
                   +:+ Itoa (Z.of_nat i + 1))
             = group_ids groups !! i)
        ∧ (∀ s, p !! ("LaunchSpecification.SecurityGroup" +:+ s) = None)
        ∧ p !! "LaunchSpecification.SubnetId" = None
      else
        p !! "LaunchSpecification.SubnetId" = if_nonempty SubnetId
        ∧ (∀ i : nat,
             p !! ("LaunchSpecification.SecurityGroupId."
                   +:+ Itoa (Z.of_nat i + 1))
             = group_ids groups !! i)
        ∧ (∀ j : nat,
             p !! ("LaunchSpecification.SecurityGroup."
                   +:+ Itoa (Z.of_nat j + 1))
             = group_names groups !! j)
        ∧ (∀ s, p !! ("LaunchSpecification.NetworkInterface." +:+ s) = None).
Proof.
  intros groups SubnetId. subst groups SubnetId. eexists. split; [done|].
  unfold makeParams.
  change ("LaunchSpecification" +:+ ".") with "LaunchSpecification.".
  repeat match goal with |- _ ∧ _ => split end.
  1-7: destruct (bool_decide (_ ≠ "") && _); own_lookup.
  - intros i bd Hi.
    replace ("LaunchSpecification.BlockDeviceMapping."
             +:+ Itoa (Z.of_nat i + 1) +:+ ".DeviceName")
      with (bd_prefix "LaunchSpecification." i +:+ "DeviceName")
      by (unfold bd_prefix; by rewrite !app_assoc').
    rewrite (addBlockDeviceParams_DeviceName _ _ _ i bd Hi).
    unfold if_nonempty. destruct (bool_decide _); [done|].
    unfold bd_prefix. destruct (bool_decide (_ ≠ "") && _); own_lookup.
  - destruct (bool_decide (_ ≠ "") && _);
      repeat match goal with |- _ ∧ _ => split end;
      try intros i; first [ solve [groups_lookup i] | own_lookup ].
Qed.

(** X10. When RunInstances reaches query, ImageId and InstanceType are
    sent as given, empty or not; KeyName only when not empty; UserData,
    base64-encoded, whenever the slice is not nil; Monitoring.Enabled,
    DisableApiTermination and EbsOptimized as true or not at all; the
    instance profile by Arn and Name, each when not empty, and never by
    Id; the device name of block device i under
    BlockDeviceMapping.(i+1).DeviceName when not empty. None of these is
    overwritten by the network or security group parameters. *)
Theorem X10_RunInstances_attributes (o : RunInstancesOptions.t) :
  let profile := RunInstancesOptions.IamInstanceProfile o in
  match RunInstances_params env (Some o) with
  | Params p =>
      p !! "ImageId" = Some (RunInstancesOptions.ImageId o)
      ∧ p !! "InstanceType" = Some (RunInstancesOptions.InstanceType o)
      ∧ p !! "KeyName" = if_nonempty (RunInstancesOptions.KeyName o)
      ∧ p !! "UserData" = b64_Encode env <$> RunInstancesOptions.UserData o
      ∧ p !! "Monitoring.Enabled"
        = if_set (RunInstancesOptions.Monitoring o) "true"
      ∧ p !! "DisableApiTermination"
        = if_set (RunInstancesOptions.DisableAPITermination o) "true"
      ∧ p !! "EbsOptimized"
        = if_set (RunInstancesOptions.EbsOptimized o) "true"
      ∧ p !! "IamInstanceProfile.Arn"
        = if_nonempty (IamInstanceProfile.ARN profile)
      ∧ p !! "IamInstanceProfile.Name"
        = if_nonempty (IamInstanceProfile.Name profile)
      ∧ p !! "IamInstanceProfile.Id" = None
      ∧ (∀ (i : nat) bd,
           RunInstancesOptions.BlockDevices o !! i = Some bd →
           p !! ("BlockDeviceMapping." +:+ Itoa (Z.of_nat i + 1)
                 +:+ ".DeviceName")
           = if_nonempty (BlockDeviceMapping.DeviceName bd))
  | Fails err => (clientToken env).2 = Some err
  | Panics => False
  end.
Proof.
  intros profile. subst profile. unfold RunInstances_params.
  destruct (clientToken env) as [token [err|]];
    destruct (if _ && _ then _ else _) as [min max]; simpl; [done|].
  unfold makeParams.
  repeat match goal with |- _ ∧ _ => split end.
  1-10: destruct (bool_decide (_ ≠ "") && _); own_lookup.
  intros i bd Hi.
  replace ("BlockDeviceMapping." +:+ Itoa (Z.of_nat i + 1) +:+ ".DeviceName")
    with (bd_prefix "" i +:+ "DeviceName")
    by (unfold bd_prefix; by rewrite !app_assoc').
  rewrite (addBlockDeviceParams_DeviceName _ _ _ i bd Hi).
  unfold if_nonempty. destruct (bool_decide _); [done|].
  unfold bd_prefix. destruct (bool_decide (_ ≠ "") && _); own_lookup.
Qed.

End instances.

(** ** Security group rules: authOrRevoke *)

(** Keys under different permissions differ. *)
Ltac perm_ne :=
  let H := fresh in
  intros H; rewrite !app_assoc' in H;
  apply indexed_key_inj in H as [? _]; done.

(** Keys under one permission with different tails differ. *)
Ltac tail_ne :=
  let H := fresh in
  intros H; rewrite !app_assoc' in H;
  do 2 apply (inj (String.app _)) in H; discriminate H.

(** Keys under one prefix with different last parts differ. *)
Ltac sub_ne :=
  let H := fresh in
  intros H; apply (inj (String.app _)) in H; discriminate H.

Section permissions.
Import ec2.
Implicit Types (p q params : gmap string string) (key : string).

Local Abbreviation perm_prefix i :=
  ("IpPermissions." +:+ Itoa (Z.of_nat i + 1)).

(** The bodies of the loops of authOrRevoke (ec2.go:2053-2070). *)
Local Abbreviation ips_body i :=
  (λ (j : nat) (ip : string) (params : gmap string string),
     <[perm_prefix i +:+ ".IpRanges." +:+ Itoa (Z.of_nat j + 1) +:+ ".CidrIp"
       := ip]> params).

Local Abbreviation groups_body i :=
  (λ (j : nat) (g : UserSecurityGroup.t) (params : gmap string string),
     if bool_decide (UserSecurityGroup.Id g ≠ "")
     then <[(perm_prefix i +:+ ".Groups." +:+ Itoa (Z.of_nat j + 1))
            +:+ ".GroupId" := UserSecurityGroup.Id g]>
            (set_nonempty
               ((perm_prefix i +:+ ".Groups." +:+ Itoa (Z.of_nat j + 1))
                +:+ ".UserId") (UserSecurityGroup.OwnerId g) params)
     else <[(perm_prefix i +:+ ".Groups." +:+ Itoa (Z.of_nat j + 1))
            +:+ ".GroupName" := UserSecurityGroup.Name g]>
            (set_nonempty
               ((perm_prefix i +:+ ".Groups." +:+ Itoa (Z.of_nat j + 1))
                +:+ ".UserId") (UserSecurityGroup.OwnerId g) params)).

Local Abbreviation perm_body :=
  (λ (i : nat) (perm : IPPerm.t) (params : gmap string string),
     for_range (IPPerm.SourceGroups perm) (groups_body i)
       (for_range (IPPerm.SourceIPs perm) (ips_body i)
          (<[perm_prefix i +:+ ".ToPort" := Itoa (IPPerm.ToPort perm)]>
             (<[perm_prefix i +:+ ".FromPort"
                := Itoa (IPPerm.FromPort perm)]>
                (<[perm_prefix i +:+ ".IpProtocol"
                   := IPPerm.Protocol perm]> params))))).

Lemma authOrRevoke_loop op group perms :
  authOrRevoke_params op group perms
  = Params (for_range perms perm_body (set_group group (makeParams op))).
Proof. reflexivity. Qed.

Lemma perm_body_other (i i' : nat) perm q t :
  i' ≠ i →
  perm_body i' perm q !! (perm_prefix i +:+ String "." t)
  = q !! (perm_prefix i +:+ String "." t).
Proof.
  intros Hne. cbv beta.
  rewrite for_range_keep.
  - rewrite for_range_keep.
    + rewrite !lookup_insert_ne by perm_ne. done.
    + intros j ip q' _. apply lookup_insert_ne. perm_ne.
  - intros j g q' _.
    destruct (bool_decide _);
      rewrite lookup_insert_ne, lookup_set_nonempty_ne by perm_ne; done.
Qed.

Lemma perm_body_keep (i : nat) perm q key :
  (∀ s, key ≠ "IpPermissions." +:+ s) →
  perm_body i perm q !! key = q !! key.
Proof.
  intros Hkey.
  assert (∀ s t, ("IpPermissions." +:+ s) +:+ t ≠ key) as Hne.
  { intros s t Heq. rewrite app_assoc' in Heq. symmetry in Heq.
    by apply Hkey in Heq. }
  cbv beta. rewrite for_range_keep.
  - rewrite for_range_keep.
    + by rewrite !lookup_insert_ne by apply Hne.
    + intros j ip q' _. apply lookup_insert_ne. apply Hne.
  - intros j g q' _.
    destruct (bool_decide _);
      rewrite lookup_insert_ne, lookup_set_nonempty_ne by apply Hne; done.
Qed.

Lemma perm_body_scalars (i : nat) perm q :
  perm_body i perm q !! (perm_prefix i +:+ ".IpProtocol")
  = Some (IPPerm.Protocol perm)
  ∧ perm_body i perm q !! (perm_prefix i +:+ ".FromPort")
    = Some (Itoa (IPPerm.FromPort perm))
  ∧ perm_body i perm q !! (perm_prefix i +:+ ".ToPort")
    = Some (Itoa (IPPerm.ToPort perm)).
Proof.
  cbv beta. repeat split.
  all: rewrite for_range_keep
         by (intros j g q' _; destruct (bool_decide _);
             rewrite lookup_insert_ne, lookup_set_nonempty_ne by tail_ne;
             done).
  all: rewrite for_range_keep
         by (intros j ip q' _; apply lookup_insert_ne; tail_ne).
  all: rewrite ?lookup_insert_ne by tail_ne; apply lookup_insert_eq.
Qed.

Lemma perm_body_ip (i j : nat) perm q :
  perm_body i perm q
    !! (perm_prefix i +:+ ".IpRanges." +:+ Itoa (Z.of_nat j + 1) +:+ ".CidrIp")
  = match IPPerm.SourceIPs perm !! j with
    | Some ip => Some ip
    | None =>
        q !! (perm_prefix i +:+ ".IpRanges." +:+ Itoa (Z.of_nat j + 1)
              +:+ ".CidrIp")
    end.
Proof.
  cbv beta.
  rewrite for_range_keep
    by (intros j' g q' _; destruct (bool_decide _);
        rewrite lookup_insert_ne, lookup_set_nonempty_ne by tail_ne; done).
  pose proof
    (for_range_insert_own
       (λ j : nat, perm_prefix i +:+ ".IpRanges." +:+ Itoa (Z.of_nat j + 1)
                   +:+ ".CidrIp") (λ ip : string, ip)) as Hown.
  cbv beta in Hown. rewrite Hown.
  - destruct (_ !! j); [done|]. by rewrite !lookup_insert_ne by tail_ne.
  - intros j1 j2 Heq. rewrite !app_assoc' in Heq.
    do 2 apply (inj (String.app _)) in Heq.
    by apply indexed_key_inj in Heq as [? _].
Qed.

Lemma groups_body_other (i j j' : nat) g q t :
  j' ≠ j →
  groups_body i j' g q
    !! ((perm_prefix i +:+ ".Groups." +:+ Itoa (Z.of_nat j + 1))
        +:+ String "." t)
  = q !! ((perm_prefix i +:+ ".Groups." +:+ Itoa (Z.of_nat j + 1))
          +:+ String "." t).
Proof.
  intros Hne. cbv beta.
  assert (∀ t', (perm_prefix i +:+ ".Groups." +:+ Itoa (Z.of_nat j' + 1))
                +:+ String "." t'
                ≠ (perm_prefix i +:+ ".Groups." +:+ Itoa (Z.of_nat j + 1))
                  +:+ String "." t) as Hkey.
  { intros t' Heq. rewrite !app_assoc' in Heq.
    do 2 apply (inj (String.app _)) in Heq.
    by apply indexed_key_inj in Heq as [? _]. }
  destruct (bool_decide _);
    rewrite lookup_insert_ne, lookup_set_nonempty_ne by apply Hkey; done.
Qed.

Lemma groups_body_own (i j : nat) g q :
  let subprefix := perm_prefix i +:+ ".Groups." +:+ Itoa (Z.of_nat j + 1) in
  let out := groups_body i j g q in
  out !! (subprefix +:+ ".UserId")
  = (if bool_decide (UserSecurityGroup.OwnerId g ≠ "")
     then Some (UserSecurityGroup.OwnerId g)
     else q !! (subprefix +:+ ".UserId"))
  ∧ out !! (subprefix +:+ ".GroupId")
    = (if bool_decide (UserSecurityGroup.Id g ≠ "")
       then Some (UserSecurityGroup.Id g)
       else q !! (subprefix +:+ ".GroupId"))
  ∧ out !! (subprefix +:+ ".GroupName")
    = (if bool_decide (UserSecurityGroup.Id g ≠ "")
       then q !! (subprefix +:+ ".GroupName")
       else Some (UserSecurityGroup.Name g)).
Proof.
  intros subprefix out. subst out. cbv beta. fold subprefix.
  destruct (bool_decide (UserSecurityGroup.Id g ≠ "")); repeat split;
    rewrite ?lookup_insert_eq, ?lookup_insert_ne by sub_ne;
    rewrite ?lookup_set_nonempty_eq, ?lookup_set_nonempty_ne by sub_ne;
    done.
Qed.

Lemma groups_body_lay (i j : nat) g q key :
  groups_body i j g q !! key = groups_body i j g ∅ !! key ∪ q !! key.
Proof.
  cbv beta. unfold set_nonempty, set_if. rewrite <-lookup_union.
  destruct (bool_decide (UserSecurityGroup.Id g ≠ "")),
    (bool_decide (UserSecurityGroup.OwnerId g ≠ ""));
    by rewrite <-?insert_union_l, (left_id_L ∅ (∪)).
Qed.

Lemma perm_body_group (i j : nat) perm q t :
  perm_body i perm q
    !! ((perm_prefix i +:+ ".Groups." +:+ Itoa (Z.of_nat j + 1))
        +:+ String "." t)
  = match IPPerm.SourceGroups perm !! j with
    | Some g =>
        groups_body i j g q
          !! ((perm_prefix i +:+ ".Groups." +:+ Itoa (Z.of_nat j + 1))
              +:+ String "." t)
    | None =>
        q !! ((perm_prefix i +:+ ".Groups." +:+ Itoa (Z.of_nat j + 1))
              +:+ String "." t)
    end.
Proof.
  cbv beta.
  set (key := (perm_prefix i +:+ ".Groups." +:+ Itoa (Z.of_nat j + 1))
              +:+ String "." t).
  set (q0 := for_range (IPPerm.SourceIPs perm) _ _).
  assert (q0 !! key = q !! key) as Hq0.
  { subst q0 key. rewrite for_range_keep
      by (intros j' ip q' _; apply lookup_insert_ne; tail_ne).
    by rewrite !lookup_insert_ne by tail_ne. }
  rewrite (for_range_own _ _ _ j).
  - destruct (_ !! j) as [g|]; [|done].
    by rewrite (groups_body_lay i j g q0), (groups_body_lay i j g q), Hq0.
  - intros j' g q1 Hne. by apply groups_body_other.
  - intros g q1 q2 Heq.
    by rewrite (groups_body_lay i j g q1), (groups_body_lay i j g q2), Heq.
Qed.

Lemma perm_body_lay (i : nat) perm q :
  perm_body i perm q = perm_body i perm ∅ ∪ q.
Proof.
  cbv beta. unfold for_range.
  rewrite <-(for_range_from_union 0 (IPPerm.SourceGroups perm)).
  - rewrite <-(for_range_from_union 0 (IPPerm.SourceIPs perm))
      by (intros; apply insert_union_l).
    by rewrite <-!insert_union_l, (left_id_L ∅ (∪)).
  - intros j g q1. unfold set_nonempty, set_if.
    destruct (bool_decide (UserSecurityGroup.Id g ≠ "")),
      (bool_decide (UserSecurityGroup.OwnerId g ≠ ""));
      by rewrite <-?insert_union_l.
Qed.

(** What the loop over the permissions leaves at a key of permission
    [i]. *)
Lemma perms_loop_lookup perms p0 (i : nat) key t :
  key = perm_prefix i +:+ String "." t →
  for_range perms perm_body p0 !! key
  = match perms !! i with
    | Some perm => perm_body i perm p0 !! key
    | None => p0 !! key
    end.
Proof.
  intros ->. apply for_range_own.
  - intros i' perm q Hne. by apply perm_body_other.
  - intros perm q q' Heq.
    by rewrite (perm_body_lay i perm q), (perm_body_lay i perm q'),
      !lookup_union, Heq.
Qed.

(** X11. DeleteSecurityGroup, AuthorizeSecurityGroup, RevokeSecurityGroup,
    AuthorizeSecurityGroupEgress and RevokeSecurityGroupEgress name the
    group by GroupId when it has an Id and by GroupName otherwise, never
    by both: if both Id and Name are set, the Id is used and the Name is
    not sent. The permissions do not overwrite the choice. *)
Theorem X11_group_by_id_or_name (group : SecurityGroup.t)
    (perms : list IPPerm.t) :
  selects_group (DeleteSecurityGroup_params group) group
  ∧ selects_group (AuthorizeSecurityGroup_params group perms) group
  ∧ selects_group (RevokeSecurityGroup_params group perms) group
  ∧ selects_group (AuthorizeSecurityGroupEgress_params group perms) group
  ∧ selects_group (RevokeSecurityGroupEgress_params group perms) group.
Proof.
  assert (∀ op, selects_group (authOrRevoke_params op group perms) group)
    as Hop.
  { intros op. rewrite authOrRevoke_loop. eexists. split; [done|].
    rewrite !for_range_keep
      by (intros; apply perm_body_keep; intros ?; key_ne).
    unfold set_group, makeParams, if_nonempty.
    destruct (bool_decide _); by simplify_map_eq. }
  split; [|by repeat split; apply Hop].
  eexists. split; [done|].
  unfold set_group, makeParams, if_nonempty.
  destruct (bool_decide _); by simplify_map_eq.
Qed.

(** X12. authOrRevoke sends its first argument as the action and, for
    permission i of the list (from 0), under IpPermissions.(i+1): the
    protocol as IpProtocol, the two ports in decimal as FromPort and
    ToPort, zero included; source address j as IpRanges.(j+1).CidrIp;
    source group j under Groups.(j+1), with UserId only when the owner id
    is not empty, and GroupId when the group has an Id, GroupName
    otherwise. Past the end of the two lists there are no keys. *)
Theorem X12_authOrRevoke_permissions (op : string) (group : SecurityGroup.t)
    (perms : list IPPerm.t) :
  ∃ p, authOrRevoke_params op group perms = Params p
    ∧ p !! "Action" = Some op
    ∧ ∀ (i : nat) perm,
        perms !! i = Some perm →
        let prefix := "IpPermissions." +:+ Itoa (Z.of_nat i + 1) in
        let subprefix (j : nat) :=
          prefix +:+ ".Groups." +:+ Itoa (Z.of_nat j + 1) in
        p !! (prefix +:+ ".IpProtocol") = Some (IPPerm.Protocol perm)
        ∧ p !! (prefix +:+ ".FromPort")
          = Some (Itoa (IPPerm.FromPort perm))
        ∧ p !! (prefix +:+ ".ToPort") = Some (Itoa (IPPerm.ToPort perm))
        ∧ (∀ j : nat,
             p !! (prefix +:+ ".IpRanges." +:+ Itoa (Z.of_nat j + 1)
                   +:+ ".CidrIp")
             = IPPerm.SourceIPs perm !! j)
        ∧ (∀ j : nat,
             p !! (subprefix j +:+ ".UserId")
             = (g ← IPPerm.SourceGroups perm !! j;
                if_nonempty (UserSecurityGroup.OwnerId g))
             ∧ p !! (subprefix j +:+ ".GroupId")
               = (g ← IPPerm.SourceGroups perm !! j;
                  if_nonempty (UserSecurityGroup.Id g))
             ∧ p !! (subprefix j +:+ ".GroupName")
               = (g ← IPPerm.SourceGroups perm !! j;
                  if bool_decide (UserSecurityGroup.Id g ≠ "") then None
                  else Some (UserSecurityGroup.Name g))).
Proof.
  rewrite authOrRevoke_loop. eexists. split; [done|].
  set (p0 := set_group group (makeParams op)).
  assert (∀ s, p0 !! ("IpPermissions." +:+ s) = None) as Hp0.
  { intros s. subst p0. unfold set_group, makeParams.
    destruct (bool_decide _); by rewrite !lookup_insert_ne, lookup_empty. }
  assert (∀ s t, p0 !! (("IpPermissions." +:+ s) +:+ t) = None) as Hp1.
  { intros s t. by rewrite app_assoc'. }
  assert (∀ s t u, p0 !! ((("IpPermissions." +:+ s) +:+ t) +:+ u) = None)
    as Hp2.
  { intros s t u. by rewrite !app_assoc'. }
  split.
  { rewrite for_range_keep
      by (intros; apply perm_body_keep; intros ?; key_ne).
    subst p0. unfold set_group, makeParams.
    destruct (bool_decide _); by simplify_map_eq. }
  intros i perm Hi prefix subprefix. subst prefix subprefix. cbv beta.
  destruct (perm_body_scalars i perm p0) as (Hproto & Hfrom & Hto).
  repeat match goal with |- _ ∧ _ => split end.
  - by rewrite (perms_loop_lookup perms p0 i _ "IpProtocol"), Hi.
  - by rewrite (perms_loop_lookup perms p0 i _ "FromPort"), Hi.
  - by rewrite (perms_loop_lookup perms p0 i _ "ToPort"), Hi.
  - intros j.
    erewrite perms_loop_lookup by reflexivity.
    rewrite Hi, perm_body_ip. destruct (_ !! j); [done | apply Hp1].
  - intros j. unfold if_nonempty.
    pose proof (groups_body_own i j) as Hown. cbv zeta in Hown.
    repeat split.
    all: erewrite perms_loop_lookup by (rewrite !app_assoc'; reflexivity).
    all: rewrite Hi, perm_body_group.
    all: destruct (_ !! j) as [g|]; simpl; [|apply Hp2].
    all: destruct (Hown g p0) as (Huser & Hid & Hname).
    + rewrite Huser, Hp2. done.
    + rewrite Hid, Hp2. done.
    + rewrite Hname, Hp2. done.
Qed.

End permissions.

(** One rule with one address range and one source group given by name. *)
Example AuthorizeSecurityGroup_one_rule :
  ec2.AuthorizeSecurityGroup_params (sample.group "sg-1" "web")
    [{| ec2.IPPerm.Protocol := "tcp"; ec2.IPPerm.FromPort := 22;
        ec2.IPPerm.ToPort := 22; ec2.IPPerm.SourceIPs := ["10.0.0.0/8"];
        ec2.IPPerm.SourceGroups :=
          [{| ec2.UserSecurityGroup.Id := "";
              ec2.UserSecurityGroup.Name := "db";
              ec2.UserSecurityGroup.OwnerId := "1234" |}] |}]
  = ec2.Params
      (<["IpPermissions.1.Groups.1.GroupName" := "db"]>
         (<["IpPermissions.1.Groups.1.UserId" := "1234"]>
            (<["IpPermissions.1.IpRanges.1.CidrIp" := "10.0.0.0/8"]>
               (<["IpPermissions.1.ToPort" := "22"]>
                  (<["IpPermissions.1.FromPort" := "22"]>
                     (<["IpPermissions.1.IpProtocol" := "tcp"]>
                        (<["GroupId" := "sg-1"]>
                           (<["Action" := "AuthorizeSecurityGroupIngress"]>
                              ∅)))))))).
Proof. vm_compute. reflexivity. Qed.

(** ** Tags and launch permissions *)

(** Two keys with the same fixed parts are equal only at the same index;
    with different tails they differ. *)
Ltac idx_ne :=
  let H := fresh in
  intros H;
  first
    [ discriminate H
    | apply indexed_key_inj in H as [? H]; first [done | discriminate H] ].

(** Looks a numbered key up through the loops written in place. *)
Ltac loops_lookup :=
  repeat first
    [ rewrite for_range_indexed
    | rewrite addParamsList_at
    | rewrite for_range_keep by (intros; apply lookup_insert_ne; idx_ne)
    | progress push_lookup
    | match goal with
      | |- match ?x with Some _ => _ | None => _ end = ?x =>
          destruct x; [reflexivity|]
      end ];
  unfold ec2.makeParams, if_nonempty, ec2.set_nonempty, ec2.set_if;
  repeat match goal with
    | |- context [if ?c then _ else _] => destruct c
    end;
  by simplify_map_eq.

Section tags.
Import ec2.
Implicit Types (p q params : gmap string string) (key label : string).

(** X13. CreateTags sends resource id i as ResourceId.(i+1) and tag j as
    the pair Tag.(j+1).Key and Tag.(j+1).Value; past the end of either
    list there are no such keys. The tags are not per resource: one list
    of tags goes with the whole list of resources. *)
Theorem X13_CreateTags_flattening (resourceIds : list string)
    (tags : list Tag.t) :
  ∃ p, CreateTags_params resourceIds tags = Params p
    ∧ (∀ i : nat,
         p !! ("ResourceId." +:+ Itoa (Z.of_nat i + 1)) = resourceIds !! i)
    ∧ (∀ j : nat,
         p !! ("Tag." +:+ Itoa (Z.of_nat j + 1) +:+ ".Key")
         = Tag.Key <$> tags !! j)
    ∧ (∀ j : nat,
         p !! ("Tag." +:+ Itoa (Z.of_nat j + 1) +:+ ".Value")
         = Tag.Value <$> tags !! j).
Proof.
  eexists. split; [done|].
  set (base := addParamsList _ _ _).
  assert (∀ s, base !! ("Tag." +:+ s) = None) as Hbase.
  { intros s. subst base. push_lookup. by unfold makeParams; simplify_map_eq. }
  repeat split.
  - intros i. rewrite for_range_keep
      by (intros; rewrite !lookup_insert_ne by key_ne; done).
    subst base.
    change ("ResourceId." +:+ Itoa (Z.of_nat i + 1))
      with ("ResourceId" +:+ "." +:+ Itoa (Z.of_nat i + 1)).
    rewrite addParamsList_at. destruct (_ !! i); [done|].
    unfold makeParams. by rewrite lookup_insert_ne, lookup_empty.
  - intros j. rewrite (for_range_own _ _ _ j).
    + destruct (tags !! j) as [tag|]; simpl; [|apply Hbase].
      rewrite lookup_insert_ne by idx_ne. apply lookup_insert_eq.
    + intros j' tag q Hne. by rewrite !lookup_insert_ne by idx_ne.
    + intros tag q q' _. cbv zeta.
      by repeat first [ rewrite lookup_insert_eq
                      | rewrite lookup_insert_ne by idx_ne ].
  - intros j. rewrite (for_range_own _ _ _ j).
    + destruct (tags !! j) as [tag|]; simpl; [|apply Hbase].
      apply lookup_insert_eq.
    + intros j' tag q Hne. by rewrite !lookup_insert_ne by idx_ne.
    + intros tag q q' _. cbv zeta. by rewrite !lookup_insert_eq.
Qed.

(** X14. ModifyImageAttribute with non-nil options sends the image id,
    the description as Description.Value when not empty, and each of the
    five lists under its own keys numbered from 1:
    LaunchPermission.Add.i.UserId, LaunchPermission.Remove.i.UserId,
    LaunchPermission.Add.i.Group, LaunchPermission.Remove.i.Group and
    ProductCode.i. Users and groups are numbered separately, so the first
    added user and the first added group both go under
    LaunchPermission.Add.1. *)
Theorem X14_ModifyImageAttribute_launch_permissions (imageId : string)
    (o : ModifyImageAttribute.t) :
  ∃ p, ModifyImageAttribute_params imageId (Some o) = Params p
    ∧ p !! "ImageId" = Some imageId
    ∧ p !! "Description.Value"
      = if_nonempty (ModifyImageAttribute.Description o)
    ∧ (∀ i : nat,
         p !! ("LaunchPermission.Add." +:+ Itoa (Z.of_nat i + 1)
               +:+ ".UserId")
         = ModifyImageAttribute.AddUsers o !! i)
    ∧ (∀ i : nat,
         p !! ("LaunchPermission.Remove." +:+ Itoa (Z.of_nat i + 1)
               +:+ ".UserId")
         = ModifyImageAttribute.RemoveUsers o !! i)
    ∧ (∀ i : nat,
         p !! ("LaunchPermission.Add." +:+ Itoa (Z.of_nat i + 1)
               +:+ ".Group")
         = ModifyImageAttribute.AddGroups o !! i)
    ∧ (∀ i : nat,
         p !! ("LaunchPermission.Remove." +:+ Itoa (Z.of_nat i + 1)
               +:+ ".Group")
         = ModifyImageAttribute.RemoveGroups o !! i)
    ∧ (∀ i : nat,
         p !! ("ProductCode." +:+ Itoa (Z.of_nat i + 1))
         = ModifyImageAttribute.ProductCodes o !! i).
Proof.
  eexists. split; [done|]. cbv zeta.
  repeat match goal with |- _ ∧ _ => split end; try intros i.
  1-6: loops_lookup.
  change ("ProductCode." +:+ Itoa (Z.of_nat i + 1))
    with ("ProductCode" +:+ "." +:+ Itoa (Z.of_nat i + 1)).
  loops_lookup.
Qed.

End tags.

(** Two resources and one tag. *)
Example CreateTags_two :
  ec2.CreateTags_params ["i-1"; "i-2"]
    [{| ec2.Tag.Key := "env"; ec2.Tag.Value := "prod" |}]
  = ec2.Params
      (<["Tag.1.Value" := "prod"]> (<["Tag.1.Key" := "env"]>
         (<["ResourceId.2" := "i-2"]> (<["ResourceId.1" := "i-1"]>
            (<["Action" := "CreateTags"]> ∅))))).
Proof. vm_compute. reflexivity. Qed.

(** ** Building a filter *)

Section adds.
Import ec2.

Lemma filter_of_adds_snoc calls name value :
  filter_of_adds (calls ++ [(name, value)])
  = Filter_Add (filter_of_adds calls) name value.
Proof. unfold filter_of_adds. by rewrite foldl_snoc. Qed.

Lemma added_values_snoc name calls call :
  added_values name (calls ++ [call])
  = (added_values name calls
     ++ if bool_decide (call.1 = name) then call.2 else [])%list.
Proof.
  unfold added_values. rewrite filter_app, fmap_app, concat_app.
  f_equal. rewrite filter_cons, filter_nil.
  case_bool_decide.
  - rewrite decide_True by done. simpl. by rewrite (right_id_L [] (++)%list).
  - by rewrite decide_False by done.
Qed.

Lemma added_values_absent name calls :
  name ∉ calls.*1 → added_values name calls = [].
Proof.
  unfold added_values. induction calls as [|call calls IH]; [done|].
  rewrite fmap_cons, not_elem_of_cons. intros [Hne Hnot].
  rewrite filter_cons_False by done. by apply IH.
Qed.

(** X15. After a sequence of Add calls on a new filter, a name is in the
    filter exactly when some call added it, and its values are those of
    all the calls for that name, concatenated in call order: a second Add
    of a name appends and does not replace. A new filter without any Add
    makes addParams emit nothing. *)
Theorem X15_Filter_Add_accumulates (calls : list (string * list string))
    (name : string) :
  Filter.m (filter_of_adds calls) !! name
  = (if bool_decide (name ∈ calls.*1)
     then Some (added_values name calls) else None)
  ∧ ∀ env params, Filter_addParams env (Some NewFilter) params = params.
Proof.
  split.
  - induction calls as [|[n value] calls IH] using rev_ind; [done|].
    rewrite filter_of_adds_snoc, added_values_snoc, fmap_app. simpl.
    destruct (decide (n = name)) as [->|Hne].
    + rewrite lookup_insert_eq, IH.
      rewrite (bool_decide_true (name = name)) by done.
      rewrite (bool_decide_true (name ∈ (calls.*1 ++ [name])%list))
        by (apply elem_of_app; right; apply list_elem_of_here).
      case_bool_decide as Hin; simpl; [done|].
      by rewrite added_values_absent.
    + rewrite lookup_insert_ne, IH by done.
      rewrite (bool_decide_false (n = name)) by done.
      rewrite (right_id_L [] (++)%list).
      rewrite (bool_decide_ext (name ∈ (calls.*1 ++ [n])%list)
                 (name ∈ calls.*1)); [done|].
      rewrite elem_of_app, list_elem_of_singleton. intuition congruence.
  - intros env params. unfold Filter_addParams, NewFilter. simpl.
    pose proof (map_range_keys env ∅) as Hkeys.
    rewrite map_to_list_empty in Hkeys. simpl in Hkeys.
    apply Permutation_nil_r in Hkeys. by rewrite Hkeys.
Qed.

End adds.

(** ** How an operation ends *)

Section outcomes.
Import ec2.
Context (env : Env).

Lemma op_params_shape op :
  match op_params env op with
  | Params _ => nil_options op = false
  | Fails err =>
      nil_options op = false
      ∧ ∃ o, op = OpRunInstances (Some o) ∧ (clientToken env).2 = Some err
  | Panics => nil_options op = true
  end.
Proof.
  destruct op as
    [o|o| | | | |o ?| | |o| | | | |? o| |o| | | |? o|o| |o| | | | |o| | | | |
     | | | | | | |o| |o| ];
    try destruct o as [o|]; try reflexivity.
  cbn [op_params nil_options].
  pose proof (RunInstances_params_cases env o) as Hcases.
  destruct (clientToken env) as [token [err|]]; cbn [snd] in Hcases.
  - rewrite Hcases. split; [done|]. by exists o.
  - by destruct Hcases as [p ->].
Qed.

(** X16. An operation panics before it reaches query exactly when it is
    one of the twelve that take their options by pointer and the pointer
    is nil. It returns an error before it reaches query only in
    RunInstances, when the client token cannot be generated. Every other
    call reaches query; a nil filter never panics. *)
Theorem X16_nil_options_panic (op : Operation) :
  (op_params env op = Panics ↔ nil_options op = true)
  ∧ (∀ err, op_params env op = Fails err →
       ∃ o, op = OpRunInstances (Some o) ∧ (clientToken env).2 = Some err).
Proof.
  pose proof (op_params_shape op) as Hshape.
  destruct (op_params env op) as [|err|p].
  - by split.
  - destruct Hshape as [Hnil Hrun]. split.
    + split; [done|]. by rewrite Hnil.
    + by intros err' [= <-].
  - split; [|done]. split; [done|]. by rewrite Hshape.
Qed.

Lemma Error_Error_empty (e : Error.t) :
  Error_Error e = "" ↔ Error.Code e = "" ∧ Error.Message e = "".
Proof.
  unfold Error_Error. case_bool_decide as Hcode.
  - tauto.
  - split; [|by intros [? _]]. intros Heq. exfalso.
    destruct (Error.Message e); [|by rewrite app_cons in Heq].
    by rewrite app_nil_l, app_cons in Heq.
Qed.

(** X17. The error buildError makes of a response has an empty message
    only if the HTTP status line is empty, and so has its text, the result
    of the Error method. When the envelope holds no error element the text
    is the status line. When the error has a code, the text is the message
    followed by the code in parentheses. *)
Theorem X17_buildError_message (r : Response.t) :
  let envelope :=
    (xmlErrors_Decode env (Response.Body r) xmlErrors.zero).1 in
  ∃ e, buildError env r = EC2Error e
    ∧ (Error.Message e = "" → Response.Status r = "")
    ∧ (Error_Error e = "" → Response.Status r = "")
    ∧ (xmlErrors.Errors envelope = [] → Error_Error e = Response.Status r)
    ∧ (Error.Code e ≠ "" →
       Error_Error e = Error.Message e +:+ " (" +:+ Error.Code e +:+ ")").
Proof.
  intros envelope. unfold buildError. cbv zeta. fold envelope.
  eexists. split; [done|].
  assert (∀ (c : bool) (x y : Error.t),
            Error.Message (if c then x else y)
            = if c then Error.Message x else Error.Message y) as Hif
    by (by intros []).
  split; [|split; [|split]].
  - rewrite Hif. simpl. by case_bool_decide.
  - intros [_ Hmsg]%Error_Error_empty. revert Hmsg.
    rewrite Hif. simpl. by case_bool_decide.
  - intros Hnil. unfold Error_Error. rewrite Hnil. simpl. done.
  - intros Hcode. unfold Error_Error. by rewrite bool_decide_false.
Qed.

Lemma query_success {R : Type} `{!XmlTarget R} (ec2 : EC2)
    (p : gmap string string) (zero : R) :
  q_err (query env ec2 p zero) = None →
  ∃ url res,
    q_gets (query env ec2 p zero) = [url]
    ∧ Client.Get (httpClient ec2) url = inl res
    ∧ Response.StatusCode res = 200%Z
    ∧ xml_Decode (Response.Body res) zero
      = (q_resp (query env ec2 p zero), None).
Proof.
  unfold query.
  destruct (url_Parse env _) as [endpoint|err]; [|done].
  cbv zeta. set (url := URL_String env _).
  destruct (Client.Get (httpClient ec2) url) as [res|err] eqn:Hget; [|done].
  case_bool_decide as Hcode; [done|].
  destruct (xml_Decode _ _) as [resp' err'] eqn:Hdec. simpl.
  intros ->. exists url, res. repeat split; try done.
Qed.

(** What query leaves in the response struct when it returns an error. *)
Lemma query_failure {R : Type} `{!XmlTarget R} (ec2 : EC2)
    (p : gmap string string) (zero : R) err :
  q_err (query env ec2 p zero) = Some err →
  q_resp (query env ec2 p zero) = zero
  ∨ ∃ url res,
      q_gets (query env ec2 p zero) = [url]
      ∧ Client.Get (httpClient ec2) url = inl res
      ∧ Response.StatusCode res = 200%Z
      ∧ xml_Decode (Response.Body res) zero
        = (q_resp (query env ec2 p zero), Some err).
Proof.
  unfold query.
  destruct (url_Parse env _) as [endpoint|err0]; [|by left].
  cbv zeta. set (url := URL_String env _).
  destruct (Client.Get (httpClient ec2) url) as [res|err0] eqn:Hget;
    [|by left].
  case_bool_decide as Hcode; [by left|].
  destruct (xml_Decode _ _) as [resp' err'] eqn:Hdec. simpl.
  intros ->. right. exists url, res. repeat split; try done.
Qed.

(** X18. How a call of an operation can end, for an EC2 value with an
    HTTP client. It returns a response and no error only after exactly one
    GET that was answered with status 200 and whose body decoded without
    error; the response is then what the decoder made of the zero struct.
    It never returns neither a response nor an error. CreateKeyPair,
    DeleteKeyPair and ImportKeyPair (with options) always return the
    response struct, also with an error: the struct is then as query left
    it, the zero struct unless a body received with status 200 was decoded
    with that error. Every other operation returns no response when it
    returns an error. An operation panics only on a nil options pointer. *)
Theorem X18_perform_outcomes {R : Type} `{!XmlTarget R} (ec2 : EC2)
    (zero : R) :
  (∀ op : Operation,
     match perform env ec2 zero op with
     | Panic => nil_options op = true
     | Return (Some resp) None gets =>
         ∃ p url res,
           op_params env op = Params p ∧ gets = [url]
           ∧ Client.Get (httpClient ec2) url = inl res
           ∧ Response.StatusCode res = 200%Z
           ∧ xml_Decode (Response.Body res) zero = (resp, None)
     | Return None None _ => False
     | Return (Some resp) (Some err) gets =>
         keeps_resp op = true
         ∧ (resp = zero
            ∨ ∃ url res,
                gets = [url]
                ∧ Client.Get (httpClient ec2) url = inl res
                ∧ Response.StatusCode res = 200%Z
                ∧ xml_Decode (Response.Body res) zero = (resp, Some err))
     | Return None (Some _) _ => keeps_resp op = false
     end)
  ∧ (∀ keyName,
       ∃ resp err gets,
         perform env ec2 zero (OpCreateKeyPair keyName)
         = Return (Some resp) err gets)
  ∧ (∀ name,
       ∃ resp err gets,
         perform env ec2 zero (OpDeleteKeyPair name)
         = Return (Some resp) err gets)
  ∧ (∀ options,
       ∃ resp err gets,
         perform env ec2 zero (OpImportKeyPair (Some options))
         = Return (Some resp) err gets)
  ∧ (∀ op resp err gets,
       perform env ec2 zero op = Return resp (Some err) gets →
       match op with
       | OpCreateKeyPair _ | OpDeleteKeyPair _ | OpImportKeyPair _ => True
       | _ => resp = None
       end).
Proof.
  assert (∀ op p,
            op_params env op = Params p → keeps_resp op = true →
            ∃ resp err gets,
              perform env ec2 zero op = Return (Some resp) err gets)
    as Hkeeps.
  { intros op p Hp Hk. unfold perform. rewrite Hp, Hk. cbv zeta.
    destruct (q_err _); by eexists _, _, _. }
  split; [|split; [|split; [|split]]].
  - intros op. unfold perform.
    pose proof (op_params_shape op) as Hshape.
    destruct (op_params env op) as [|err|p]; [done| |].
    + destruct Hshape as [_ (o & -> & _)]. done.
    + cbv zeta.
      pose proof (query_success ec2 p zero) as Hok.
      pose proof (query_failure ec2 p zero) as Hfail.
      destruct (q_err (query env ec2 p zero)) as [err|].
      * destruct (keeps_resp op); [|done]. split; [done|].
        by apply Hfail.
      * destruct Hok as (url & res & Hgets & Hget & Hcode & Hdec); [done|].
        by exists p, url, res.
  - intros keyName. by eapply Hkeeps.
  - intros name. by eapply Hkeeps.
  - intros options. by eapply Hkeeps.
  - intros op resp err gets. unfold perform.
    destruct (op_params env op) as [|err0|p] eqn:Hp; [done| |].
    + intros [= <- _ _]. by destruct op.
    + cbv zeta. destruct (q_err _); [|done].
      destruct op; cbn [keeps_resp]; try done; by intros [= <- _ _].
Qed.

End outcomes.

(** The text of an error with a code. *)
Example Error_Error_with_code :
  ec2.Error_Error
    {| ec2.Error.StatusCode := 401; ec2.Error.Code := "AuthFailure";
       ec2.Error.Message := "denied"; ec2.Error.RequestId := "" |}
  = "denied (AuthFailure)".
Proof. vm_compute. reflexivity. Qed.

(** A server that answers 200: the operation returns what was decoded. *)
Example DescribeInstances_answered :
  let ok :=
    {| ec2.Response.Status := "200 OK"; ec2.Response.StatusCode := 200;
       ec2.Response.Body := "req-1" |} in
  let ec2 :=
    ec2.NewWithClient sample.auth sample.region (sample.client (inl ok)) in
  ec2.perform (R := string) (sample.env None) ec2 ""
    (ec2.OpDescribeInstances ["i-1"] None)
  = ec2.Return (Some "req-1") None ["https://ec2.us-east-1.amazonaws.com/?"].
Proof. vm_compute. reflexivity. Qed.

(** ** The other FileInfo store tests *)

Section more_store_tests.
Import store.
Context (E : TestEnv).

Lemma length_zero_iff (s : string) : String.length s = 0 ↔ s = "".
Proof. by destruct s. Qed.

(** X19. TestFileInfoSaveGetByPath passes exactly when: Save of a record
    whose path is a fresh id followed by /file.txt returns the saved
    FileInfo without error and with a non-empty Id; GetByPath on the path
    of the saved record returns without error a FileInfo with the same Id;
    the Save of the record with DeleteAt 123 returns a FileInfo without
    error; and GetByPath called with the Id of that record, not its path,
    returns an error. When the first Save returns an error the test ends
    in t.Fatal with that error. *)
Theorem X19_TestFileInfoSaveGetByPath :
  let info :=
    {| model.FileInfo.Id := ""; model.FileInfo.CreatorId := NewId E 0;
       model.FileInfo.PostId := "";
       model.FileInfo.Path := NewId E 1 +:+ "/file.txt";
       model.FileInfo.DeleteAt := 0 |} in
  let deleted :=
    {| model.FileInfo.Id := ""; model.FileInfo.CreatorId := NewId E 2;
       model.FileInfo.PostId := ""; model.FileInfo.Path := "file.txt";
       model.FileInfo.DeleteAt := 123 |} in
  (TestFileInfoSaveGetByPath E = Pass ↔
     ∃ r1 s1 saved r2 s2 got r3 s3 info2 r4 s4,
       Save info (Setup E) = (r1, s1) ∧ Err r1 = None
       ∧ Data_ r1 = FileInfoPtr (Some saved)
       ∧ model.FileInfo.Id saved ≠ ""
       ∧ GetByPath (model.FileInfo.Path saved) s1 = (r2, s2)
       ∧ Err r2 = None
       ∧ Data_ r2 = FileInfoPtr (Some got)
       ∧ model.FileInfo.Id got = model.FileInfo.Id saved
       ∧ Save deleted s2 = (r3, s3) ∧ Err r3 = None
       ∧ Data_ r3 = FileInfoPtr (Some info2)
       ∧ GetByPath (model.FileInfo.Id info2) s3 = (r4, s4)
       ∧ Err r4 ≠ None)
  ∧ (∀ r1 s1, Save info (Setup E) = (r1, s1) →
       ∀ err, Err r1 = Some err → TestFileInfoSaveGetByPath E = Fatal err).
Proof.
  intros info deleted. split; [split|].
  - unfold TestFileInfoSaveGetByPath. cbv zeta. fold info deleted.
    destruct (Save info (Setup E)) as [r1 s1] eqn:H1.
    destruct (Err r1) eqn:E1; simpl; [done|].
    destruct (Data_ r1) as [[saved|]| |] eqn:D1; simpl; try done.
    destruct (bool_decide_reflect
                (String.length (model.FileInfo.Id saved) = 0)) as [|I1];
      simpl; [done|].
    destruct (GetByPath (model.FileInfo.Path saved) s1) as [r2 s2] eqn:H2.
    destruct (Err r2) eqn:E2; simpl; [done|].
    destruct (Data_ r2) as [[got|]| |] eqn:D2; simpl; try done.
    destruct (bool_decide_reflect
                (model.FileInfo.Id got ≠ model.FileInfo.Id saved))
      as [|I2]; simpl; [done|].
    destruct (Save deleted s2) as [r3 s3] eqn:H3.
    unfold Must. destruct (Err r3) eqn:E3; simpl; [done|].
    destruct (Data_ r3) as [[info2|]| |] eqn:D3; simpl; try done.
    destruct (GetByPath (model.FileInfo.Id info2) s3) as [r4 s4] eqn:H4.
    destruct (bool_decide_reflect (Err r4 = None)) as [|E4]; simpl; [done|].
    intros _. exists r1, s1, saved, r2, s2, got, r3, s3, info2, r4, s4.
    repeat split; try done.
    + by rewrite <-length_zero_iff.
    + by apply dec_stable.
  - intros (r1 & s1 & saved & r2 & s2 & got & r3 & s3 & info2 & r4 & s4
            & H1 & E1 & D1 & I1 & H2 & E2 & D2 & I2 & H3 & E3 & D3 & H4 & E4).
    unfold TestFileInfoSaveGetByPath. cbv zeta. fold info deleted.
    rewrite H1, E1, D1. simpl.
    rewrite bool_decide_false by (by rewrite length_zero_iff). simpl.
    rewrite H2, E2, D2. simpl.
    rewrite bool_decide_false by (intros Hne; by apply Hne).
    simpl. rewrite H3. unfold Must. rewrite E3, D3. simpl. rewrite H4.
    by rewrite bool_decide_false.
  - intros r1 s1 H1 err E1.
    unfold TestFileInfoSaveGetByPath. cbv zeta. fold info.
    by rewrite H1, E1.
Qed.

Lemma save_all_Panicked infos (s : State E) r :
  save_all E infos s = End_ r → r = Panicked.
Proof.
  revert s. induction infos as [|info infos IH]; intros s; simpl; [done|].
  destruct (Save info s) as [r1 s1]. unfold Must.
  destruct (Err r1); simpl; [by intros [= <-]|].
  destruct (Data_ r1); simpl; try by intros [= <-].
  destruct (save_all E infos s1) as [[ps s2]|r'] eqn:Hrest; simpl; [done|].
  intros [= <-]. by eapply IH.
Qed.

(** X20. TestFileInfoGetForPost passes exactly when the four records are
    saved one after the other, each Save returning a FileInfo without
    error, and GetForPost on the post then returns, without error, a list
    of exactly two entries. If the four records cannot be saved in turn,
    the test does not fail through t.Fatal: it panics, and so does
    TestFileInfoDeleteForPost, which saves the same records. *)
Theorem X20_TestFileInfoGetForPost :
  let userId := NewId E 0 in
  let postId := NewId E 1 in
  let infos := four_infos userId postId (NewId E 2) in
  (TestFileInfoGetForPost E = Pass ↔
     ∃ s4 rg sg returned,
       saved_in_turn E infos (Setup E) s4
       ∧ GetForPost postId s4 = (rg, sg) ∧ Err rg = None
       ∧ Data_ rg = FileInfoPtrs returned ∧ length returned = 2)
  ∧ ((∀ s4, ¬ saved_in_turn E infos (Setup E) s4) →
     TestFileInfoGetForPost E = Panicked
     ∧ TestFileInfoDeleteForPost E = Panicked).
Proof.
  intros userId postId infos.
  unfold TestFileInfoGetForPost, TestFileInfoDeleteForPost. cbv zeta.
  fold userId postId infos. clearbody infos postId. clear userId.
  split; [split|].
  - destruct (save_all E infos (Setup E)) as [[ps s4]|r] eqn:Hsave; simpl.
    2:{ intros ->. by apply save_all_End in Hsave. }
    destruct (GetForPost postId s4) as [rg sg] eqn:Hg.
    destruct (Err rg) eqn:Eg; simpl; [done|].
    destruct (Data_ rg) as [|l|] eqn:Dg; simpl; try done.
    destruct (bool_decide_reflect (length l ≠ 2)) as [|Hl]; simpl; [done|].
    intros _. exists s4, rg, sg, l.
    split; [apply save_all_Go; by eexists|].
    repeat split; try done. by apply dec_stable.
  - intros (s4 & rg & sg & l & [ps Hsave]%save_all_Go & Hg & Eg & Dg & Hl).
    rewrite Hsave. simpl. rewrite Hg, Eg, Dg. simpl.
    by rewrite bool_decide_false by (intros Hne; by apply Hne).
  - intros Hnone.
    destruct (save_all E infos (Setup E)) as [[ps s4]|r] eqn:Hsave; simpl.
    + destruct (Hnone s4). apply save_all_Go. by eexists.
    + by apply save_all_Panicked in Hsave as ->.
Qed.

Lemma must_Save_Go info (s s' : State E) p :
  must_Save E info s = Go (p, s') ↔
    ∃ r, Save info s = (r, s') ∧ Err r = None ∧ Data_ r = FileInfoPtr p.
Proof.
  unfold must_Save, Must. destruct (Save info s) as [r s1].
  split.
  - destruct (Err r) eqn:Er; simpl; [done|].
    destruct (Data_ r) as [p'| |] eqn:Dr; simpl; try done.
    intros [= <- <-]. by exists r.
  - intros (r' & [= <- <-] & Er & Dr). by rewrite Er, Dr.
Qed.

Lemma must_Save_End info (s : State E) r :
  must_Save E info s = End_ r → r = Panicked.
Proof.
  unfold must_Save, Must. destruct (Save info s) as [r1 s1].
  destruct (Err r1); simpl; [by intros [= <-]|].
  destruct (Data_ r1); simpl; by intros [= <-].
Qed.

Lemma attach_and_get_Go info postId (s s' : State E) p :
  attach_and_get E info postId s = Go (p, s') ↔
    ∃ saved ra sa rg,
      info = Some saved
      ∧ AttachToPost (model.FileInfo.Id saved) postId s = (ra, sa)
      ∧ Err ra = None
      ∧ Get (model.FileInfo.Id saved) sa = (rg, s') ∧ Err rg = None
      ∧ Data_ rg = FileInfoPtr p.
Proof.
  unfold attach_and_get, Must. split.
  - destruct info as [saved|]; simpl; [|done].
    destruct (AttachToPost (model.FileInfo.Id saved) postId s)
      as [ra sa] eqn:Ha.
    destruct (Err ra) eqn:Ea; simpl; [done|].
    destruct (Get (model.FileInfo.Id saved) sa) as [rg sg] eqn:Hg.
    destruct (Err rg) eqn:Eg; simpl; [done|].
    destruct (Data_ rg) as [p'| |] eqn:Dg; simpl; try done.
    intros [= <- <-]. by exists saved, ra, sa, rg.
  - intros (saved & ra & sa & rg & -> & Ha & Ea & Hg & Eg & Dg). simpl.
    rewrite Ha, Ea. simpl. by rewrite Hg, Eg, Dg.
Qed.

Lemma attach_and_get_End info postId (s : State E) r :
  attach_and_get E info postId s = End_ r → r ≠ Pass.
Proof.
  unfold attach_and_get, Must. destruct info as [saved|]; simpl;
    [|by intros [= <-]].
  destruct (AttachToPost (model.FileInfo.Id saved) postId s) as [ra sa].
  destruct (Err ra); simpl; [by intros [= <-]|].
  destruct (Get (model.FileInfo.Id saved) sa) as [rg sg].
  destruct (Err rg); simpl; [by intros [= <-]|].
  destruct (Data_ rg); simpl; by intros [= <-].
Qed.

(** X21. TestFileInfoAttachToPost passes exactly when: the first Save
    returns without error a FileInfo with an empty PostId; AttachToPost of
    its Id to the post returns without error; Get on that Id then returns
    without error a FileInfo whose PostId is not empty (the test does not
    compare it with the post's id); the second Save returns a FileInfo
    without error; AttachToPost of its Id returns without error and Get on
    it returns a FileInfo pointer without error (which the test never
    reads, so it may be nil); and GetForPost on the post returns, without
    error, a list of exactly two entries. *)
Theorem X21_TestFileInfoAttachToPost :
  let userId := NewId E 0 in
  let postId := NewId E 1 in
  let fresh :=
    {| model.FileInfo.Id := ""; model.FileInfo.CreatorId := userId;
       model.FileInfo.PostId := ""; model.FileInfo.Path := "file.txt";
       model.FileInfo.DeleteAt := 0 |} in
  TestFileInfoAttachToPost E = Pass ↔
    ∃ r1 s1 info1 ra sa rg sg got1 r2 s2 info2 rb sb rh sh p2 rf sf returned,
      Save fresh (Setup E) = (r1, s1) ∧ Err r1 = None
      ∧ Data_ r1 = FileInfoPtr (Some info1)
      ∧ model.FileInfo.PostId info1 = ""
      ∧ AttachToPost (model.FileInfo.Id info1) postId s1 = (ra, sa)
      ∧ Err ra = None
      ∧ Get (model.FileInfo.Id info1) sa = (rg, sg) ∧ Err rg = None
      ∧ Data_ rg = FileInfoPtr (Some got1)
      ∧ model.FileInfo.PostId got1 ≠ ""
      ∧ Save fresh sg = (r2, s2) ∧ Err r2 = None
      ∧ Data_ r2 = FileInfoPtr (Some info2)
      ∧ AttachToPost (model.FileInfo.Id info2) postId s2 = (rb, sb)
      ∧ Err rb = None
      ∧ Get (model.FileInfo.Id info2) sb = (rh, sh) ∧ Err rh = None
      ∧ Data_ rh = FileInfoPtr p2
      ∧ GetForPost postId sh = (rf, sf) ∧ Err rf = None
      ∧ Data_ rf = FileInfoPtrs returned ∧ length returned = 2.
Proof.
  intros userId postId fresh.
  unfold TestFileInfoAttachToPost. cbv zeta. fold userId postId fresh.
  clearbody fresh postId. clear userId. split.
  - destruct (must_Save E fresh (Setup E)) as [[info1 s1]|] eqn:H1;
      simpl; [|by apply must_Save_End in H1 as ->].
    apply must_Save_Go in H1 as (r1 & H1 & E1 & D1).
    destruct info1 as [info1|]; simpl; [|done].
    destruct (bool_decide_reflect
                (String.length (model.FileInfo.PostId info1) ≠ 0))
      as [|P1]; simpl; [done|].
    destruct (attach_and_get E (Some info1) postId s1) as [[got1 sg]|]
      eqn:H2; simpl; [|intros ->; by apply attach_and_get_End in H2].
    apply attach_and_get_Go in H2
      as (? & ra & sa & rg & [= <-] & Ha & Ea & Hg & Eg & Dg).
    destruct got1 as [got1|]; simpl; [|done].
    destruct (bool_decide_reflect
                (String.length (model.FileInfo.PostId got1) = 0))
      as [|P2]; simpl; [done|].
    destruct (must_Save E fresh sg) as [[info2 s2]|] eqn:H3; simpl;
      [|by apply must_Save_End in H3 as ->].
    apply must_Save_Go in H3 as (r2 & H3 & E3 & D3).
    destruct (attach_and_get E info2 postId s2) as [[p2 sh]|] eqn:H4;
      simpl; [|intros ->; by apply attach_and_get_End in H4].
    apply attach_and_get_Go in H4
      as (saved2 & rb & sb & rh & -> & Hb & Eb & Hh & Eh & Dh).
    destruct (GetForPost postId sh) as [rf sf] eqn:Hf.
    destruct (Err rf) eqn:Ef; simpl; [done|].
    destruct (Data_ rf) as [|l|] eqn:Df; simpl; try done.
    destruct (bool_decide_reflect (length l ≠ 2)) as [|Hl]; simpl; [done|].
    intros _.
    exists r1, s1, info1, ra, sa, rg, sg, got1, r2, s2, saved2, rb, sb, rh,
      sh, p2, rf, sf, l.
    repeat split; try done.
    + apply length_zero_iff. by apply dec_stable.
    + by rewrite <-length_zero_iff.
    + by apply dec_stable.
  - intros (r1 & s1 & info1 & ra & sa & rg & sg & got1 & r2 & s2 & info2
            & rb & sb & rh & sh & p2 & rf & sf & l
            & H1 & E1 & D1 & P1 & Ha & Ea & Hg & Eg & Dg & P2
            & H3 & E3 & D3 & Hb & Eb & Hh & Eh & Dh & Hf & Ef & Df & Hl).
    assert (must_Save E fresh (Setup E) = Go (Some info1, s1)) as ->
      by (apply must_Save_Go; by exists r1).
    simpl. rewrite P1. simpl.
    assert (attach_and_get E (Some info1) postId s1 = Go (Some got1, sg))
      as -> by (apply attach_and_get_Go; by exists info1, ra, sa, rg).
    simpl. rewrite bool_decide_false by (by rewrite length_zero_iff). simpl.
    assert (must_Save E fresh sg = Go (Some info2, s2)) as ->
      by (apply must_Save_Go; by exists r2).
    simpl.
    assert (attach_and_get E (Some info2) postId s2 = Go (p2, sh))
      as -> by (apply attach_and_get_Go; by exists info2, rb, sb, rh).
    simpl. rewrite Hf, Ef, Df. simpl.
    by rewrite bool_decide_false by (intros Hne; by apply Hne).
Qed.

End more_store_tests.

(** The in-memory store passes the three tests. *)
Example TestFileInfoSaveGetByPath_passes :
  store.TestFileInfoSaveGetByPath (sample.mem.test_env false) = store.Pass.
Proof. vm_compute. reflexivity. Qed.

Example TestFileInfoGetForPost_passes :
  store.TestFileInfoGetForPost (sample.mem.test_env false) = store.Pass.
Proof. vm_compute. reflexivity. Qed.

Example TestFileInfoAttachToPost_passes :
  store.TestFileInfoAttachToPost (sample.mem.test_env false) = store.Pass.
Proof. vm_compute. reflexivity. Qed.
